(** * Backup-Data: a model of the replication engine and its properties

    The development embeds the TypeScript services of the repository
    (BackupService, CdcService, MonitoringService, MonitoringController)
    as Rocq functions.  Pure helpers become functions; code that talks to
    the two databases becomes a computation in a small state-and-exception
    monad over a [World] that holds both databases, the open query
    runners, the log and a schedule of driver faults.

    Part I holds the model, Part II the theorems about the replication
    paths, Part III further properties of the services. *)

From Stdlib Require Import ZArith String Ascii List Bool Lia DecimalString.
From Stdlib Require Import Sorting.Sorted Sorting.Permutation.
From Stdlib Require Import Floats.SpecFloat.
From Stdlib Require DecimalZ DecimalPos.
Import ListNotations.

#[local] Open Scope string_scope.
#[local] Open Scope list_scope.
#[local] Open Scope Z_scope.

(* ================================================================== *)
(** * Part I.  The model                                               *)
(* ================================================================== *)

(** ** JavaScript values and the built-ins the services call *)

Module Js.

(** JavaScript numbers are IEEE-754 binary64 values. *)
Definition number := spec_float.

Definition of_Z (z : Z) : number := binary_normalize 53 1024 z 0 false.
Definition fdiv : number -> number -> number := SFdiv 53 1024.
Definition fmul : number -> number -> number := SFmul 53 1024.
Definition fltb : number -> number -> bool := SFltb.
Definition fgtb (x y : number) : bool := SFltb y x.
Definition NaN : number := S754_nan.

Definition isNaN (x : number) : bool :=
  match x with S754_nan => true | _ => false end.

(** [Math.floor] and [Math.round] of a finite number, as the integer
    they denote; [None] for NaN and the infinities, which both
    functions return unchanged.  A finite double is [m * 2^e];
    [Math.round] picks the nearest integer and, on a tie, the one
    closer to +infinity, that is [floor (x + 1/2)] computed exactly. *)
Definition floor_scaled (s : bool) (m : positive) (e : Z) : Z :=
  let n := if s then Z.neg m else Z.pos m in
  if 0 <=? e then n * 2 ^ e else n / 2 ^ (- e).

Definition Math_floor (x : number) : option Z :=
  match x with
  | S754_zero _ => Some 0
  | S754_finite s m e => Some (floor_scaled s m e)
  | _ => None
  end.

Definition Math_round (x : number) : option Z :=
  match x with
  | S754_zero _ => Some 0
  | S754_finite s m e =>
      let n := if s then Z.neg m else Z.pos m in
      Some (if 0 <=? e then n * 2 ^ e
            else (2 * n + 2 ^ (- e)) / (2 * 2 ^ (- e)))
  | _ => None
  end.

(** Values that travel between the driver and the services.  Objects
    and arrays are kept by their JSON text, which is all the services
    ever ask of them. *)
Inductive JsValue : Type :=
| JUndefined
| JNull
| JBool (b : bool)
| JNum (x : number)
| JStr (s : string)
| JDate (ms : Z)
| JObject (isArray : bool) (json : string).

Definition num (z : Z) : JsValue := JNum (of_Z z).

Definition is_string (v : JsValue) : bool :=
  match v with JStr _ => true | _ => false end.

(** [typeof v === 'object'] *)
Definition is_object (v : JsValue) : bool :=
  match v with JNull | JDate _ | JObject _ _ => true | _ => false end.

Definition Array_isArray (v : JsValue) : bool :=
  match v with JObject true _ => true | _ => false end.

Definition number_eqb (x y : number) : bool :=
  match x, y with
  | S754_zero a, S754_zero b => Bool.eqb a b
  | S754_infinity a, S754_infinity b => Bool.eqb a b
  | S754_nan, S754_nan => true
  | S754_finite a m e, S754_finite b n f =>
      Bool.eqb a b && Pos.eqb m n && Z.eqb e f
  | _, _ => false
  end.

(** Structural equality of values (used for stored cells). *)
Definition value_eqb (a b : JsValue) : bool :=
  match a, b with
  | JUndefined, JUndefined => true
  | JNull, JNull => true
  | JBool x, JBool y => Bool.eqb x y
  | JNum x, JNum y => number_eqb x y
  | JStr x, JStr y => String.eqb x y
  | JDate x, JDate y => Z.eqb x y
  | JObject i x, JObject j y => Bool.eqb i j && String.eqb x y
  | _, _ => false
  end.

(** *** Strings

    A JavaScript string is kept by the bytes of its UTF-8 encoding (a
    surrogate that stands alone by the three bytes of its code point).
    The comparisons the services make after [toLowerCase] are with
    ASCII words, for which folding the ASCII letters is enough. *)

Definition lower_ascii (c : ascii) : ascii :=
  let n := nat_of_ascii c in
  if ((65 <=? n) && (n <=? 90))%nat then ascii_of_nat (n + 32) else c.

Fixpoint toLowerCase (s : string) : string :=
  match s with
  | EmptyString => EmptyString
  | String c r => String (lower_ascii c) (toLowerCase r)
  end.

Definition startsWith (s p : string) : bool := String.prefix p s.

Fixpoint includes (s p : string) : bool :=
  String.prefix p s ||
  match s with
  | EmptyString => false
  | String _ r => includes r p
  end.

Definition string_of_Z (z : Z) : string :=
  NilZero.string_of_int (Z.to_int z).

Fixpoint join (sep : string) (l : list string) : string :=
  match l with
  | [] => ""
  | [x] => x
  | x :: r => x ++ sep ++ join sep r
  end.

(** *** [s.length] and [s.substring(0, n)]

    Both count UTF-16 code units.  A character of one, two or three
    bytes is one code unit and a character of four bytes is two (a
    surrogate pair); the bytes that continue a character count with
    its first byte. *)
Definition units (c : ascii) : nat :=
  let n := N_of_ascii c in
  if (n <? 128)%N then 1%nat
  else if (n <? 192)%N then 0%nat
  else if (n <? 240)%N then 1%nat
  else 2%nat.

Fixpoint length16 (s : string) : nat :=
  match s with
  | EmptyString => 0%nat
  | String c r => (units c + length16 r)%nat
  end.

(** What is left of the four-byte character [c r...] when a string is
    cut between its two code units: the high surrogate, by the three
    bytes of its code point. *)
Definition high_surrogate (c : ascii) (r : string) : string :=
  match r with
  | String c1 (String c2 (String c3 _)) =>
      let cp := ((N_of_ascii c - 240) * 262144
                 + (N_of_ascii c1 - 128) * 4096
                 + (N_of_ascii c2 - 128) * 64
                 + (N_of_ascii c3 - 128))%N in
      let hi := (55296 + (cp - 65536) / 1024)%N in
      String (ascii_of_N 237)
        (String (ascii_of_N (128 + (hi / 64) mod 64))
           (String (ascii_of_N (128 + hi mod 64)) EmptyString))
  | _ => EmptyString
  end.

(** [s.substring(0, n)] *)
Fixpoint substring16 (n : nat) (s : string) : string :=
  match s with
  | EmptyString => EmptyString
  | String c r =>
      if (units c <=? n)%nat then String c (substring16 (n - units c) r)
      else if (n =? 1)%nat then high_surrogate c r
      else EmptyString
  end.

(** *** [parseInt(s, 10)] *)

(** The white space [parseInt] skips: TAB, LF, VT, FF, CR and the
    space, ... *)
Definition is_ws (c : ascii) : bool :=
  match nat_of_ascii c with
  | 9%nat | 10%nat | 11%nat | 12%nat | 13%nat | 32%nat => true
  | _ => false
  end.

(** ... the no-break space U+00A0 (bytes C2 A0), ... *)
Definition is_ws2 (a b : ascii) : bool :=
  ((nat_of_ascii a =? 194) && (nat_of_ascii b =? 160))%nat.

(** ... and U+1680, U+2000 to U+200A, U+2028, U+2029, U+202F, U+205F,
    U+3000 and U+FEFF, of three bytes each. *)
Definition is_ws3 (a b c : ascii) : bool :=
  let '(a, b, c) := (nat_of_ascii a, nat_of_ascii b, nat_of_ascii c) in
  (((a =? 225) && (b =? 154) && (c =? 128))
   || ((a =? 226) && (b =? 128)
       && (((128 <=? c) && (c <=? 138)) || (c =? 168) || (c =? 169)
           || (c =? 175)))
   || ((a =? 226) && (b =? 129) && (c =? 159))
   || ((a =? 227) && (b =? 128) && (c =? 128))
   || ((a =? 239) && (b =? 187) && (c =? 191)))%nat.

(** The first byte of a white-space character of several bytes. *)
Definition is_ws_lead (c : ascii) : bool :=
  match nat_of_ascii c with
  | 194%nat | 225%nat | 226%nat | 227%nat | 239%nat => true
  | _ => false
  end.

Fixpoint skip_ws (s : string) : string :=
  match s with
  | String c r =>
      if is_ws c then skip_ws r
      else if is_ws_lead c then
        match r with
        | String c2 r2 =>
            if is_ws2 c c2 then skip_ws r2
            else
              match r2 with
              | String c3 r3 => if is_ws3 c c2 c3 then skip_ws r3 else s
              | EmptyString => s
              end
        | EmptyString => s
        end
      else s
  | EmptyString => s
  end.

Definition digit_of (c : ascii) : option Z :=
  let n := Z.of_nat (nat_of_ascii c) in
  if (48 <=? n) && (n <=? 57) then Some (n - 48) else None.

Fixpoint digits (acc : option Z) (s : string) : option Z :=
  match s with
  | String c r =>
      match digit_of c with
      | Some d =>
          digits (Some (10 * match acc with Some a => a | None => 0 end + d)) r
      | None => acc
      end
  | EmptyString => acc
  end.

Definition parseInt (s : string) : number :=
  let s1 := skip_ws s in
  let '(neg, s2) :=
    match s1 with
    | String "-" r => (true, r)
    | String "+" r => (false, r)
    | _ => (false, s1)
    end in
  match digits None s2 with
  | None => NaN
  | Some n => binary_normalize 53 1024 (if neg then - n else n) 0 neg
  end.

(** *** [Boolean(v)] *)

Definition Boolean (v : JsValue) : bool :=
  match v with
  | JUndefined | JNull => false
  | JBool b => b
  | JNum (S754_zero _) | JNum S754_nan => false
  | JNum _ => true
  | JStr s => negb (String.eqb s "")
  | JDate _ | JObject _ _ => true
  end.

(** *** Built-ins left to the runtime

    The services also call built-ins whose full definition is the
    ECMAScript standard's and plays no part in the properties below.
    They are the fields of an interface. *)
Class Runtime : Type := {
  parseFloat : string -> number;
  (** [Date.parse]; [None] stands for NaN. *)
  Date_parse : string -> option Z;
  (** whether [JSON.parse] returns rather than throws *)
  JSON_parses : string -> bool;
  JSON_stringify : JsValue -> string;
  number_toString : number -> string;
  date_toString : Z -> string;
  object_toString : bool -> string -> string;
  object_toNumber : bool -> string -> number
}.

Section WithRuntime.
Context {rt : Runtime}.

(** [Number(v)] *)
Definition Number (v : JsValue) : number :=
  match v with
  | JUndefined => NaN
  | JNull => of_Z 0
  | JBool b => of_Z (if b then 1 else 0)
  | JNum x => x
  | JStr s => parseFloat s
  | JDate ms => of_Z ms
  | JObject a j => object_toNumber a j
  end.

(** [String(v)] *)
Definition String_ (v : JsValue) : string :=
  match v with
  | JUndefined => "undefined"
  | JNull => "null"
  | JBool b => if b then "true" else "false"
  | JNum x => number_toString x
  | JStr s => s
  | JDate ms => date_toString ms
  | JObject a j => object_toString a j
  end.
End WithRuntime.

End Js.

Import Js.

(** ** Value coercion *)

Module Coercion.
Section WithRuntime.
Context {rt : Runtime}.

(** [switch] on a lower-cased type name: membership in a case group. *)
Definition one_of (s : string) (cases : list string) : bool :=
  existsb (String.eqb s) cases.

(** The boolean branch shared by both services:
    [value.toLowerCase() === 'true' || value === '1' || value === 't']
    for strings, [Boolean(value)] otherwise. *)
Definition coerceBoolean (value : JsValue) : JsValue :=
  match value with
  | JStr s =>
      JBool (String.eqb (toLowerCase s) "true"
             || String.eqb s "1" || String.eqb s "t")
  | _ => JBool (Boolean value)
  end.

(** BackupService.processValueForInsertion (backup.service.ts 438-498).
    [dataType] is [columnTypes[col]], undefined for an unknown column. *)
Definition processValueForInsertion
    (value : JsValue) (dataType : option string) : JsValue :=
  match value with
  | JNull | JUndefined => JNull
  | _ =>
    let t := match dataType with Some d => toLowerCase d | None => "" end in
    let known := match dataType with Some _ => true | None => false end in
    if known && one_of t ["json"; "jsonb"] then
      match value with
      | JStr s => if JSON_parses s then value else JStr (JSON_stringify value)
      | _ => JStr (JSON_stringify value)
      end
    else if known && one_of t ["integer"; "bigint"; "smallint"] then
      match value with
      | JStr s => JNum (parseInt s)
      | _ => JNum (Number value)
      end
    else if known && one_of t ["numeric"; "decimal"; "real"; "double precision"] then
      match value with
      | JStr s => JNum (parseFloat s)
      | _ => JNum (Number value)
      end
    else if known && one_of t ["boolean"] then
      coerceBoolean value
    else if known && one_of t ["timestamp without time zone";
                               "timestamp with time zone"; "date"] then
      match value with
      | JDate _ => value
      | JStr s =>
          match Date_parse s with
          | Some ms => JDate ms
          | None => value
          end
      | _ => value
      end
    else
      if Array_isArray value then value else JStr (String_ value)
  end.

(** CdcService.processColumnValue (cdc.service.ts 454-511). *)
Definition processColumnValue (value : JsValue) (dataType : string) : JsValue :=
  match value with
  | JNull | JUndefined => JNull
  | _ =>
    let t := toLowerCase dataType in
    if one_of t ["bigint"; "integer"; "smallint"] then
      match value with
      | JStr s => JNum (parseInt s)
      | _ => value
      end
    else if one_of t ["numeric"; "decimal"; "real"; "double precision"] then
      match value with
      | JStr s => JNum (parseFloat s)
      | _ => value
      end
    else if one_of t ["boolean"] then
      coerceBoolean value
    else if one_of t ["timestamp without time zone";
                      "timestamp with time zone"; "date"] then
      match value with
      | JStr s =>
          match Date_parse s with
          | Some ms => JDate ms
          | None => value
          end
      | _ => value
      end
    else if one_of t ["json"; "jsonb"] then
      match value with
      | JStr _ => value
      | _ => if is_object value || Array_isArray value
             then JStr (JSON_stringify value) else value
      end
    else
      JStr (String_ value)
  end.
End WithRuntime.
End Coercion.

Import Coercion.

(** ** The two PostgreSQL databases

    A database is a catalog of tables (in catalog order, which is the
    order the listing queries return) and of enumerated types.  A cell
    holds the value the driver hands to the service when the cell is
    read.  The only unique index of a table is its primary key. *)

Module Pg.

(** A row of [information_schema.columns]. *)
Record Column : Type := {
  column_name : string;
  data_type : string;
  udt_name : option string;
  is_nullable : string;
  character_maximum_length : option Z;
  numeric_precision : option Z;
  numeric_scale : option Z;
  column_default : option string
}.

(** A result row: a JavaScript object with its keys in order. *)
Definition Row : Type := list (string * JsValue).

Record Table : Type := {
  columns : list Column;
  pkey : list string;
  rows : list Row
}.

Record Db : Type := {
  tables : list (string * Table);
  enums : list (string * list string)
}.

Section Assoc.
Context {A : Type}.

Fixpoint assoc (k : string) (l : list (string * A)) : option A :=
  match l with
  | [] => None
  | (k', v) :: r => if String.eqb k k' then Some v else assoc k r
  end.

(** Overwrite the binding of [k], or add one at the end. *)
Fixpoint assoc_set (k : string) (v : A) (l : list (string * A))
  : list (string * A) :=
  match l with
  | [] => [(k, v)]
  | (k', v') :: r =>
      if String.eqb k k' then (k, v) :: r else (k', v') :: assoc_set k v r
  end.

Definition assoc_remove (k : string) (l : list (string * A))
  : list (string * A) :=
  filter (fun kv => negb (String.eqb k (fst kv))) l.

Definition has_key (k : string) (l : list (string * A)) : bool :=
  match assoc k l with Some _ => true | None => false end.
End Assoc.

Definition mem (s : string) (l : list string) : bool :=
  existsb (String.eqb s) l.

(** [row[col]]: undefined when the key is absent. *)
Definition field (r : Row) (c : string) : JsValue :=
  match assoc c r with Some v => v | None => JUndefined end.

Definition is_nullish (v : JsValue) : bool :=
  match v with JNull | JUndefined => true | _ => false end.

(** *** A plain object used as a map from names to type names

    [o[name] = type] and [o[name]] on an object literal [{}], where a
    type is a string or null.  A name the object does not have is
    looked up in Object.prototype: there it finds a function
    ([constructor], [toString], ...) or, for [__proto__], the prototype
    itself.  Assigning to [__proto__] adds no property: a string is
    ignored and null takes the prototype away. *)
Definition prototype_members : list string :=
  ["constructor"; "hasOwnProperty"; "isPrototypeOf"; "propertyIsEnumerable";
   "toLocaleString"; "toString"; "valueOf"; "__defineGetter__";
   "__defineSetter__"; "__lookupGetter__"; "__lookupSetter__"; "__proto__"].

Record PlainObject : Type := {
  own : list (string * option string);
  has_prototype : bool
}.

Definition empty_object : PlainObject :=
  {| own := []; has_prototype := true |}.

Definition object_set (k : string) (v : option string) (o : PlainObject)
  : PlainObject :=
  if String.eqb k "__proto__" then
    match v with
    | Some _ => o
    | None => {| own := own o; has_prototype := false |}
    end
  else {| own := assoc_set k v (own o); has_prototype := has_prototype o |}.

(** What [o[k]] finds: a property of the object itself, a member of
    Object.prototype, or nothing (undefined). *)
Inductive Property : Type :=
| Own (v : option string)
| Inherited
| Missing.

Definition object_get (k : string) (o : PlainObject) : Property :=
  match assoc k (own o) with
  | Some v => Own v
  | None =>
      if has_prototype o && mem k prototype_members then Inherited
      else Missing
  end.

Definition lookupTable (db : Db) (t : string) : option Table :=
  assoc t (tables db).

Definition setTable (db : Db) (t : string) (T : Table) : Db :=
  {| tables := assoc_set t T (tables db); enums := enums db |}.

Definition dropTable (db : Db) (t : string) : Db :=
  {| tables := assoc_remove t (tables db); enums := enums db |}.

Definition tableNames (db : Db) : list string := map fst (tables db).

Definition columnNames (T : Table) : list string :=
  map column_name (columns T).

Definition findColumn (T : Table) (c : string) : option Column :=
  find (fun col => String.eqb (column_name col) c) (columns T).

(** SQL [LIKE] with [%] and [_]. *)
Fixpoint like (p s : string) {struct p} : bool :=
  match p with
  | EmptyString => match s with EmptyString => true | _ => false end
  | String c p' =>
      if Ascii.eqb c "%" then
        (fix star (s : string) : bool :=
           like p' s ||
           match s with EmptyString => false | String _ s' => star s' end) s
      else if Ascii.eqb c "_" then
        match s with String _ s' => like p' s' | EmptyString => false end
      else
        match s with
        | String d s' => Ascii.eqb c d && like p' s'
        | EmptyString => false
        end
  end.

(** Outcome of a statement: a result, or the server's error message. *)
Inductive Res (A : Type) : Type :=
| Done (a : A)
| Fail (message : string).
Arguments Done {A} a.
Arguments Fail {A} message.

(** The server's side of what the services rely on but do not define:
    whether a bound parameter converts to a column's type; which
    built-in type a DDL type text denotes ([data_type] and [udt_name]
    as the catalog reports them; [None] when there is none); the
    position of a value in the order of a cursor column (an integer
    for a bigint, milliseconds since the epoch for a timestamp; [None]
    when the value does not convert); whether the grammar keeps a word
    from naming a type when it is written without quotes; and what the
    server makes of the text [CREATE TYPE name AS ENUM ('l1', ...)]
    when the name or a label, written into the text as it is, does not
    read back as itself. *)
Class Engine : Type := {
  pg_value_ok : string -> JsValue -> bool;
  pg_builtin_type : string -> option (string * string);
  pg_cursor : JsValue -> option Z;
  pg_reserved : string -> bool;
  pg_create_type_text : string -> list string -> Db -> Res Db
}.

Definition dq : string := String (ascii_of_nat 34) EmptyString.
Definition quoted (s : string) : string := dq ++ s ++ dq.

Definition no_relation (t : string) : string :=
  "relation " ++ quoted t ++ " does not exist".

(** *** INSERT *)

Inductive OnConflict : Type :=
| NoClause
| DoNothing
| OnTargetDoNothing (target : list string)
| OnTargetDoUpdate (target set : list string).

Fixpoint list_eqb {A} (eqb : A -> A -> bool) (a b : list A) : bool :=
  match a, b with
  | [], [] => true
  | x :: a', y :: b' => eqb x y && list_eqb eqb a' b'
  | _, _ => false
  end.

Definition key_of (pk : list string) (r : Row) : list JsValue :=
  map (field r) pk.

Definition same_key (pk : list string) (r1 r2 : Row) : bool :=
  list_eqb value_eqb (key_of pk r1) (key_of pk r2).

(** Some stored row has the primary key of [r]. *)
Definition conflicts (T : Table) (r : Row) : bool :=
  match pkey T with
  | [] => false
  | pk => existsb (same_key pk r) (rows T)
  end.

(** The row as stored: one cell per column of the table, NULL where
    the statement names no value (column defaults are not applied). *)
Definition stored (T : Table) (r : Row) : Row :=
  map (fun c => (c, match assoc c r with Some v => v | None => JNull end))
      (columnNames T).

Section WithEngine.
Context {eng : Engine}.

(** The checks a row of values must pass before it is stored:
    every named column exists, every value converts to its column's
    type, no primary-key column is left NULL, and no other NOT NULL
    column is, unless it has a default and the statement does not name
    it. *)
Definition row_error (T : Table) (r : Row) : option string :=
  if negb (forallb (fun c => mem c (columnNames T)) (map fst r)) then
    Some "column of relation does not exist"
  else if negb (forallb (fun col =>
                 match assoc (column_name col) r with
                 | Some v => is_nullish v || pg_value_ok (data_type col) v
                 | None => true
                 end) (columns T)) then
    Some "invalid input syntax for type"
  else if negb (forallb (fun col =>
                 negb (is_nullish (field r (column_name col)))
                 || (negb (mem (column_name col) (pkey T))
                     && (negb (String.eqb (is_nullable col) "NO")
                         || match column_default col with
                            | Some _ => negb (mem (column_name col) (map fst r))
                            | None => false
                            end))) (columns T)) then
    Some "null value violates not-null constraint"
  else None.

Definition same_set (a b : list string) : bool :=
  forallb (fun x => mem x b) a && forallb (fun x => mem x a) b.

(** [ON CONFLICT (target)] needs a unique index on exactly [target]. *)
Definition arbiter_ok (T : Table) (target : list string) : bool :=
  match pkey T with
  | [] => false
  | pk => same_set target pk
  end.

Definition update_row (pk set : list string) (new old : Row) : Row :=
  if same_key pk new old then
    map (fun '(c, v) => if mem c set then (c, field new c) else (c, v)) old
  else old.

(** One row of an INSERT statement against table [T]. *)
Definition insertRow (clause : OnConflict) (T : Table) (r : Row)
  : Res Table :=
  match row_error T r with
  | Some e => Fail e
  | None =>
      let add := {| columns := columns T; pkey := pkey T;
                    rows := rows T ++ [stored T r] |} in
      match clause with
      | NoClause =>
          if conflicts T r
          then Fail "duplicate key value violates unique constraint"
          else Done add
      | DoNothing =>
          if conflicts T r then Done T else Done add
      | OnTargetDoNothing target =>
          if negb (arbiter_ok T target)
          then Fail "there is no unique or exclusion constraint matching the ON CONFLICT specification"
          else if conflicts T r then Done T else Done add
      | OnTargetDoUpdate target set =>
          if negb (arbiter_ok T target)
          then Fail "there is no unique or exclusion constraint matching the ON CONFLICT specification"
          else if conflicts T r
          then Done {| columns := columns T; pkey := pkey T;
                       rows := map (update_row (pkey T) set (stored T r))
                                   (rows T) |}
          else Done add
      end
  end.

(** A statement with several VALUES rows applies them in order and
    is atomic: one failing row fails the statement as a whole. *)
Fixpoint insertRows (clause : OnConflict) (T : Table) (rs : list Row)
  : Res Table :=
  match rs with
  | [] => Done T
  | r :: rest =>
      match insertRow clause T r with
      | Done T' => insertRows clause T' rest
      | Fail e => Fail e
      end
  end.

Definition insertInto (db : Db) (t : string) (clause : OnConflict)
    (rs : list Row) : Res Db :=
  match lookupTable db t with
  | None => Fail (no_relation t)
  | Some T =>
      match insertRows clause T rs with
      | Done T' => Done (setTable db t T')
      | Fail e => Fail e
      end
  end.
End WithEngine.

End Pg.

Import Pg.

(** ** Effects: query runners, round trips, exceptions, the log

    A service method is a function from the world to an outcome and a
    new world.  An exception keeps every change made before it was
    thrown, as in the source.  Each round trip to a server consumes one
    entry of the fault schedule; [Some msg] makes the driver throw
    [msg] instead of doing the work. *)

Module Eff.

Inductive Side : Type := Primary | Backup.

Record Runner : Type := { rid : nat; side : Side }.

Inductive Level : Type := LLog | LDebug | LWarn | LError.

Record World : Type := {
  primary : Db;
  backup : Db;
  faults : list (option string);
  nextRunner : nat;
  connected : list nat;
  logs : list (Level * string)
}.

Inductive Result (A : Type) : Type :=
| Ok (a : A)
| Throw (message : string).
Arguments Ok {A} a.
Arguments Throw {A} message.

Definition M (A : Type) : Type := World -> Result A * World.

Definition ret {A} (a : A) : M A := fun w => (Ok a, w).

Definition throw {A} (e : string) : M A := fun w => (Throw e, w).

Definition bind {A B} (m : M A) (k : A -> M B) : M B :=
  fun w =>
    match m w with
    | (Ok a, w') => k a w'
    | (Throw e, w') => (Throw e, w')
    end.

(** [try { body } catch (e) { handler e }] *)
Definition try_catch {A} (body : M A) (handler : string -> M A) : M A :=
  fun w =>
    match body w with
    | (Ok a, w') => (Ok a, w')
    | (Throw e, w') => handler e w'
    end.

(** [try { body } finally { fin }]: [fin] runs on every exit of
    [body]; an exception of [fin] replaces the outcome of [body]. *)
Definition try_finally {A} (body : M A) (fin : M unit) : M A :=
  fun w =>
    let '(r, w1) := body w in
    match fin w1 with
    | (Ok _, w2) => (r, w2)
    | (Throw e, w2) => (Throw e, w2)
    end.

Declare Scope eff_scope.
Delimit Scope eff_scope with eff.
Notation "x <- m ;; k" := (bind m (fun x => k))
  (at level 61, m at next level, right associativity) : eff_scope.
Notation "m ;; k" := (bind m (fun _ => k))
  (at level 61, right associativity) : eff_scope.
#[local] Open Scope eff_scope.

(** [for (const x of l) { body x }] *)
Fixpoint forM_ {A} (l : list A) (body : A -> M unit) : M unit :=
  match l with
  | [] => ret tt
  | x :: r => body x ;; forM_ r body
  end.

(** The slices [l.slice(i, i + n)] for [i = 0, n, 2n, ...]. *)
Fixpoint chunks_aux {A} (fuel n : nat) (l : list A) : list (list A) :=
  match fuel with
  | O => []
  | S f =>
      match l with
      | [] => []
      | _ => firstn n l :: chunks_aux f n (skipn n l)
      end
  end.

Definition chunks {A} (n : nat) (l : list A) : list (list A) :=
  chunks_aux (length l) n l.

Definition set_faults (w : World) (f : list (option string)) : World :=
  {| primary := primary w; backup := backup w; faults := f;
     nextRunner := nextRunner w; connected := connected w;
     logs := logs w |}.

Definition set_connected (w : World) (c : list nat) : World :=
  {| primary := primary w; backup := backup w; faults := faults w;
     nextRunner := nextRunner w; connected := c; logs := logs w |}.

Definition db_of (s : Side) (w : World) : Db :=
  match s with Primary => primary w | Backup => backup w end.

Definition set_db (s : Side) (w : World) (db : Db) : World :=
  match s with
  | Primary =>
      {| primary := db; backup := backup w; faults := faults w;
         nextRunner := nextRunner w; connected := connected w;
         logs := logs w |}
  | Backup =>
      {| primary := primary w; backup := db; faults := faults w;
         nextRunner := nextRunner w; connected := connected w;
         logs := logs w |}
  end.

Definition log (lvl : Level) (msg : string) : M unit :=
  fun w =>
    (Ok tt,
     {| primary := primary w; backup := backup w; faults := faults w;
        nextRunner := nextRunner w; connected := connected w;
        logs := logs w ++ [(lvl, msg)] |}).

(** One round trip to a server. *)
Definition roundtrip : M unit :=
  fun w =>
    match faults w with
    | Some e :: f => (Throw e, set_faults w f)
    | None :: f => (Ok tt, set_faults w f)
    | [] => (Ok tt, w)
    end.

(** [connection.createQueryRunner()] *)
Definition createQueryRunner (s : Side) : M Runner :=
  fun w =>
    (Ok {| rid := nextRunner w; side := s |},
     {| primary := primary w; backup := backup w; faults := faults w;
        nextRunner := S (nextRunner w); connected := connected w;
        logs := logs w |}).

(** [queryRunner.connect()] *)
Definition connect (r : Runner) : M unit :=
  roundtrip ;; fun w => (Ok tt, set_connected w (rid r :: connected w)).

(** [queryRunner.release()]: hands the connection back; does not
    throw. *)
Definition release (r : Runner) : M unit :=
  fun w =>
    (Ok tt,
     set_connected w (filter (fun i => negb (Nat.eqb i (rid r)))
                             (connected w))).

(** [queryRunner.query(...)] for a statement that only reads. *)
Definition readDb {A} (r : Runner) (q : Db -> Res A) : M A :=
  roundtrip ;;
  fun w =>
    match q (db_of (side r) w) with
    | Done a => (Ok a, w)
    | Fail e => (Throw e, w)
    end.

(** [queryRunner.query(...)] for a statement that writes. *)
Definition writeDb (r : Runner) (q : Db -> Res Db) : M unit :=
  roundtrip ;;
  fun w =>
    match q (db_of (side r) w) with
    | Done db => (Ok tt, set_db (side r) w db)
    | Fail e => (Throw e, w)
    end.

End Eff.

Import Eff.
#[local] Open Scope eff_scope.

(** ** The SQL statements the services send

    Each statement of the source is a function on the database it is
    sent to; the SQL text it stands for is quoted above it. *)

Module Sql.
Section WithEngine.
Context {eng : Engine}.

(** [SELECT EXISTS (SELECT FROM information_schema.tables WHERE
    table_schema = 'public' AND table_name = $1)] *)
Definition tableExists (t : string) (db : Db) : Res bool :=
  Done (has_key t (tables db)).

(** [SELECT EXISTS (SELECT FROM information_schema.columns WHERE ...
    table_name = $1 AND column_name = $2)] *)
Definition columnExists (t c : string) (db : Db) : Res bool :=
  Done match lookupTable db t with
       | Some T => mem c (columnNames T)
       | None => false
       end.

(** [SELECT ... FROM information_schema.columns WHERE table_schema =
    'public' AND table_name = $1 ORDER BY ordinal_position] *)
Definition selectColumns (t : string) (db : Db) : Res (list Column) :=
  Done match lookupTable db t with
       | Some T => columns T
       | None => []
       end.

(** [SELECT data_type FROM information_schema.columns WHERE ...
    table_name = $1 AND column_name = $2] *)
Definition selectDataType (t c : string) (db : Db) : Res (list string) :=
  Done match lookupTable db t with
       | Some T => map data_type
                     (filter (fun col => String.eqb (column_name col) c)
                             (columns T))
       | None => []
       end.

(** The primary-key columns of [t], in key order (both the
    [key_column_usage ... LIKE '%_pkey'] and the [table_constraints]
    formulations of the source). *)
Definition selectPkeyColumns (t : string) (db : Db) : Res (list string) :=
  Done match lookupTable db t with
       | Some T => pkey T
       | None => []
       end.

(** [SELECT * FROM "t"], with [LIMIT n] when [limit] is given. *)
Definition selectAll (t : string) (limit : option nat) (db : Db)
  : Res (list Row) :=
  match lookupTable db t with
  | Some T => Done match limit with
                   | Some n => firstn n (rows T)
                   | None => rows T
                   end
  | None => Fail (no_relation t)
  end.

(** [SELECT COUNT( * ) as count FROM "t"] *)
Definition selectCount (t : string) (db : Db) : Res Z :=
  match lookupTable db t with
  | Some T => Done (Z.of_nat (length (rows T)))
  | None => Fail (no_relation t)
  end.

(** [SELECT tablename FROM pg_tables WHERE schemaname = 'public' AND
    tablename NOT LIKE 'pg_%' ORDER BY tablename]; the catalog is
    taken to be kept in name order. *)
Definition selectAllTables (db : Db) : Res (list string) :=
  Done (filter (fun t => negb (like "pg_%" t)) (tableNames db)).

(** *** The change cursor *)

(** The cells of column [c], NULLs left out. *)
Definition cells (c : string) (T : Table) : list JsValue :=
  filter (fun v => negb (is_nullish v)) (map (fun r => field r c) (rows T)).

(** The position of a value in the order of the cursor column. *)
Definition cursor (v : JsValue) : option Z := pg_cursor v.

Definition cursor_ltb (a b : JsValue) : bool :=
  match cursor a, cursor b with
  | Some x, Some y => x <? y
  | _, _ => false
  end.

(** [MAX]: the first cell that no later cell exceeds strictly. *)
Fixpoint maxCell (best : option JsValue) (l : list JsValue)
  : option JsValue :=
  match l with
  | [] => best
  | v :: r =>
      match best with
      | None => maxCell (Some v) r
      | Some b => maxCell (Some (if cursor_ltb b v then v else b)) r
      end
  end.

(** What [COALESCE(MAX(updateat), 0)] (for [bigint = true]) and
    [COALESCE(MAX(updateat), '1970-01-01'::timestamp)] give for a column
    of type [dataType] without a cell that is not NULL, as the driver
    hands it over: an int8 or a numeric comes as its decimal text, the
    other numbers as a number, a timestamp or a date as a Date.  [None]
    when the server refuses the expression, the two types having no
    common one. *)
Definition coalesceDefault (bigint : bool) (dataType : string)
  : option JsValue :=
  if bigint then
    if mem dataType ["bigint"; "numeric"] then Some (JStr "0")
    else if mem dataType ["smallint"; "integer"; "real"; "double precision"]
    then Some (num 0)
    else None
  else
    if mem dataType ["timestamp without time zone";
                     "timestamp with time zone"; "date"]
    then Some (JDate 0)
    else None.

(** [SELECT COALESCE(MAX(updateat), default) as last_sync FROM "t"],
    with the default of the bigint branch or of the timestamp branch. *)
Definition selectLastSync (t : string) (bigint : bool) (db : Db)
  : Res JsValue :=
  match lookupTable db t with
  | None => Fail (no_relation t)
  | Some T =>
      match findColumn T "updateat" with
      | None => Fail "column updateat does not exist"
      | Some col =>
          match coalesceDefault bigint (data_type col) with
          | None => Fail "COALESCE types cannot be matched"
          | Some default =>
              Done match maxCell None (cells "updateat" T) with
                   | Some v => v
                   | None => default
                   end
          end
      end
  end.

(** Stable insertion sort on the cursor, for [ORDER BY updateat]. *)
Fixpoint insertSorted (key : Row -> Z) (r : Row) (l : list Row)
  : list Row :=
  match l with
  | [] => [r]
  | x :: rest =>
      if key r <? key x then r :: l else x :: insertSorted key r rest
  end.

Fixpoint sortBy (key : Row -> Z) (l : list Row) : list Row :=
  match l with
  | [] => []
  | r :: rest => insertSorted key r (sortBy key rest)
  end.

Definition rowCursor (r : Row) : Z :=
  match cursor (field r "updateat") with Some z => z | None => 0 end.

Definition exceeds (wm : Z) (r : Row) : bool :=
  match cursor (field r "updateat") with
  | Some z => wm <? z
  | None => false
  end.

(** [SELECT * FROM "t" WHERE updateat > $1 ORDER BY updateat
    LIMIT 100], the parameter cast to the column's type. *)
Definition selectChanged (t : string) (lastSync : JsValue) (db : Db)
  : Res (list Row) :=
  match lookupTable db t with
  | None => Fail (no_relation t)
  | Some T =>
      if mem "updateat" (columnNames T) then
        match cursor lastSync with
        | Some wm =>
            Done (firstn 100 (sortBy rowCursor (filter (exceeds wm) (rows T))))
        | None => Fail "invalid input syntax for the cursor type"
        end
      else Fail "column updateat does not exist"
  end.

(** [SELECT DISTINCT table_name FROM information_schema.columns
    WHERE table_schema = 'public' AND table_name NOT LIKE 'pg_%' AND
    table_name NOT LIKE 'information_schema%' AND (column_name LIKE
    '%updated%' OR column_name LIKE '%modified%' OR column_name =
    'updateat' OR ...) AND data_type IN ('timestamp without time
    zone', 'timestamp with time zone', 'bigint') ORDER BY table_name] *)
Definition isChangeColumn (col : Column) : bool :=
  (like "%updated%" (column_name col)
   || like "%modified%" (column_name col)
   || mem (column_name col)
          ["updateat"; "updated_at"; "last_modified"; "last_updated"])
  && mem (data_type col)
         ["timestamp without time zone"; "timestamp with time zone";
          "bigint"].

Definition selectTablesWithTimestamp (db : Db) : Res (list string) :=
  Done (map fst
          (filter (fun tT =>
                     negb (like "pg_%" (fst tT))
                     && negb (like "information_schema%" (fst tT))
                     && existsb isChangeColumn (columns (snd tT)))
                  (tables db))).

(** *** DDL *)

(** A column of a synthesized [CREATE TABLE]: name, type text,
    NOT NULL, DEFAULT. *)
Record ColDef : Type := {
  cd_name : string;
  cd_type : string;
  cd_notnull : bool;
  cd_default : option string
}.

Definition renderColDef (d : ColDef) : string :=
  quoted (cd_name d) ++ " " ++ cd_type d
  ++ (if cd_notnull d then " NOT NULL" else "")
  ++ match cd_default d with
     | Some e => " DEFAULT " ++ e
     | None => ""
     end.

(** [CREATE TABLE "t" (defs)] as text. *)
Definition renderCreateTable (t : string) (defs : list ColDef) : string :=
  "CREATE TABLE " ++ quoted t ++ " (" ++ join ", " (map renderColDef defs)
  ++ ")".

(** *** Names and literals written into a statement as they are *)

(** The characters of a word: a letter, an underscore or a byte of a
    character beyond ASCII, and after the first one a digit or a
    dollar sign as well. *)
Definition identifier_char (first : bool) (c : ascii) : bool :=
  let n := nat_of_ascii c in
  (((97 <=? n) && (n <=? 122)) || ((65 <=? n) && (n <=? 90)) || (n =? 95)
   || (128 <=? n)
   || (negb first && (((48 <=? n) && (n <=? 57)) || (n =? 36))))%nat.

Fixpoint identifier_rest (s : string) : bool :=
  match s with
  | EmptyString => true
  | String c r => identifier_char false c && identifier_rest r
  end.

(** The name a text denotes where it stands without quotes: the word
    with its ASCII letters folded to lower case; [None] when the text
    is not one word of at most 63 bytes. *)
Definition unquoted (s : string) : option string :=
  match s with
  | String c r =>
      if identifier_char true c && identifier_rest r
         && (String.length s <=? 63)%nat
      then Some (toLowerCase s)
      else None
  | EmptyString => None
  end.

(** A text between apostrophes reads back as itself when it holds
    neither an apostrophe nor a backslash. *)
Definition backslash : string := String (ascii_of_nat 92) EmptyString.

Definition plain_literal (l : string) : bool :=
  negb (includes l "'") && negb (includes l backslash).

(** A type text names a built-in type or, as a word without quotes,
    an enumerated type of the database. *)
Definition resolveType (db : Db) (ty : string)
  : option (string * option string) :=
  match pg_builtin_type ty with
  | Some (dt, udt) => Some (dt, Some udt)
  | None =>
      match unquoted ty with
      | Some name =>
          if has_key name (enums db) then Some ("USER-DEFINED", Some name)
          else None
      | None => None
      end
  end.

Fixpoint buildColumns (db : Db) (defs : list ColDef)
  : Res (list Column) :=
  match defs with
  | [] => Done []
  | d :: rest =>
      match resolveType db (cd_type d) with
      | None => Fail ("type " ++ quoted (cd_type d) ++ " does not exist")
      | Some (dt, udt) =>
          match buildColumns db rest with
          | Fail e => Fail e
          | Done cols =>
              Done ({| column_name := cd_name d; data_type := dt;
                       udt_name := udt;
                       is_nullable := if cd_notnull d then "NO" else "YES";
                       character_maximum_length := None;
                       numeric_precision := None;
                       numeric_scale := None;
                       column_default := cd_default d |} :: cols)
          end
      end
  end.

(** Executing [CREATE TABLE "t" (defs)]; the row type of the table
    takes its name, which no other type may have. *)
Definition createTable (t : string) (defs : list ColDef) (db : Db)
  : Res Db :=
  if has_key t (tables db) then
    Fail ("relation " ++ quoted t ++ " already exists")
  else if has_key t (enums db) then
    Fail ("type " ++ quoted t ++ " already exists")
  else
    match buildColumns db defs with
    | Fail e => Fail e
    | Done cols =>
        Done (setTable db t {| columns := cols; pkey := []; rows := [] |})
    end.

Fixpoint distinct_keys (pk : list string) (rs : list Row) : bool :=
  match rs with
  | [] => true
  | r :: rest =>
      negb (existsb (same_key pk r) rest) && distinct_keys pk rest
  end.

(** [ALTER TABLE "t" ADD [CONSTRAINT "t_pkey"] PRIMARY KEY (cols)] *)
Definition addPrimaryKey (t : string) (cols : list string) (db : Db)
  : Res Db :=
  match lookupTable db t with
  | None => Fail (no_relation t)
  | Some T =>
      match pkey T, cols with
      | _ :: _, _ =>
          Fail "multiple primary keys for table are not allowed"
      | [], [] => Fail "syntax error at or near )"
      | [], _ =>
          if negb (forallb (fun c => mem c (columnNames T)) cols) then
            Fail "column named in key does not exist"
          else if negb (forallb
                          (fun r => forallb
                                      (fun c => negb (is_nullish (field r c)))
                                      cols)
                          (rows T)
                        && distinct_keys cols (rows T)) then
            Fail "could not create unique index"
          else
            Done (setTable db t
                    {| columns :=
                         map (fun col =>
                                if mem (column_name col) cols then
                                  {| column_name := column_name col;
                                     data_type := data_type col;
                                     udt_name := udt_name col;
                                     is_nullable := "NO";
                                     character_maximum_length :=
                                       character_maximum_length col;
                                     numeric_precision := numeric_precision col;
                                     numeric_scale := numeric_scale col;
                                     column_default := column_default col |}
                                else col) (columns T);
                       pkey := cols;
                       rows := rows T |})
      end
  end.

(** [DROP TABLE IF EXISTS "t" CASCADE] *)
Definition dropTableIfExists (t : string) (db : Db) : Res Db :=
  Done (dropTable db t).

(** [TRUNCATE TABLE "t" CASCADE] *)
Definition truncate (t : string) (db : Db) : Res Db :=
  match lookupTable db t with
  | None => Fail (no_relation t)
  | Some T =>
      Done (setTable db t
              {| columns := columns T; pkey := pkey T; rows := [] |})
  end.

(** [CREATE TYPE name AS ENUM (labels)]: refused when a type of that
    name exists, an enumerated type or the row type of a table. *)
Definition createEnum (name : string) (labels : list string) (db : Db)
  : Res Db :=
  if has_key name (enums db) || has_key name (tables db) then
    Fail ("type " ++ quoted name ++ " already exists")
  else
    Done {| tables := tables db;
            enums := enums db ++ [(name, labels)] |}.

(** [CREATE TYPE ${typeName} AS ENUM ('${label}', ...)], the name and
    the labels written into the text as they are. *)
Definition createEnumText (typeName : string) (labels : list string)
    (db : Db) : Res Db :=
  match unquoted typeName with
  | Some name =>
      if forallb plain_literal labels then
        if pg_reserved name
        then Fail ("syntax error at or near " ++ quoted typeName)
        else createEnum name labels db
      else pg_create_type_text typeName labels db
  | None => pg_create_type_text typeName labels db
  end.

End WithEngine.
End Sql.

Import Sql.

(** ** CdcService: change detection and the upsert engine *)

Module CdcService.
Section Service.
Context {rt : Runtime} {eng : Engine}.

Definition nonempty {A} (l : list A) : bool :=
  match l with [] => false | _ => true end.

(** checkTableExists (292-306) *)
Definition checkTableExists (r : Runner) (tableName : string) : M bool :=
  try_catch
    (readDb r (tableExists tableName))
    (fun e =>
       log LError ("Error checking if table " ++ tableName
                   ++ " exists: " ++ e) ;;
       ret false).

(** checkColumnExists (308-323) *)
Definition checkColumnExists (r : Runner) (tableName columnName : string)
  : M bool :=
  try_catch
    (readDb r (columnExists tableName columnName))
    (fun e =>
       log LError ("Error checking if column " ++ columnName
                   ++ " exists in table " ++ tableName ++ ": " ++ e) ;;
       ret false).

(** getColumnDataType (325-339): [result[0]?.data_type || 'unknown'] *)
Definition getColumnDataType (r : Runner) (tableName columnName : string)
  : M string :=
  try_catch
    (result <- readDb r (selectDataType tableName columnName) ;;
     ret match result with
         | d :: _ => if String.eqb d "" then "unknown" else d
         | [] => "unknown"
         end)
    (fun e =>
       log LError ("Error getting data type for column " ++ columnName
                   ++ " in table " ++ tableName ++ ": " ++ e) ;;
       ret "unknown").

(** getPrimaryKeyColumns (341-356) *)
Definition getPrimaryKeyColumns (r : Runner) (tableName : string)
  : M (list string) :=
  try_catch
    (readDb r (selectPkeyColumns tableName))
    (fun e =>
       log LError ("Error getting primary key columns for table "
                   ++ tableName ++ ": " ++ e) ;;
       ret []).

(** getTableSchema (534-548) *)
Definition getTableSchema (r : Runner) (tableName : string)
  : M (list Column) :=
  try_catch
    (readDb r (selectColumns tableName))
    (fun e =>
       log LError ("Failed to get schema for table " ++ tableName
                   ++ ": " ++ e) ;;
       ret []).

(** The [columnTypeMap] of processBatch: [set] for every schema row. *)
Definition columnTypeMap (tableSchema : list Column)
  : list (string * string) :=
  fold_left (fun m col => assoc_set (column_name col) (data_type col) m)
            tableSchema [].

(** The ON CONFLICT clause processBatch chooses (416-443). *)
Definition conflictClause (pkColumns validColumns : list string)
  : OnConflict :=
  if nonempty pkColumns then
    let conflictTarget := filter (fun c => mem c validColumns) pkColumns in
    if nonempty conflictTarget then
      let updateSet :=
        filter (fun c => negb (mem c pkColumns)) validColumns in
      if nonempty updateSet
      then OnTargetDoUpdate conflictTarget updateSet
      else OnTargetDoNothing conflictTarget
    else NoClause
  else DoNothing.

(** The values bound for one record (411-414). *)
Definition recordValues (m : list (string * string))
    (validColumns : list string) (record : Row) : Row :=
  map (fun col =>
         (col, processColumnValue (field record col)
                 match assoc col m with Some d => d | None => "" end))
      validColumns.

(** processBatch (385-452) *)
Definition processBatch (r : Runner) (tableName : string)
    (records : list Row) (tableSchema : list Column)
    (pkColumns : list string) : M unit :=
  let m := columnTypeMap tableSchema in
  match records with
  | [] => throw "Cannot convert undefined or null to object"
  | first :: _ =>
      let columns := map fst first in
      let validColumns := filter (fun col => has_key col m) columns in
      if negb (nonempty validColumns) then
        log LWarn ("No valid columns found for table " ++ tableName)
      else
        forM_ records (fun record =>
          try_catch
            (writeDb r
               (fun db =>
                  insertInto db tableName
                    (conflictClause pkColumns validColumns)
                    [recordValues m validColumns record]))
            (fun e =>
               log LError ("Failed to upsert record in " ++ tableName
                           ++ ": " ++ e)))
  end.

(** upsertRecords (358-383) *)
Definition upsertRecords (r : Runner) (tableName : string)
    (records : list Row) : M unit :=
  if negb (nonempty records) then ret tt
  else
    try_catch
      (tableSchema <- getTableSchema r tableName ;;
       if negb (nonempty tableSchema) then
         log LError ("Unable to get schema for table " ++ tableName)
       else
         pkColumns <- getPrimaryKeyColumns r tableName ;;
         forM_ (chunks 50 records) (fun batch =>
           processBatch r tableName batch tableSchema pkColumns))
      (fun e =>
         log LError ("Failed to upsert records to " ++ tableName
                     ++ ": " ++ e) ;;
         throw e).

(** The column list of createTableWithFallback (785-820). *)
Definition fallbackColumnDef (col : Column) : ColDef :=
  {| cd_name := column_name col;
     cd_type :=
       let t := data_type col in
       if String.eqb t "character varying" then
         "varchar("
         ++ string_of_Z match character_maximum_length col with
                        | Some n => if n =? 0 then 255 else n
                        | None => 255
                        end
         ++ ")"
       else if String.eqb t "text" then "text"
       else if String.eqb t "bigint" then "bigint"
       else if String.eqb t "integer" then "integer"
       else if String.eqb t "boolean" then "boolean"
       else if String.eqb t "timestamp without time zone" then "timestamp"
       else if String.eqb t "timestamp with time zone" then "timestamptz"
       else if String.eqb t "USER-DEFINED" then
         match udt_name col with Some u => u | None => "null" end
       else "text";
     cd_notnull := String.eqb (is_nullable col) "NO";
     cd_default := None |}.

(** createTableWithFallback (775-829) *)
Definition createTableWithFallback (primaryRunner backupRunner : Runner)
    (tableName : string) : M unit :=
  try_catch
    (columns <- readDb primaryRunner (selectColumns tableName) ;;
     let columnDefs := map fallbackColumnDef columns in
     writeDb backupRunner (createTable tableName columnDefs))
    (fun fallbackError =>
       log LError ("All table creation methods failed for " ++ tableName
                   ++ ": " ++ fallbackError) ;;
       throw fallbackError).

(** [SELECT DISTINCT udt_name FROM information_schema.columns WHERE
    ... table_name = $1 AND data_type = 'USER-DEFINED'] *)
Definition selectEnumTypes (t : string) (db : Db) : Res (list string) :=
  Done match lookupTable db t with
       | None => []
       | Some T =>
           fold_left
             (fun acc col =>
                if String.eqb (data_type col) "USER-DEFINED" then
                  match udt_name col with
                  | Some u => if mem u acc then acc else acc ++ [u]
                  | None => acc
                  end
                else acc)
             (columns T) []
       end.

(** [SELECT EXISTS (SELECT 1 FROM pg_type WHERE typname = $1 AND
    typtype = 'e')] *)
Definition enumExists (name : string) (db : Db) : Res bool :=
  Done (has_key name (enums db)).

(** [SELECT enumlabel FROM pg_enum e JOIN pg_type t ON ... WHERE
    t.typname = $1 ORDER BY e.enumsortorder] *)
Definition selectEnumLabels (name : string) (db : Db)
  : Res (list string) :=
  Done match assoc name (enums db) with
       | Some labels => labels
       | None => []
       end.

(** copyEnumTypes (731-773) *)
Definition copyEnumTypes (primaryRunner backupRunner : Runner)
    (tableName : string) : M unit :=
  try_catch
    (enumTypes <- readDb primaryRunner (selectEnumTypes tableName) ;;
     forM_ enumTypes (fun typeName =>
       typeExists <- readDb backupRunner (enumExists typeName) ;;
       if negb typeExists then
         enumValues <- readDb primaryRunner (selectEnumLabels typeName) ;;
         if nonempty enumValues
         then writeDb backupRunner (createEnumText typeName enumValues)
         else ret tt
       else ret tt))
    (fun e =>
       log LError ("Failed to copy enum types for " ++ tableName
                   ++ ": " ++ e) ;;
       throw e).

(** The CASE expression of the statement-building query (233-242). *)
Definition statementColumnDef (col : Column) : ColDef :=
  {| cd_name := column_name col;
     cd_type :=
       let t := data_type col in
       let text (o : option Z) (d : string) : string :=
         match o with Some n => string_of_Z n | None => d end in
       if String.eqb t "character varying" then
         "varchar(" ++ text (character_maximum_length col) "255" ++ ")"
       else if String.eqb t "character" then
         "char(" ++ text (character_maximum_length col) "1" ++ ")"
       else if String.eqb t "numeric" then
         "numeric(" ++ text (numeric_precision col) "10" ++ ","
         ++ text (numeric_scale col) "0" ++ ")"
       else if String.eqb t "timestamp without time zone" then "timestamp"
       else if String.eqb t "timestamp with time zone" then "timestamptz"
       else if String.eqb t "USER-DEFINED" then "text"
       else t;
     cd_notnull := String.eqb (is_nullable col) "NO";
     cd_default := None |}.

(** The statement-building query (228-248).  It names [table_name] in
    its select list and [ordinal_position] in its ORDER BY beside the
    aggregate [string_agg], and has no GROUP BY: the server refuses it
    when it analyses it (error 42803), whatever the table and before it
    reads a row.  Had it a result, it would be one row whose
    [create_statement] lists the columns as [statementColumnDef] writes
    them. *)
Definition selectCreateStatement (t : string) (db : Db)
  : Res (list (option (list ColDef))) :=
  Fail ("column " ++ quoted "columns.table_name"
        ++ " must appear in the GROUP BY clause or be used in an aggregate function").

(** [backupRunner.query(createTableQuery[0].create_statement)] *)
Definition runCreateStatement (backupRunner : Runner) (tableName : string)
    (statement : option (list ColDef)) : M unit :=
  match statement with
  | None => throw "A query must have either text or a name"
  | Some defs => writeDb backupRunner (createTable tableName defs)
  end.

(** handleMissingBackupTable (224-290) *)
Definition handleMissingBackupTable (primaryRunner backupRunner : Runner)
    (tableName : string) : M unit :=
  try_catch
    (createTableQuery <- readDb primaryRunner
                           (selectCreateStatement tableName) ;;
     match createTableQuery with
     | [] => ret tt
     | statement :: _ =>
         try_catch
           (runCreateStatement backupRunner tableName statement ;;
            pkConstraints <- readDb primaryRunner
                               (selectPkeyColumns tableName) ;;
            if nonempty pkConstraints
            then writeDb backupRunner (addPrimaryKey tableName pkConstraints)
            else ret tt)
           (fun createError =>
              log LError ("Failed to create table " ++ tableName
                          ++ " with generated SQL: " ++ createError) ;;
              if includes createError "does not exist"
                 && includes createError "type" then
                try_catch
                  (copyEnumTypes primaryRunner backupRunner tableName ;;
                   runCreateStatement backupRunner tableName statement)
                  (fun enumError =>
                     createTableWithFallback primaryRunner backupRunner
                       tableName)
              else
                createTableWithFallback primaryRunner backupRunner
                  tableName)
     end)
    (fun e =>
       log LError ("Failed to create backup table " ++ tableName
                   ++ ": " ++ e)).

(** Reading the watermark (161-170 and 179-187): [MAX(updateat)] of the
    target, [lastSyncResult[0].last_sync || default]. *)
Definition readLastSync (backupRunner : Runner)
    (tableName primaryUpdateAtType : string) : M JsValue :=
  if String.eqb primaryUpdateAtType "bigint" then
    last_sync <- try_catch
                   (readDb backupRunner (selectLastSync tableName true))
                   (fun _ => ret (num 0)) ;;
    ret (if Boolean last_sync then last_sync else num 0)
  else
    last_sync <- try_catch
                   (readDb backupRunner (selectLastSync tableName false))
                   (fun _ => ret (JStr "1970-01-01")) ;;
    ret (if Boolean last_sync then last_sync else JStr "1970-01-01").

(** Pulling the changed records (172-177, 189-201). *)
Definition pullChanges (primaryRunner : Runner) (tableName : string)
    (lastSync : JsValue) : M (list Row) :=
  try_catch
    (readDb primaryRunner (selectChanged tableName lastSync))
    (fun e =>
       log LError ("Failed to query changed records from "
                   ++ tableName ++ ": " ++ e) ;;
       ret []).

(** The data step of syncTableChanges (159-211). *)
Definition syncData (primaryRunner backupRunner : Runner)
    (tableName primaryUpdateAtType : string) : M unit :=
  try_catch
    (lastSync <- readLastSync backupRunner tableName primaryUpdateAtType ;;
     changedRecords <- pullChanges primaryRunner tableName lastSync ;;
     if nonempty changedRecords then
       upsertRecords backupRunner tableName changedRecords ;;
       log LLog ("CDC synced "
                 ++ string_of_Z (Z.of_nat (length changedRecords))
                 ++ " records for " ++ tableName)
     else ret tt)
    (fun e =>
       log LError ("Error during data synchronization for " ++ tableName
                   ++ ": " ++ e) ;;
       throw e).

(** The try block of syncTableChanges with its catch (122-217). *)
Definition syncTableChangesTry (primaryRunner backupRunner : Runner)
    (tableName : string) : M unit :=
    (try_catch
       (connect primaryRunner ;;
        connect backupRunner ;;
        primaryExists <- checkTableExists primaryRunner tableName ;;
        if negb primaryExists then
          log LDebug ("Table " ++ tableName
                      ++ " does not exist in primary database, skipping sync")
        else
          backupExists <- checkTableExists backupRunner tableName ;;
          if negb backupExists then
            handleMissingBackupTable primaryRunner backupRunner tableName
          else
            hasUpdateAt <- checkColumnExists primaryRunner tableName
                             "updateat" ;;
            if negb hasUpdateAt then ret tt
            else
              backupHasUpdateAt <- checkColumnExists backupRunner tableName
                                     "updateat" ;;
              if negb backupHasUpdateAt then ret tt
              else
                primaryUpdateAtType <- getColumnDataType primaryRunner
                                         tableName "updateat" ;;
                backupUpdateAtType <- getColumnDataType backupRunner
                                        tableName "updateat" ;;
                syncData primaryRunner backupRunner tableName
                  primaryUpdateAtType)
       (fun e =>
          log LError ("Failed to sync changes for table " ++ tableName
                      ++ ": " ++ e))).

(** syncTableChanges (118-222) *)
Definition syncTableChanges (tableName : string) : M unit :=
  primaryRunner <- createQueryRunner Primary ;;
  backupRunner <- createQueryRunner Backup ;;
  try_finally
    (syncTableChangesTry primaryRunner backupRunner tableName)
    (release primaryRunner ;; release backupRunner).

(** getTablesWithTimestamp (82-116) *)
Definition getTablesWithTimestamp : M (list string) :=
  queryRunner <- createQueryRunner Primary ;;
  try_finally
    (try_catch
       (connect queryRunner ;;
        readDb queryRunner selectTablesWithTimestamp)
       (fun e =>
          log LError ("Error getting tables with timestamp columns: " ++ e) ;;
          ret []))
    (release queryRunner).

(** detectAndSyncChanges (53-80), one change-detection cycle.  The
    tables of a group of three are synchronized one after the
    other here; each of them works on its own table and runners. *)
Definition detectAndSyncChanges : M unit :=
  try_catch
    (tables <- getTablesWithTimestamp ;;
     if negb (nonempty tables) then ret tt
     else
       forM_ (chunks 3 tables) (fun batch =>
         forM_ batch (fun table =>
           try_catch
             (syncTableChanges table)
             (fun e =>
                log LError ("Failed to sync table " ++ table ++ ": " ++ e)))))
    (fun e =>
       log LError ("Error in detectAndSyncChanges: " ++ e) ;;
       throw e).

Record SyncResult : Type := {
  success : bool;
  message : string;
  recordsProcessed : Z
}.

(** The inner try block of forceSyncTable (691-718). *)
Definition forceSyncTableTry (primaryRunner backupRunner : Runner)
    (tableName : string) : M SyncResult :=
       (connect primaryRunner ;;
        connect backupRunner ;;
        primaryExists <- checkTableExists primaryRunner tableName ;;
        backupExists <- checkTableExists backupRunner tableName ;;
        if negb primaryExists then
          ret {| success := false;
                 message := "Table " ++ tableName
                            ++ " does not exist in primary database";
                 recordsProcessed := 0 |}
        else if negb backupExists then
          ret {| success := false;
                 message := "Table " ++ tableName
                            ++ " does not exist in backup database";
                 recordsProcessed := 0 |}
        else
          allRecords <- readDb primaryRunner
                          (selectAll tableName (Some 1000%nat)) ;;
          if nonempty allRecords then
            upsertRecords backupRunner tableName allRecords ;;
            ret {| success := true;
                   message := "Successfully force synced "
                              ++ string_of_Z (Z.of_nat (length allRecords))
                              ++ " records";
                   recordsProcessed := Z.of_nat (length allRecords) |}
          else
            ret {| success := true;
                   message := "No records to sync";
                   recordsProcessed := 0 |}).

(** The outer try block of forceSyncTable (686-723). *)
Definition forceSyncTableBody (tableName : string) : M SyncResult :=
  primaryRunner <- createQueryRunner Primary ;;
  backupRunner <- createQueryRunner Backup ;;
  try_finally
    (forceSyncTableTry primaryRunner backupRunner tableName)
    (release primaryRunner ;; release backupRunner).

(** forceSyncTable (684-729) *)
Definition forceSyncTable (tableName : string) : M SyncResult :=
  try_catch
    (forceSyncTableBody tableName)
    (fun e =>
       log LError ("Force sync failed for table " ++ tableName ++ ": " ++ e) ;;
       ret {| success := false; message := e; recordsProcessed := 0 |}).

(** sanitizeRecordForLogging (513-532): [{ ...record }], then the four
    sensitive fields, then the string lengths, key by key. *)
Definition redactField (sanitized : Row) (field_ : string) : Row :=
  if Boolean (field sanitized field_)
  then assoc_set field_ (JStr "[REDACTED]") sanitized
  else sanitized.

Definition limitField (limit : nat) (sanitized : Row) (key : string) : Row :=
  match field sanitized key with
  | JStr s =>
      if (limit <? length16 s)%nat
      then assoc_set key (JStr (substring16 limit s ++ "...")) sanitized
      else sanitized
  | _ => sanitized
  end.

Definition sanitizeRecordForLogging (record : Row) : Row :=
  let sensitiveFields := ["password"; "token"; "secret"; "key"] in
  let sanitized := fold_left redactField sensitiveFields record in
  fold_left (limitField 100) (map fst sanitized) sanitized.

(** monitorChanges (29-38); [isMonitoring] is the field of the service
    that startChangeMonitoring sets and stopChangeMonitoring clears. *)
Definition monitorChanges (isMonitoring : bool) : M unit :=
  if negb isMonitoring then ret tt
  else
    try_catch
      detectAndSyncChanges
      (fun e => log LError ("Error monitoring changes: " ++ e)).

Record DatabaseStatus : Type := {
  db_connected : bool;
  db_error : option string
}.

(** The object getHealthStatus returns, without its [timestamp] (the
    reading of the clock). *)
Record HealthReport : Type := {
  isMonitoring : bool;
  databases : list (string * DatabaseStatus);
  monitored : list string;
  errors : list string
}.

Definition setDatabase (status : HealthReport) (name : string)
    (d : DatabaseStatus) : HealthReport :=
  {| isMonitoring := isMonitoring status;
     databases := assoc_set name d (databases status);
     monitored := monitored status;
     errors := errors status |}.

Definition pushError (status : HealthReport) (e : string) : HealthReport :=
  {| isMonitoring := isMonitoring status;
     databases := databases status;
     monitored := monitored status;
     errors := errors status ++ [e] |}.

(** [status.databases[name]?.connected] *)
Definition isConnected (status : HealthReport) (name : string) : bool :=
  match assoc name (databases status) with
  | Some d => db_connected d
  | None => false
  end.

(** getHealthStatus (640-682).  [monitored] is the field [tables] of the
    source.  The one outer catch adds its message to the status as it
    stands when the exception is thrown; it is written at each of the
    three places where the status has changed. *)
Definition getHealthStatus (monitoring : bool) : M HealthReport :=
  let status := {| isMonitoring := monitoring; databases := [];
                   monitored := []; errors := [] |} in
  let failed (status : HealthReport) (e : string) : M HealthReport :=
    ret (pushError status ("Health check failed: " ++ e)) in
  try_catch
    (primaryRunner <- createQueryRunner Primary ;;
     status <- try_catch
                 (connect primaryRunner ;;
                  release primaryRunner ;;
                  ret (setDatabase status "primary"
                         {| db_connected := true; db_error := None |}))
                 (fun e =>
                    ret (pushError
                           (setDatabase status "primary"
                              {| db_connected := false; db_error := Some e |})
                           ("Primary database connection failed: " ++ e))) ;;
     try_catch
       (backupRunner <- createQueryRunner Backup ;;
        status <- try_catch
                    (connect backupRunner ;;
                     release backupRunner ;;
                     ret (setDatabase status "backup"
                            {| db_connected := true; db_error := None |}))
                    (fun e =>
                       ret (pushError
                              (setDatabase status "backup"
                                 {| db_connected := false;
                                    db_error := Some e |})
                              ("Backup database connection failed: " ++ e))) ;;
        try_catch
          (if isConnected status "primary" then
             tables <- getTablesWithTimestamp ;;
             ret {| isMonitoring := isMonitoring status;
                    databases := databases status;
                    monitored := tables;
                    errors := errors status |}
           else ret status)
          (failed status))
       (failed status))
    (failed status).

End Service.
End CdcService.

(** ** BackupService: full reconciliation *)

Module BackupService.
Section Service.
Context {rt : Runtime} {eng : Engine}.

Definition nonempty {A} (l : list A) : bool :=
  match l with [] => false | _ => true end.

(** mapSimpleType (303-320) *)
Definition mapSimpleType (dataType : string) : string :=
  let t := toLowerCase dataType in
  if mem t ["bigint"; "integer"; "smallint"; "boolean"; "text"; "uuid";
            "bytea"; "real"; "double precision"; "money"; "inet"; "cidr";
            "macaddr"]
  then t
  else "text".

(** A number used as a condition: null and 0 are falsy. *)
Definition truthy (o : option Z) : option Z :=
  match o with
  | Some n => if n =? 0 then None else Some n
  | None => None
  end.

(** mapPostgreSQLDataType (248-301) *)
Definition mapPostgreSQLDataType (col : Column) : string :=
  let dataType := toLowerCase (data_type col) in
  let udtName := option_map toLowerCase (udt_name col) in
  if String.eqb dataType "user-defined" then
    match udtName with
    | Some (String _ _) => "text"
    | _ => "text"
    end
  else if String.eqb dataType "array" then
    match udtName with
    | Some (String c baseType) =>
        if Ascii.eqb c "_" then mapSimpleType baseType ++ "[]"
        else "text[]"
    | _ => "text[]"
    end
  else if String.eqb dataType "character varying" then
    match truthy (character_maximum_length col) with
    | Some n => "varchar(" ++ string_of_Z n ++ ")"
    | None => "varchar"
    end
  else if String.eqb dataType "character" then
    match truthy (character_maximum_length col) with
    | Some n => "char(" ++ string_of_Z n ++ ")"
    | None => "char"
    end
  else if String.eqb dataType "numeric" || String.eqb dataType "decimal" then
    match truthy (numeric_precision col), numeric_scale col with
    | Some p, Some s =>
        "numeric(" ++ string_of_Z p ++ "," ++ string_of_Z s ++ ")"
    | _, _ => "numeric"
    end
  else if String.eqb dataType "timestamp without time zone" then "timestamp"
  else if String.eqb dataType "timestamp with time zone" then "timestamptz"
  else if String.eqb dataType "time without time zone" then "time"
  else if String.eqb dataType "time with time zone" then "timetz"
  else
    match udtName with
    | Some u =>
        if String.eqb u "jsonb" then "jsonb"
        else if String.eqb u "json" then "json"
        else mapSimpleType dataType
    | None => mapSimpleType dataType
    end.

(** The column definition built by createTableFallback (210-227). *)
Definition fallbackColumn (col : Column) : ColDef :=
  {| cd_name := column_name col;
     cd_type := mapPostgreSQLDataType col;
     cd_notnull := String.eqb (is_nullable col) "NO";
     cd_default :=
       match column_default col with
       | Some d =>
           if negb (String.eqb d "") && negb (includes d "nextval")
              && negb (includes d "::")
           then Some d else None
       | None => None
       end |}.

(** getAllTables (92-107) *)
Definition getAllTables : M (list string) :=
  queryRunner <- createQueryRunner Primary ;;
  try_finally
    (connect queryRunner ;;
     readDb queryRunner selectAllTables)
    (release queryRunner).

(** checkTableExists (109-118) *)
Definition checkTableExists (r : Runner) (tableName : string) : M bool :=
  readDb r (tableExists tableName).

(** copyPrimaryKeyConstraint (322-349) *)
Definition copyPrimaryKeyConstraint (primaryRunner backupRunner : Runner)
    (tableName : string) : M unit :=
  try_catch
    (pkInfo <- readDb primaryRunner (selectPkeyColumns tableName) ;;
     if nonempty pkInfo then
       writeDb backupRunner (addPrimaryKey tableName pkInfo) ;;
       log LDebug ("Added primary key constraint for " ++ tableName)
     else ret tt)
    (fun e =>
       log LDebug ("Could not add primary key constraint for "
                   ++ tableName ++ ": " ++ e)).

(** createTableFallback (187-246) *)
Definition createTableFallback (primaryRunner backupRunner : Runner)
    (tableName : string) : M unit :=
  try_catch
    (tableStructure <- readDb primaryRunner (selectColumns tableName) ;;
     if negb (nonempty tableStructure) then
       throw ("No columns found for table " ++ tableName)
     else
       let columns := map fallbackColumn tableStructure in
       log LDebug ("Creating table with SQL: "
                   ++ renderCreateTable tableName columns) ;;
       writeDb backupRunner (createTable tableName columns) ;;
       try_catch
         (copyPrimaryKeyConstraint primaryRunner backupRunner tableName)
         (fun e =>
            log LWarn ("Could not copy primary key for " ++ tableName
                       ++ ": " ++ e)))
    (fun e =>
       log LError ("Failed to create table " ++ tableName ++ ": " ++ e) ;;
       throw e).

(** The [pg_dump --schema-only -t "t"] child process (147-150): one
    round trip to the primary, which fails when the table is not
    there, and the definition of the table as its output. *)
Definition pgDump (tableName : string) : M Table :=
  roundtrip ;;
  fun w =>
    match lookupTable (primary w) tableName with
    | Some T => (Ok T, w)
    | None => (Throw "pg_dump: error: no matching tables were found", w)
    end.

(** Replaying the cleaned dump (153-170) on the backup: the table is
    created with the columns and the key of the original, without
    rows, provided no table and no type of its name is there yet (the
    row type of a table shares the name space of the types) and every
    enumerated type it uses is. *)
Definition replayDump (tableName : string) (T : Table) (db : Db) : Res Db :=
  if has_key tableName (tables db) then
    Fail ("relation " ++ quoted tableName ++ " already exists")
  else if has_key tableName (enums db) then
    Fail ("type " ++ quoted tableName ++ " already exists")
  else
    match find (fun col =>
                  String.eqb (data_type col) "USER-DEFINED"
                  && negb match udt_name col with
                          | Some u => has_key u (enums db)
                          | None => false
                          end) (columns T) with
    | Some col =>
        Fail ("type "
              ++ quoted match udt_name col with Some u => u | None => "" end
              ++ " does not exist")
    | None =>
        Done (setTable db tableName
                {| columns := columns T; pkey := pkey T; rows := [] |})
    end.

(** createTableInBackup (120-185).  The dump of a table of the
    catalog always holds a CREATE TABLE statement, so the branch for
    a dump without one is not represented. *)
Definition createTableInBackup (primaryRunner backupRunner : Runner)
    (tableName : string) : M unit :=
  try_catch
    (try_catch
       (writeDb backupRunner (dropTableIfExists tableName))
       (fun dropError =>
          log LWarn ("Could not drop table " ++ tableName
                     ++ ", probably doesn't exist: " ++ dropError)) ;;
     try_catch
       (dump <- pgDump tableName ;;
        writeDb backupRunner (replayDump tableName dump) ;;
        log LDebug ("Successfully created table structure for "
                    ++ tableName))
       (fun pgDumpError =>
          log LWarn ("pg_dump failed for " ++ tableName
                     ++ ", using fallback method: " ++ pgDumpError) ;;
          createTableFallback primaryRunner backupRunner tableName))
    (fun e =>
       log LError ("Failed to create table " ++ tableName ++ ": " ++ e) ;;
       throw e).

(** getColumnTypes (418-436) *)
Definition getColumnTypes (r : Runner) (tableName : string)
  : M PlainObject :=
  try_catch
    (result <- readDb r (selectColumns tableName) ;;
     ret (fold_left
            (fun columnTypes row =>
               object_set (column_name row)
                 (if String.eqb (data_type row) "USER-DEFINED"
                  then udt_name row
                  else Some (data_type row))
                 columnTypes)
            result empty_object))
    (fun e =>
       log LWarn ("Failed to get column types for " ++ tableName
                  ++ ": " ++ e) ;;
       ret empty_object).

(** [this.processValueForInsertion(row[col], columnTypes[col])] (405,
    507).  For a column [columnTypes] has no entry for and whose name
    is that of a member of Object.prototype, the type handed over is
    not a string, and [dataType?.toLowerCase()] (444) is a TypeError,
    unless the value is null or undefined (439-441). *)
Definition valueForInsertion (columnTypes : PlainObject) (row : Row)
    (col : string) : Res JsValue :=
  let value := field row col in
  match object_get col columnTypes with
  | Own dataType => Done (processValueForInsertion value dataType)
  | Missing => Done (processValueForInsertion value None)
  | Inherited =>
      if is_nullish value then Done JNull
      else Fail "dataType?.toLowerCase is not a function"
  end.

(** The values bound for one row (404-406, 507):
    [columns.map(col => ...)], which stops at the first exception. *)
Fixpoint rowValues (columnTypes : PlainObject) (columns : list string)
    (row : Row) : Res Row :=
  match columns with
  | [] => Done []
  | col :: rest =>
      match valueForInsertion columnTypes row col with
      | Fail e => Fail e
      | Done v =>
          match rowValues columnTypes rest row with
          | Fail e => Fail e
          | Done values => Done ((col, v) :: values)
          end
      end
  end.

(** The values bound for a batch (404-406): [batch.flatMap(row => ...)]. *)
Fixpoint batchValues (columnTypes : PlainObject) (columns : list string)
    (batch : list Row) : Res (list Row) :=
  match batch with
  | [] => Done []
  | row :: rest =>
      match rowValues columnTypes columns row with
      | Fail e => Fail e
      | Done values =>
          match batchValues columnTypes columns rest with
          | Fail e => Fail e
          | Done more => Done (values :: more)
          end
      end
  end.

(** insertRowsIndividually (500-516); the values of a row are computed
    inside its try block. *)
Definition insertRowsIndividually (r : Runner) (tableName : string)
    (rows : list Row) (columns : list string)
    (columnTypes : PlainObject) : M unit :=
  forM_ rows (fun row =>
    try_catch
      (match rowValues columnTypes columns row with
       | Fail e => throw e
       | Done values =>
           writeDb r (fun db => insertInto db tableName DoNothing [values])
       end)
      (fun e =>
         log LError ("Failed to insert row in " ++ tableName ++ ": " ++ e))).

(** insertDataInBatches (383-416), with the default batch size; the
    values of a batch are computed before its try block. *)
Definition insertDataInBatches (r : Runner) (tableName : string)
    (data : list Row) : M unit :=
  match data with
  | [] => ret tt
  | first :: _ =>
      let columns := map fst first in
      columnTypes <- getColumnTypes r tableName ;;
      forM_ (chunks 1000 data) (fun batch =>
        match batchValues columnTypes columns batch with
        | Fail e => throw e
        | Done values =>
            try_catch
              (writeDb r
                 (fun db => insertInto db tableName DoNothing values))
              (fun e =>
                 log LWarn ("Batch insert failed for " ++ tableName
                            ++ ", falling back to individual inserts: " ++ e) ;;
                 insertRowsIndividually r tableName batch columns columnTypes)
        end)
  end.

(** The try block of backupTable (61-85). *)
Definition backupTableTry (queryRunnerPrimary queryRunnerBackup : Runner)
    (tableName : string) (forceRecreate : bool) : M unit :=
    (connect queryRunnerPrimary ;;
     connect queryRunnerBackup ;;
     tableExists <- checkTableExists queryRunnerBackup tableName ;;
     (if negb tableExists || forceRecreate then
        createTableInBackup queryRunnerPrimary queryRunnerBackup tableName
      else ret tt) ;;
     data <- readDb queryRunnerPrimary (selectAll tableName None) ;;
     if nonempty data then
       (if forceRecreate
        then writeDb queryRunnerBackup (truncate tableName)
        else ret tt) ;;
       insertDataInBatches queryRunnerBackup tableName data
     else ret tt).

(** backupTable (57-90) *)
Definition backupTable (tableName : string) (forceRecreate : bool)
  : M unit :=
  queryRunnerPrimary <- createQueryRunner Primary ;;
  queryRunnerBackup <- createQueryRunner Backup ;;
  try_finally
    (backupTableTry queryRunnerPrimary queryRunnerBackup tableName
       forceRecreate)
    (release queryRunnerPrimary ;; release queryRunnerBackup).

(** performFullBackup (43-55) *)
Definition performFullBackup (forceRecreate : bool) : M unit :=
  tables <- getAllTables ;;
  forM_ tables (fun table =>
    try_catch
      (backupTable table forceRecreate ;;
       log LDebug ("Successfully backed up table: " ++ table))
      (fun e =>
         log LError ("Failed to backup table " ++ table ++ ": " ++ e))).

Record Status : Type := {
  total_tables : Z;
  backed_up_tables : Z;
  missing_tables : list string;
  table_stats : list (string * Z)
}.

(** The loop of getBackupStatus (551-563). *)
Fixpoint statusLoop (queryRunner : Runner) (tables : list string)
    (status : Status) : M Status :=
  match tables with
  | [] => ret status
  | table :: rest =>
      exists_ <- checkTableExists queryRunner table ;;
      if exists_ then
        count <- readDb queryRunner (selectCount table) ;;
        statusLoop queryRunner rest
          {| total_tables := total_tables status;
             backed_up_tables := backed_up_tables status + 1;
             missing_tables := missing_tables status;
             table_stats := table_stats status ++ [(table, count)] |}
      else
        statusLoop queryRunner rest
          {| total_tables := total_tables status;
             backed_up_tables := backed_up_tables status;
             missing_tables := missing_tables status ++ [table];
             table_stats := table_stats status |}
  end.

(** getBackupStatus (537-571) *)
Definition getBackupStatus : M Status :=
  try_catch
    (primaryTables <- getAllTables ;;
     queryRunner <- createQueryRunner Backup ;;
     connect queryRunner ;;
     status <- statusLoop queryRunner primaryTables
                 {| total_tables := Z.of_nat (length primaryTables);
                    backed_up_tables := 0;
                    missing_tables := [];
                    table_stats := [] |} ;;
     release queryRunner ;;
     ret status)
    (fun e =>
       log LError ("Failed to get backup status: " ++ e) ;;
       throw e).

(** sanitizeRowForLogging (518-530): [{ ...row }], then key by key. *)
Definition sanitizeKey (sanitized : Row) (key : string) : Row :=
  let sanitized :=
    match field sanitized key with
    | JStr s =>
        if (200 <? length16 s)%nat
        then assoc_set key (JStr (substring16 200 s ++ "...")) sanitized
        else sanitized
    | _ => sanitized
    end in
  if includes (toLowerCase key) "password"
     || includes (toLowerCase key) "secret"
  then assoc_set key (JStr "[REDACTED]") sanitized
  else sanitized.

Definition sanitizeRowForLogging (row : Row) : Row :=
  fold_left sanitizeKey (map fst row) row.

(** cleanupOldBackups (532-535) *)
Definition cleanupOldBackups : M unit :=
  log LLog "Cleanup old backups completed".

(** performScheduledBackup (22-30) *)
Definition performScheduledBackup : M unit :=
  try_catch
    (performFullBackup false ;;
     log LLog "Hourly backup completed successfully")
    (fun e => log LError ("Scheduled backup failed: " ++ e)).

(** performDailyFullBackup (32-41) *)
Definition performDailyFullBackup : M unit :=
  try_catch
    (performFullBackup true ;;
     cleanupOldBackups ;;
     log LLog "Daily full backup completed successfully")
    (fun e => log LError ("Daily full backup failed: " ++ e)).

End Service.
End BackupService.

(** ** BackupController *)

Module BackupController.
Section Controller.
Context {rt : Runtime} {eng : Engine}.

(** What the endpoints answer, without the [timestamp] (the reading of
    the clock). *)
Record Answer (A : Type) : Type := {
  success : bool;
  message : option string;
  data : option A
}.
Arguments success {A} _.
Arguments message {A} _.
Arguments data {A} _.

(** triggerManualBackup (12-37): [table] and [force] are the query
    parameters, absent or a string. *)
Definition triggerManualBackup (table force : option string)
  : M (Answer unit) :=
  let forced := match force with
                | Some f => String.eqb f "true"
                | None => false
                end in
  try_catch
    (match table with
     | Some (String c r) =>
         let table := String c r in
         BackupService.backupTable table forced ;;
         ret {| success := true;
                message := Some ("Backup completed for table: " ++ table)%string;
                data := None |}
     | _ =>
         BackupService.performFullBackup forced ;;
         ret {| success := true;
                message := Some "Full backup completed successfully";
                data := None |}
     end)
    (fun e =>
       log LError ("Manual backup failed: " ++ e) ;;
       ret {| success := false; message := Some e; data := None |}).

(** getBackupStatus (39-55) *)
Definition getBackupStatus : M (Answer BackupService.Status) :=
  try_catch
    (status <- BackupService.getBackupStatus ;;
     ret {| success := true; message := None; data := Some status |})
    (fun e =>
       log LError ("Failed to get backup status: " ++ e) ;;
       ret {| success := false; message := Some e; data := None |}).

End Controller.
End BackupController.

(** ** MonitoringService and MonitoringController *)

Module Monitoring.

Inductive HealthStatus : Type := healthy | warning | error.

Record TableStatus : Type := {
  tableName : string;
  lastBackup : option Z;
  rowCount : Z;
  status : string
}.

Record BackupMetrics : Type := {
  totalTables : Z;
  backedUpTables : Z;
  lastBackupTime : option Z;
  healthStatus : HealthStatus;
  errors : list string;
  tableStatus : list TableStatus
}.

(** What collectMetrics awaits, by outcome: the probe of both
    connections ([Some msg] when a [SELECT 1] throws), the list of
    primary tables (the query may throw), and the three reads that
    catch their own errors: the count of backup tables, the status
    ledger and the time of the last successful backup.  Times are
    milliseconds since the epoch; [now] is [Date.now()]. *)
Record Readings : Type := {
  connections : option string;
  primaryTables : Res (list string);
  backupTables : Z;
  backupStatus : list TableStatus;
  lastBackup_ : option Z;
  now : Z
}.

Definition show (o : option Z) : string :=
  match o with Some z => string_of_Z z | None => "NaN" end.

(** The catch branch of collectMetrics (104-113). *)
Definition failed (message : string) : BackupMetrics :=
  {| totalTables := 0;
     backedUpTables := 0;
     lastBackupTime := None;
     healthStatus := error;
     errors := [("Failed to collect metrics: " ++ message)%string];
     tableStatus := [] |}.

(** [primaryTables.length > 0 ? backupTables / primaryTables.length : 1] *)
Definition coverage (primaryCount backupTables : Z) : number :=
  if 0 <? primaryCount
  then fdiv (of_Z backupTables) (of_Z primaryCount)
  else of_Z 1.

Definition nine_tenths : number := fdiv (of_Z 9) (of_Z 10).

(** [(Date.now() - lastBackupTime.getTime()) / (1000 * 60 * 60)] *)
Definition hoursSince (now last : Z) : number :=
  fdiv (of_Z (now - last)) (of_Z (1000 * 60 * 60)).

(** The coverage check (78-84): the errors and the status after it. *)
Definition coverageCheck (primaryCount backupTables : Z)
  : list string * HealthStatus :=
  let coverage := coverage primaryCount backupTables in
  if fltb coverage nine_tenths then
    let missingTables := primaryCount - backupTables in
    ([(string_of_Z missingTables ++ " tables are not backed up ("
       ++ show (Math_round (fmul coverage (of_Z 100))) ++ "% coverage)")%string],
     warning)
  else ([], healthy).

(** The staleness check (86-96), continuing from the errors and the
    status so far. *)
Definition stalenessCheck (now : Z) (lastBackupTime : option Z)
    (sofar : list string * HealthStatus) : list string * HealthStatus :=
  let '(errors, healthStatus) := sofar in
  match lastBackupTime with
  | Some last =>
      let hoursSinceLastBackup := hoursSince now last in
      if fgtb hoursSinceLastBackup (of_Z 24) then
        (errors ++ [("Last backup was "
                     ++ show (Math_floor hoursSinceLastBackup)
                     ++ " hours ago")%string],
         error)
      else if fgtb hoursSinceLastBackup (of_Z 6) then
        (errors ++ [("Last backup was "
                     ++ show (Math_floor hoursSinceLastBackup)
                     ++ " hours ago")%string],
         match healthStatus with healthy => warning | s => s end)
      else (errors, healthStatus)
  | None => (errors, healthStatus)
  end.

(** collectMetrics (52-114) *)
Definition collectMetrics (x : Readings) : BackupMetrics :=
  match connections x with
  | Some e => failed e
  | None =>
      match primaryTables x with
      | Fail e => failed e
      | Done tables =>
          let n := Z.of_nat (length tables) in
          let '(errors, healthStatus) :=
            stalenessCheck (now x) (lastBackup_ x)
              (coverageCheck n (backupTables x)) in
          {| totalTables := n;
             backedUpTables := backupTables x;
             lastBackupTime := lastBackup_ x;
             healthStatus := healthStatus;
             errors := errors;
             tableStatus := backupStatus x |}
      end
  end.

(** The [coverage_percentage] of MonitoringController.getMetrics
    (57-58); [None] would be a result that is not a finite number. *)
Definition coverage_percentage (metrics : BackupMetrics) : option Z :=
  if 0 <? totalTables metrics then
    Math_round (fmul (fdiv (of_Z (backedUpTables metrics))
                           (of_Z (totalTables metrics)))
                     (of_Z 100))
  else Some 0.

(** Severity order of the three verdicts. *)
Definition severity (s : HealthStatus) : nat :=
  match s with healthy => 0 | warning => 1 | error => 2 end.

Definition worst (a b : HealthStatus) : HealthStatus :=
  if (severity a <? severity b)%nat then b else a.

(** The level the age of the last backup triggers, on its own. *)
Definition staleness (now : Z) (lastBackupTime : option Z) : HealthStatus :=
  match lastBackupTime with
  | Some last =>
      if fgtb (hoursSince now last) (of_Z 24) then error
      else if fgtb (hoursSince now last) (of_Z 6) then warning
      else healthy
  | None => healthy
  end.

End Monitoring.

(** ** A runtime and an engine to run examples on

    The examples use integer, text, boolean and timestamp columns that
    hold numbers, plain strings, booleans and dates.  The engine refuses
    NaN and non-numeric values for the integer types, and reads a
    decimal text as the position of a bigint cursor. *)

Module Sample.

#[export] Instance runtime : Runtime := {|
  parseFloat := fun s => parseInt s;
  Date_parse := fun _ => None;
  JSON_parses := fun _ => false;
  JSON_stringify := fun v =>
    match v with JObject _ j => j | _ => "null" end;
  number_toString := fun x =>
    match Math_floor x with Some z => string_of_Z z | None => "NaN" end;
  date_toString := fun ms => string_of_Z ms;
  object_toString := fun _ j => j;
  object_toNumber := fun _ _ => NaN
|}.

Definition integral (x : number) : option Z :=
  match Math_floor x with
  | Some z => if number_eqb (of_Z z) x then Some z else None
  | None => None
  end.

#[export] Instance engine : Engine := {|
  pg_value_ok := fun ty v =>
    if mem ty ["integer"; "bigint"; "smallint"] then
      match v with
      | JNum x => match integral x with Some _ => true | None => false end
      | _ => false
      end
    else true;
  pg_builtin_type := fun ty =>
    if String.eqb ty "text" then Some ("text", "text")
    else if String.eqb ty "integer" then Some ("integer", "int4")
    else if String.eqb ty "bigint" then Some ("bigint", "int8")
    else if String.eqb ty "boolean" then Some ("boolean", "bool")
    else if String.eqb ty "timestamp"
    then Some ("timestamp without time zone", "timestamp")
    else None;
  pg_cursor := fun v =>
    match v with
    | JNum x => integral x
    | JDate ms => Some ms
    | JStr s => option_map Z.of_int (NilZero.int_of_string s)
    | _ => None
    end;
  pg_reserved := fun s => mem s ["user"; "order"; "group"; "table"; "end"];
  pg_create_type_text := fun _ _ _ => Fail "syntax error"
|}.

(** Sample data: a table [accounts] whose change column is named
    [stamp], with three rows. *)
Definition column (name type udt : string) (nullable : bool) : Column :=
  {| column_name := name;
     data_type := type;
     udt_name := Some udt;
     is_nullable := if nullable then "YES" else "NO";
     character_maximum_length := None;
     numeric_precision := None;
     numeric_scale := None;
     column_default := None |}.

Definition account (stamp : string) (id : Z) (email : string) (at_ : Z)
  : Row :=
  [("id", num id); ("email", JStr email); (stamp, JDate at_)].

Definition accounts (stamp : string) (rs : list Row) : Table :=
  {| columns := [column "id" "integer" "int4" false;
                 column "email" "text" "text" true;
                 column stamp "timestamp without time zone" "timestamp" true];
     pkey := ["id"];
     rows := rs |}.

Definition threeAccounts (stamp : string) : list Row :=
  [account stamp 1 "ann@example.org" 1000;
   account stamp 2 "bob@example.org" 3000;
   account stamp 3 "cyd@example.org" 2000].

(** A record whose [id] is not a number. *)
Definition badAccount (stamp : string) : Row :=
  [("id", JStr "abc"); ("email", JStr "eve@example.org"); (stamp, JDate 5000)].

Definition firstFour (stamp : string) : list Row :=
  [account stamp 1 "ann@example.org" 1000;
   account stamp 2 "bob@example.org" 2000;
   account stamp 3 "cyd@example.org" 3000;
   account stamp 4 "dan@example.org" 4000].







(** [n] times the letter e with an acute accent (U+00E9, two bytes). *)
Fixpoint accented (n : nat) : string :=
  match n with
  | O => EmptyString
  | S m => String (ascii_of_nat 195) (String (ascii_of_nat 169) (accented m))
  end.

Definition backupRunner : Runner := {| rid := 0; side := Backup |}.

Definition primaryRunner : Runner := {| rid := 1; side := Primary |}.

(** A table with an enum column and a column of a geometric type. *)
Definition moodColumn : Column := column "mood" "USER-DEFINED" "mood" true.

Definition spotColumn : Column := column "spot" "point" "point" true.

Definition people : Table :=
  {| columns := [column "id" "integer" "int4" false; moodColumn; spotColumn];
     pkey := ["id"];
     rows := [] |}.

Definition database (ts : list (string * Table)) : Db :=
  {| tables := ts; enums := [] |}.

Definition world (primaryDb backupDb : Db) (schedule : list (option string))
  : World :=
  {| primary := primaryDb;
     backup := backupDb;
     faults := schedule;
     nextRunner := 0;
     connected := [];
     logs := [] |}.

End Sample.

(** ** Notions used to state the properties *)

(** [preserves P m]: whatever the outcome of [m] (a result or an
    exception) and whatever the fault schedule, the world after [m]
    satisfies [P] if the world before did. *)
Definition preserves (P : World -> Prop) {A} (m : M A) : Prop :=
  forall w, P w -> P (snd (m w)).

(** Every runner still connected in [w'] was already connected in [w],
    or is one of [extra]. *)
Definition no_new_runner (w : World) (extra : list nat) (w' : World) : Prop :=
  forall i, In i (connected w') -> In i (connected w) \/ In i extra.

(** The primary is as in [w] and the backup has the tables of [w]:
    none created, none dropped. *)
Definition same_catalog (w w' : World) : Prop :=
  primary w' = primary w /\ tableNames (backup w') = tableNames (backup w).


Section Runs.
Context {rt : Runtime} {eng : Engine}.

(** The columns of the records that the target table has
    ([validColumns] in processBatch). *)
Definition validColumns (T : Table) (cols : list string) : list string :=
  filter (fun col => has_key col (CdcService.columnTypeMap (columns T))) cols.

(** The log entry of processBatch for a record the server refuses. *)
Definition upsertFailure (t e : string) : Level * string :=
  (LError, ("Failed to upsert record in " ++ t ++ ": " ++ e)%string).

(** What processBatch does with one record when the driver does not
    fail: the table and the log before and after. *)
Definition upsertOne (t : string) (schema : list Column) (pk valid : list string)
    (st : Table * list (Level * string)) (record : Row)
  : Table * list (Level * string) :=
  match insertRow (CdcService.conflictClause pk valid) (fst st)
          (CdcService.recordValues (CdcService.columnTypeMap schema) valid
             record) with
  | Done T' => (T', snd st)
  | Fail e => (fst st, snd st ++ [upsertFailure t e])
  end.



(** The type name [columnTypes] has for a column, if any. *)
Definition typeOf (types : PlainObject) (col : string) : option string :=
  match object_get col types with
  | Own v => v
  | _ => None
  end.

(** The values insertDataInBatches binds for a row whose columns have
    plain names. *)
Definition boundValues (types : PlainObject) (cols : list string)
    (row : Row) : Row :=
  map (fun col =>
         (col, processValueForInsertion (field row col) (typeOf types col)))
      cols.

(** What insertDataInBatches does with one row when the driver does
    not fail and the columns have plain names, whether the row goes in
    a batch statement or alone. *)
Definition insertOne (types : PlainObject) (cols : list string)
    (T : Table) (row : Row) : Table :=
  match insertRow DoNothing T (boundValues types cols row) with
  | Done T' => T'
  | Fail _ => T
  end.





(** The name of an enum type and its labels read back as they are
    when copyEnumTypes writes them into its CREATE TYPE statement: the
    name is a word in lower case that the grammar does not keep, and
    no label holds an apostrophe or a backslash. *)
Definition readsBack (name : string) (labels : list string) : bool :=
  match unquoted name with
  | Some n => String.eqb n name
  | None => false
  end
  && negb (pg_reserved name) && forallb plain_literal labels.

(** The world after [n] change-detection cycles. *)
Definition cycles (n : nat) (w : World) : World :=
  Nat.iter n (fun w => snd (CdcService.detectAndSyncChanges w)) w.

End Runs.

(** The native types each generic builder has a case for. *)
Definition backupKnownTypes : list string :=
  ["user-defined"; "array"; "character varying"; "character"; "numeric";
   "decimal"; "timestamp without time zone"; "timestamp with time zone";
   "time without time zone"; "time with time zone"; "bigint"; "integer";
   "smallint"; "boolean"; "text"; "uuid"; "bytea"; "real";
   "double precision"; "money"; "inet"; "cidr"; "macaddr"].

Definition isJsonUdt (col : Column) : bool :=
  match option_map toLowerCase (udt_name col) with
  | Some u => String.eqb u "jsonb" || String.eqb u "json"
  | None => false
  end.

Definition unrecognizedByBackup (col : Column) : bool :=
  negb (mem (toLowerCase (data_type col)) backupKnownTypes)
  && negb (isJsonUdt col).

Definition cdcKnownTypes : list string :=
  ["character varying"; "text"; "bigint"; "integer"; "boolean";
   "timestamp without time zone"; "timestamp with time zone"; "USER-DEFINED"].

(** The columns the catalog of [db] lists for [t]. *)
Definition columnsIn (db : Db) (t : string) : list Column :=
  match lookupTable db t with Some T => columns T | None => [] end.

(** What the log sanitizers make of a value: a string of more than
    [limit] UTF-16 code units is cut to its first [limit] code units
    and three dots. *)
Definition shortened (limit : nat) (v : JsValue) : JsValue :=
  match v with
  | JStr s =>
      if (limit <? length16 s)%nat
      then JStr (substring16 limit s ++ "...")
      else v
  | _ => v
  end.

(** The key names sanitizeRowForLogging hides. *)
Definition sensitiveKey (key : string) : bool :=
  includes (toLowerCase key) "password" || includes (toLowerCase key) "secret".

(** The number of rows of table [t], 0 when there is no such table. *)
Definition rowsIn (db : Db) (t : string) : Z :=
  match lookupTable db t with
  | Some T => Z.of_nat (length (rows T))
  | None => 0
  end.

(** The tables pg_tables lists for the services. *)
Definition listedTables (db : Db) : list string :=
  filter (fun t => negb (like "pg_%" t)) (tableNames db).

(** Every table of the backup other than [t] is in [w] as it is in
    [w0]. *)
Definition othersKept (t : string) (w0 w : World) : Prop :=
  forall t0, t0 <> t -> lookupTable (backup w) t0 = lookupTable (backup w0) t0.

(** Every table the backup has in [w0] is still there in [w], with the
    rows it had followed by the rows added since. *)
Definition rowsKept (w0 w : World) : Prop :=
  forall t0 T0,
    lookupTable (backup w0) t0 = Some T0 ->
    exists T added,
      lookupTable (backup w) t0 = Some T /\ rows T = rows T0 ++ added.


(** [m] returns a value from every world: no exception leaves it. *)
Definition never_throws {A} (m : M A) : Prop :=
  forall w, exists a, fst (m w) = Ok a.



(* ================================================================== *)
(** * Part II.  Theorems                                               *)
(* ================================================================== *)


(** ** Value coercion for boolean columns *)

Section BooleanCoercion.
Context {rt : Runtime}.

Lemma coerceBoolean_is_boolean (v : JsValue) :
  exists b, coerceBoolean v = JBool b.
Proof. destruct v; simpl; eauto. Qed.

Lemma processValueForInsertion_boolean (v : JsValue) (dataType : string) :
  toLowerCase dataType = "boolean" ->
  processValueForInsertion v (Some dataType)
  = if is_nullish v then JNull else coerceBoolean v.
Proof.
  intros H. unfold processValueForInsertion. rewrite H.
  destruct v; reflexivity.
Qed.

Lemma processColumnValue_boolean (v : JsValue) (dataType : string) :
  toLowerCase dataType = "boolean" ->
  processColumnValue v dataType
  = if is_nullish v then JNull else coerceBoolean v.
Proof.
  intros H. unfold processColumnValue. rewrite H.
  destruct v; reflexivity.
Qed.

(** C8 (amended).  For a boolean column, in both services: null and
    undefined coerce to null; every other input coerces to a boolean;
    a string equal to 'true' up to case, and the strings '1' and 't',
    coerce to true. *)
Theorem boolean_coercion (v : JsValue) (dataType : string) :
  toLowerCase dataType = "boolean" ->
  (is_nullish v = true ->
     processValueForInsertion v (Some dataType) = JNull
     /\ processColumnValue v dataType = JNull)
  /\ (is_nullish v = false ->
        exists b, processValueForInsertion v (Some dataType) = JBool b
                  /\ processColumnValue v dataType = JBool b)
  /\ (forall s, v = JStr s ->
        toLowerCase s = "true" \/ s = "1" \/ s = "t" ->
        processValueForInsertion v (Some dataType) = JBool true
        /\ processColumnValue v dataType = JBool true).
Proof.
  intros H.
  rewrite (processValueForInsertion_boolean v dataType H).
  rewrite (processColumnValue_boolean v dataType H).
  repeat split.
  - rewrite H0. reflexivity.
  - rewrite H0. reflexivity.
  - intros Hn. rewrite Hn.
    destruct (coerceBoolean_is_boolean v) as [b Hb]. exists b. now rewrite Hb.
  - subst v. simpl. destruct H1 as [E | [E | E]]; rewrite E; reflexivity.
  - subst v. simpl. destruct H1 as [E | [E | E]]; rewrite E; reflexivity.
Qed.

End BooleanCoercion.

Lemma boolean_coercion_witness :
  processValueForInsertion (rt := Sample.runtime) (JStr "TRUE") (Some "Boolean")
  = JBool true
  /\ processColumnValue (rt := Sample.runtime) (JStr "TRUE") "Boolean"
     = JBool true.
Proof.
  exact (proj2 (proj2 (boolean_coercion (rt := Sample.runtime)
                         (JStr "TRUE") "Boolean" eq_refl))
           "TRUE" eq_refl (or_introl eq_refl)).
Defined.

(** C8 as stated fails: the comparison with 't' is case-sensitive, so
    'T' coerces to false, and null does not coerce to a boolean. *)
Lemma boolean_coercion_counterexample :
  processValueForInsertion (rt := Sample.runtime) (JStr "T") (Some "boolean")
  = JBool false
  /\ processColumnValue (rt := Sample.runtime) (JStr "T") "boolean"
     = JBool false
  /\ processValueForInsertion (rt := Sample.runtime) JNull (Some "boolean")
     = JNull
  /\ processColumnValue (rt := Sample.runtime) JNull "boolean" = JNull.
Proof. repeat split. Qed.

(** ** Coverage percentage (MonitoringController.getMetrics) *)

Import Monitoring.

(** [Math.round] of a double with a fractional part is the nearest
    integer, a tie going to the larger one: with [x = n / 2^k],
    [z - 1/2 <= x < z + 1/2]. *)
Lemma Math_round_nearest (s : bool) (m : positive) (e z : Z) :
  e < 0 ->
  Math_round (S754_finite s m e) = Some z ->
  let n := if s then Z.neg m else Z.pos m in
  let k := 2 ^ (- e) in
  2 * z * k - k <= 2 * n < 2 * z * k + k.
Proof.
  intros He H n k.
  assert (Hz : z = (2 * n + k) / (2 * k)).
  { unfold Math_round in H.
    destruct (0 <=? e) eqn:E; [apply Z.leb_le in E; lia|].
    injection H as H. subst z. reflexivity. }
  assert (Hk : 0 < k) by (apply Z.pow_pos_nonneg; lia).
  pose proof (Z.div_mod (2 * n + k) (2 * k) ltac:(lia)) as D.
  pose proof (Z.mod_pos_bound (2 * n + k) (2 * k) ltac:(lia)) as B.
  rewrite <- Hz in D. nia.
Qed.

(** C9.  With 45 primary tables of which 43 are backed up the
    coverage percentage is 96; it is 0 when there is no primary table;
    otherwise it is [Math.round (backedUp / total * 100)] in double
    arithmetic, and [Math.round] rounds to the nearest integer with
    ties upward. *)
Theorem coverage_percentage_rounding (m : BackupMetrics) :
  (totalTables m = 45 -> backedUpTables m = 43 ->
     coverage_percentage m = Some 96)
  /\ (totalTables m = 0 -> coverage_percentage m = Some 0)
  /\ (0 < totalTables m ->
        coverage_percentage m
        = Math_round (fmul (fdiv (of_Z (backedUpTables m))
                                 (of_Z (totalTables m)))
                           (of_Z 100)))
  /\ (forall q, q = fmul (fdiv (of_Z (backedUpTables m))
                               (of_Z (totalTables m)))
                         (of_Z 100) ->
      forall s mant e z,
        q = S754_finite s mant e -> e < 0 -> 0 < totalTables m ->
        coverage_percentage m = Some z ->
        let n := if s then Z.neg mant else Z.pos mant in
        2 * z * 2 ^ (- e) - 2 ^ (- e) <= 2 * n < 2 * z * 2 ^ (- e) + 2 ^ (- e)).
Proof.
  unfold coverage_percentage. split; [|split; [|split]].
  - intros Ht Hb. rewrite Ht, Hb. vm_compute. reflexivity.
  - intros Ht. rewrite Ht. reflexivity.
  - intros Ht. apply Z.ltb_lt in Ht. now rewrite Ht.
  - intros q Hq s mant e z Hf He Ht Hc.
    apply Z.ltb_lt in Ht. rewrite Ht in Hc. rewrite <- Hq, Hf in Hc.
    exact (Math_round_nearest s mant e z He Hc).
Qed.

Lemma coverage_percentage_rounding_witness :
  coverage_percentage
    (collectMetrics
       {| connections := None;
          primaryTables := Done (repeat "t" 45);
          backupTables := 43;
          backupStatus := [];
          lastBackup_ := None;
          now := 0 |}) = Some 96.
Proof.
  apply (proj1 (coverage_percentage_rounding _)); reflexivity.
Defined.

(** ** Health classification (MonitoringService.collectMetrics) *)

Lemma worst_comm (a b : HealthStatus) : worst a b = worst b a.
Proof. destruct a, b; reflexivity. Qed.

Lemma hours_ago (now h : Z) :
  hoursSince now (now - h * (1000 * 60 * 60))
  = fdiv (of_Z (h * (1000 * 60 * 60))) (of_Z (1000 * 60 * 60)).
Proof. unfold hoursSince. f_equal. f_equal. lia. Qed.

Lemma staleness_thresholds (now : Z) :
  staleness now (Some (now - 7 * (1000 * 60 * 60))) = warning
  /\ staleness now (Some (now - 25 * (1000 * 60 * 60))) = error
  /\ staleness now (Some (now - 2 * (1000 * 60 * 60))) = healthy.
Proof.
  unfold staleness. rewrite !hours_ago. repeat split; vm_compute; reflexivity.
Qed.

(** More than 24 hours is more than 6 hours. *)
Lemma beyond_24_beyond_6 (v : number) :
  fgtb v (of_Z 24) = true -> fgtb v (of_Z 6) = true.
Proof.
  unfold fgtb, SFltb.
  replace (of_Z 24) with (S754_finite false 6755399441055744 (-48))
    by (vm_compute; reflexivity).
  replace (of_Z 6) with (S754_finite false 6755399441055744 (-50))
    by (vm_compute; reflexivity).
  destruct v as [s | s | | s m e]; cbn [SFcompare]; try discriminate.
  - destruct s; [discriminate | reflexivity].
  - destruct s; [discriminate|].
    destruct (Z.compare_spec (-48) e) as [E | E | E]; [| |discriminate];
      intros _; destruct (Z.compare_spec (-50) e) as [F | F | F];
      try reflexivity; lia.
Qed.

(** C5.  When a connection probe fails the verdict is error.  Otherwise
    the coverage check appends its message exactly when fewer than nine
    tenths of the primary tables are in the backup, and the staleness
    check appends its message exactly when the last backup is more than
    6 hours old, each whatever the other does, the coverage message
    first; the verdict is the more severe of the levels the two checks
    trigger (warning for low coverage, warning beyond 6 hours, error
    beyond 24 hours), whichever of them is looked at first; and with
    sufficient coverage a last backup 7 hours old gives warning, 25
    hours old error, 2 hours old healthy. *)
Theorem health_classification (x : Readings) :
  (forall e, connections x = Some e ->
     healthStatus (collectMetrics x) = error)
  /\ (forall tables,
        connections x = None -> primaryTables x = Done tables ->
        let n := Z.of_nat (length tables) in
        let m := collectMetrics x in
        let ratio :=
          if 0 <? n then fdiv (of_Z (backupTables x)) (of_Z n) else of_Z 1 in
        let low := fltb ratio (fdiv (of_Z 9) (of_Z 10)) in
        let hours :=
          option_map
            (fun last => fdiv (of_Z (now x - last)) (of_Z (1000 * 60 * 60)))
            (lastBackup_ x) in
        let beyond := fun h =>
          match hours with Some v => fgtb v (of_Z h) | None => false end in
        let coverageLevel := if low then warning else healthy in
        let stalenessLevel :=
          if beyond 24 then error else if beyond 6 then warning else healthy in
        let coverageErrors :=
          if low
          then [(string_of_Z (n - backupTables x)
                 ++ " tables are not backed up ("
                 ++ show (Math_round (fmul ratio (of_Z 100)))
                 ++ "% coverage)")%string]
          else [] in
        let stalenessErrors :=
          match hours with
          | Some v =>
              if beyond 6
              then [("Last backup was " ++ show (Math_floor v)
                     ++ " hours ago")%string]
              else []
          | None => []
          end in
        healthStatus m = worst coverageLevel stalenessLevel
        /\ healthStatus m = worst stalenessLevel coverageLevel
        /\ severity (healthStatus m)
           = Nat.max (severity coverageLevel) (severity stalenessLevel)
        /\ errors m = coverageErrors ++ stalenessErrors
        /\ (low = false ->
            (lastBackup_ x = Some (now x - 7 * (1000 * 60 * 60)) ->
               healthStatus m = warning)
            /\ (lastBackup_ x = Some (now x - 25 * (1000 * 60 * 60)) ->
                  healthStatus m = error)
            /\ (lastBackup_ x = Some (now x - 2 * (1000 * 60 * 60)) ->
                  healthStatus m = healthy)))
  /\ (let reading := fun backedUp h =>
        collectMetrics
          {| connections := None;
             primaryTables := Done (repeat "t" 10);
             backupTables := backedUp;
             backupStatus := [];
             lastBackup_ := Some (90000000 - h * (1000 * 60 * 60));
             now := 90000000 |} in
      let status := fun m => (healthStatus m, errors m) in
      status (reading 10 2) = (healthy, [])
      /\ status (reading 10 7) = (warning, ["Last backup was 7 hours ago"])
      /\ status (reading 10 25) = (error, ["Last backup was 25 hours ago"])
      /\ status (reading 8 2)
         = (warning, ["2 tables are not backed up (80% coverage)"])
      /\ status (reading 8 7)
         = (warning, ["2 tables are not backed up (80% coverage)";
                      "Last backup was 7 hours ago"])
      /\ status (reading 8 25)
         = (error, ["2 tables are not backed up (80% coverage)";
                    "Last backup was 25 hours ago"])).
Proof.
  split; [|split].
  - intros e He. unfold collectMetrics. rewrite He. reflexivity.
  - intros tables Hc Hp n m ratio low hours beyond coverageLevel
      stalenessLevel coverageErrors stalenessErrors.
    assert (Hm : healthStatus m = worst coverageLevel stalenessLevel
                 /\ errors m = coverageErrors ++ stalenessErrors).
    { unfold m, collectMetrics. rewrite Hc, Hp. fold n.
      unfold coverageCheck, stalenessCheck, coverage, nine_tenths, hoursSince.
      fold ratio. fold low.
      unfold coverageLevel, stalenessLevel, coverageErrors, stalenessErrors,
        beyond, hours.
      destruct low; destruct (lastBackup_ x) as [last |]; cbn [option_map];
        try (destruct (fgtb _ (of_Z 24)) eqn:E24;
             [rewrite (beyond_24_beyond_6 _ E24)
             | destruct (fgtb _ (of_Z 6))]);
        split; reflexivity. }
    destruct Hm as [Hs He].
    split; [exact Hs|]. split; [now rewrite worst_comm|].
    split; [rewrite Hs; destruct coverageLevel, stalenessLevel; reflexivity|].
    split; [exact He|].
    intros Hlow. rewrite Hs. unfold coverageLevel, stalenessLevel.
    rewrite Hlow. unfold beyond, hours.
    destruct (staleness_thresholds (now x)) as [H7 [H25 H2]].
    unfold staleness, hoursSince in H7, H25, H2.
    repeat split; intros Hl; rewrite Hl; cbn [option_map].
    + now rewrite H7.
    + now rewrite H25.
    + now rewrite H2.
  - vm_compute. repeat split; reflexivity.
Qed.

Lemma health_classification_witness :
  let m := collectMetrics
             {| connections := None;
                primaryTables := Done (repeat "t" 10);
                backupTables := 10;
                backupStatus := [];
                lastBackup_ := Some (90000000 - 7 * (1000 * 60 * 60));
                now := 90000000 |} in
  healthStatus m = warning /\ errors m = ["Last backup was 7 hours ago"].
Proof.
  intros m.
  destruct (health_classification
              {| connections := None;
                 primaryTables := Done (repeat "t" 10);
                 backupTables := 10;
                 backupStatus := [];
                 lastBackup_ := Some (90000000 - 7 * (1000 * 60 * 60));
                 now := 90000000 |}) as (_ & H & _).
  destruct (H (repeat "t" 10) eq_refl eq_refl) as (_ & _ & _ & He & Hlow).
  split.
  - apply (proj1 (Hlow eq_refl)). reflexivity.
  - unfold m. rewrite He. vm_compute. reflexivity.
Defined.

(** ** Properties kept along every execution path *)

Section Preserves.
Variable P : World -> Prop.

Lemma preserves_ret {A} (a : A) : preserves P (ret a).
Proof. intros w H. exact H. Qed.

Lemma preserves_throw {A} (e : string) : preserves P (@throw A e).
Proof. intros w H. exact H. Qed.

Lemma preserves_bind {A B} (m : M A) (k : A -> M B) :
  preserves P m -> (forall a, preserves P (k a)) -> preserves P (bind m k).
Proof.
  intros Hm Hk w H. unfold bind. specialize (Hm w H).
  destruct (m w) as [[a | e] w']; simpl in *.
  - apply Hk. exact Hm.
  - exact Hm.
Qed.

Lemma preserves_try_catch {A} (body : M A) (handler : string -> M A) :
  preserves P body -> (forall e, preserves P (handler e)) ->
  preserves P (try_catch body handler).
Proof.
  intros Hb Hh w H. unfold try_catch. specialize (Hb w H).
  destruct (body w) as [[a | e] w']; simpl in *.
  - exact Hb.
  - apply Hh. exact Hb.
Qed.

Lemma preserves_try_finally {A} (body : M A) (fin : M unit) :
  preserves P body -> preserves P fin -> preserves P (try_finally body fin).
Proof.
  intros Hb Hf w H. unfold try_finally. specialize (Hb w H).
  destruct (body w) as [r w1]; simpl in *. specialize (Hf w1 Hb).
  destruct (fin w1) as [[u | e] w2]; simpl in *; exact Hf.
Qed.

Lemma preserves_forM {A} (l : list A) (body : A -> M unit) :
  (forall x, preserves P (body x)) -> preserves P (forM_ l body).
Proof.
  intros Hb. induction l as [| x r IH]; simpl.
  - apply preserves_ret.
  - apply preserves_bind; [apply Hb | intros _; exact IH].
Qed.

End Preserves.

Ltac preserves_step :=
  match goal with
  | |- preserves _ (bind _ _) => apply preserves_bind; [| intros]
  | |- preserves _ (try_catch _ _) => apply preserves_try_catch; [| intros]
  | |- preserves _ (try_finally _ _) => apply preserves_try_finally
  | |- preserves _ (forM_ _ _) => apply preserves_forM; intros
  | |- preserves _ (ret _) => apply preserves_ret
  | |- preserves _ (throw _) => apply preserves_throw
  | |- preserves _ (if ?b then _ else _) => destruct b
  | |- preserves _ (match ?x with _ => _ end) => destruct x
  | |- preserves _ _ => solve [eauto]
  end.

Ltac preserves_auto := repeat preserves_step.

(** The statement-building query of handleMissingBackupTable never
    gives a result. *)
Lemma selectCreateStatement_refused (r : Runner) (t : string) (w : World) :
  exists e, fst (readDb r (CdcService.selectCreateStatement t) w) = Throw e.
Proof.
  unfold readDb, bind, roundtrip, CdcService.selectCreateStatement.
  destruct (faults w) as [| [e |] f]; cbn; eauto.
Qed.

(** The methods of both services keep [P] as soon as the primitives
    they are built from do.  [okP] and [okB] are what is known of the
    runner on the primary and of the runner on the backup. *)
Section ServicesPreserve.
Context {rt : Runtime} {eng : Engine}.
Variable P : World -> Prop.
Variables okP okB : Runner -> Prop.

Hypothesis P_roundtrip : preserves P roundtrip.
Hypothesis P_log : forall lvl msg, preserves P (log lvl msg).
Hypothesis P_read : forall A r (q : Db -> Res A), preserves P (readDb r q).
Hypothesis P_connectP : forall r, okP r -> preserves P (connect r).
Hypothesis P_connectB : forall r, okB r -> preserves P (connect r).
Hypothesis P_insert :
  forall r t clause rs, okB r ->
    preserves P (writeDb r (fun db => insertInto db t clause rs)).
Hypothesis P_createTable :
  forall r t defs, okB r -> preserves P (writeDb r (createTable t defs)).
Hypothesis P_addPrimaryKey :
  forall r t cols, okB r -> preserves P (writeDb r (addPrimaryKey t cols)).
Hypothesis P_drop :
  forall r t, okB r -> preserves P (writeDb r (dropTableIfExists t)).
Hypothesis P_truncate :
  forall r t, okB r -> preserves P (writeDb r (truncate t)).
Hypothesis P_replay :
  forall r t T, okB r -> preserves P (writeDb r (BackupService.replayDump t T)).

Lemma cdc_checkTableExists_preserves r t :
  preserves P (CdcService.checkTableExists r t).
Proof. unfold CdcService.checkTableExists. preserves_auto. Qed.

Lemma cdc_checkColumnExists_preserves r t c :
  preserves P (CdcService.checkColumnExists r t c).
Proof. unfold CdcService.checkColumnExists. preserves_auto. Qed.

Lemma cdc_getColumnDataType_preserves r t c :
  preserves P (CdcService.getColumnDataType r t c).
Proof. unfold CdcService.getColumnDataType. preserves_auto. Qed.

Lemma cdc_getPrimaryKeyColumns_preserves r t :
  preserves P (CdcService.getPrimaryKeyColumns r t).
Proof. unfold CdcService.getPrimaryKeyColumns. preserves_auto. Qed.

Lemma cdc_getTableSchema_preserves r t :
  preserves P (CdcService.getTableSchema r t).
Proof. unfold CdcService.getTableSchema. preserves_auto. Qed.

Lemma cdc_processBatch_preserves r t records schema pk :
  okB r -> preserves P (CdcService.processBatch r t records schema pk).
Proof. intros Hr. unfold CdcService.processBatch. preserves_auto. Qed.

Lemma cdc_upsertRecords_preserves r t records :
  okB r -> preserves P (CdcService.upsertRecords r t records).
Proof.
  intros Hr. unfold CdcService.upsertRecords.
  pose proof cdc_getTableSchema_preserves.
  pose proof cdc_getPrimaryKeyColumns_preserves.
  pose proof cdc_processBatch_preserves.
  preserves_auto.
Qed.

Lemma cdc_createTableWithFallback_preserves p b t :
  okB b -> preserves P (CdcService.createTableWithFallback p b t).
Proof. intros Hb. unfold CdcService.createTableWithFallback. preserves_auto. Qed.

(** The statement-building query is refused on every call, so the
    body of handleMissingBackupTable ends at its first statement and
    the outer catch logs the error. *)
Lemma cdc_handleMissingBackupTable_preserves p b t :
  okB b -> preserves P (CdcService.handleMissingBackupTable p b t).
Proof.
  intros _ w H. unfold CdcService.handleMissingBackupTable, try_catch.
  unfold bind at 1.
  pose proof (P_read _ p (CdcService.selectCreateStatement t) w H) as R.
  pose proof (selectCreateStatement_refused p t w) as [e E].
  destruct (readDb p (CdcService.selectCreateStatement t) w) as [r w1].
  cbn [fst snd] in *. subst r. now apply P_log.
Qed.

Lemma cdc_syncData_preserves p b t ty :
  okB b -> preserves P (CdcService.syncData p b t ty).
Proof.
  intros Hb.
  unfold CdcService.syncData, CdcService.readLastSync, CdcService.pullChanges.
  pose proof cdc_upsertRecords_preserves.
  preserves_auto.
Qed.

Lemma cdc_syncTableChangesTry_preserves p b t :
  okP p -> okB b -> preserves P (CdcService.syncTableChangesTry p b t).
Proof.
  intros Hp Hb. unfold CdcService.syncTableChangesTry.
  pose proof cdc_checkTableExists_preserves.
  pose proof cdc_checkColumnExists_preserves.
  pose proof cdc_getColumnDataType_preserves.
  pose proof cdc_handleMissingBackupTable_preserves.
  pose proof cdc_syncData_preserves.
  preserves_auto.
Qed.

Lemma cdc_forceSyncTableTry_preserves p b t :
  okP p -> okB b -> preserves P (CdcService.forceSyncTableTry p b t).
Proof.
  intros Hp Hb. unfold CdcService.forceSyncTableTry.
  pose proof cdc_checkTableExists_preserves.
  pose proof cdc_upsertRecords_preserves.
  preserves_auto.
Qed.

Lemma backup_copyPrimaryKeyConstraint_preserves p b t :
  okB b -> preserves P (BackupService.copyPrimaryKeyConstraint p b t).
Proof.
  intros Hb. unfold BackupService.copyPrimaryKeyConstraint. preserves_auto.
Qed.

Lemma backup_createTableFallback_preserves p b t :
  okB b -> preserves P (BackupService.createTableFallback p b t).
Proof.
  intros Hb. unfold BackupService.createTableFallback.
  pose proof backup_copyPrimaryKeyConstraint_preserves.
  preserves_auto.
Qed.

Lemma backup_pgDump_preserves t : preserves P (BackupService.pgDump t).
Proof.
  unfold BackupService.pgDump. apply preserves_bind; [exact P_roundtrip|].
  intros _ w H. destruct (lookupTable (primary w) t); exact H.
Qed.

Lemma backup_createTableInBackup_preserves p b t :
  okB b -> preserves P (BackupService.createTableInBackup p b t).
Proof.
  intros Hb. unfold BackupService.createTableInBackup.
  pose proof backup_createTableFallback_preserves.
  pose proof backup_pgDump_preserves.
  preserves_auto.
Qed.

Lemma backup_getColumnTypes_preserves r t :
  preserves P (BackupService.getColumnTypes r t).
Proof. unfold BackupService.getColumnTypes. preserves_auto. Qed.

Lemma backup_insertRowsIndividually_preserves r t rows cols types :
  okB r ->
  preserves P (BackupService.insertRowsIndividually r t rows cols types).
Proof.
  intros Hr. unfold BackupService.insertRowsIndividually. preserves_auto.
Qed.

Lemma backup_insertDataInBatches_preserves r t data :
  okB r -> preserves P (BackupService.insertDataInBatches r t data).
Proof.
  intros Hr. unfold BackupService.insertDataInBatches.
  pose proof backup_getColumnTypes_preserves.
  pose proof backup_insertRowsIndividually_preserves.
  preserves_auto.
Qed.

Lemma backup_backupTableTry_preserves p b t force :
  okP p -> okB b -> preserves P (BackupService.backupTableTry p b t force).
Proof.
  intros Hp Hb. unfold BackupService.backupTableTry, BackupService.checkTableExists.
  pose proof backup_createTableInBackup_preserves.
  pose proof backup_insertDataInBatches_preserves.
  preserves_auto.
Qed.

End ServicesPreserve.

(** ** Query runners are released *)

Section Runners.
Context {rt : Runtime} {eng : Engine}.
Variable w0 : World.
Variable extra : list nat.

Let P := no_new_runner w0 extra.

Lemma runners_roundtrip : preserves P roundtrip.
Proof.
  intros w H. unfold roundtrip.
  destruct (faults w) as [| [e |] f]; exact H.
Qed.

Lemma runners_log lvl msg : preserves P (log lvl msg).
Proof. intros w H. exact H. Qed.

Lemma runners_read A r (q : Db -> Res A) : preserves P (readDb r q).
Proof.
  unfold readDb. apply preserves_bind; [apply runners_roundtrip|].
  intros _ w H. destruct (q (db_of (side r) w)); exact H.
Qed.

Lemma runners_write r (q : Db -> Res Db) : preserves P (writeDb r q).
Proof.
  unfold writeDb. apply preserves_bind; [apply runners_roundtrip|].
  intros _ w H. destruct (q (db_of (side r) w)); [|exact H].
  destruct (side r); exact H.
Qed.

Lemma runners_connect r : In (rid r) extra -> preserves P (connect r).
Proof.
  intros Hr. unfold connect. apply preserves_bind; [apply runners_roundtrip|].
  intros _ w H i [Hi | Hi]; [right; now subst i | now apply H].
Qed.

Lemma runners_release r : preserves P (release r).
Proof.
  intros w H i Hi. simpl in Hi. apply filter_In in Hi. apply H, Hi.
Qed.

End Runners.

Ltac runners_solve :=
  try solve [ apply runners_roundtrip
            | apply runners_log
            | apply runners_read
            | intros; apply runners_connect; assumption
            | intros; apply runners_write
            | simpl; auto ].

(** After the [finally] block that releases [p] and [b], no runner
    the try block connected is left. *)
Lemma released_after (w0 : World) (extra : list nat) (p b : Runner) (w : World) :
  no_new_runner w0 (rid p :: rid b :: extra) w ->
  no_new_runner w0 extra (snd ((release p ;; release b) w)).
Proof.
  intros H i Hi. simpl in Hi.
  apply filter_In in Hi. destruct Hi as [Hi Hb].
  apply filter_In in Hi. destruct Hi as [Hi Hp].
  destruct (H i Hi) as [Hold | [E | [E | Hex]]].
  - now left.
  - subst i. rewrite Nat.eqb_refl in Hp. discriminate.
  - subst i. rewrite Nat.eqb_refl in Hb. discriminate.
  - now right.
Qed.

Lemma no_new_runner_weaken (w0 : World) (extra extra' : list nat) (w : World) :
  incl extra extra' -> no_new_runner w0 extra w -> no_new_runner w0 extra' w.
Proof.
  intros Hi H i Hc. destruct (H i Hc) as [Ho | He]; [now left | right; auto].
Qed.

Section Released.
Context {rt : Runtime} {eng : Engine}.

(** syncTableChanges releases both of its runners on every path. *)
Lemma syncTableChanges_releases (w0 : World) (t : string) :
  preserves (no_new_runner w0 []) (CdcService.syncTableChanges t).
Proof.
  intros w H. unfold CdcService.syncTableChanges, bind at 1 2. simpl.
  set (p := {| rid := nextRunner w; side := Primary |}).
  set (b := {| rid := S (nextRunner w); side := Backup |}).
  unfold try_finally.
  match goal with
  | |- context [CdcService.syncTableChangesTry p b t ?w1] =>
      assert (B : no_new_runner w0 [rid p; rid b]
                    (snd (CdcService.syncTableChangesTry p b t w1)))
  end.
  { apply cdc_syncTableChangesTry_preserves
      with (okP := fun r => In (rid r) [rid p; rid b])
           (okB := fun r => In (rid r) [rid p; rid b]);
      runners_solve.
    eapply no_new_runner_weaken; [|exact H]. intros x []. }
  match goal with
  | |- context [CdcService.syncTableChangesTry p b t ?w1] =>
      destruct (CdcService.syncTableChangesTry p b t w1) as [r w2]
  end.
  simpl in B. pose proof (released_after w0 [] p b w2 B) as R.
  destruct ((release p ;; release b) w2) as [[u | e] w3]; exact R.
Qed.

(** backupTable releases both of its runners on every path. *)
Lemma backupTable_releases (w0 : World) (t : string) (force : bool) :
  preserves (no_new_runner w0 []) (BackupService.backupTable t force).
Proof.
  intros w H. unfold BackupService.backupTable, bind at 1 2. simpl.
  set (p := {| rid := nextRunner w; side := Primary |}).
  set (b := {| rid := S (nextRunner w); side := Backup |}).
  unfold try_finally.
  match goal with
  | |- context [BackupService.backupTableTry p b t force ?w1] =>
      assert (B : no_new_runner w0 [rid p; rid b]
                    (snd (BackupService.backupTableTry p b t force w1)))
  end.
  { apply backup_backupTableTry_preserves
      with (okP := fun r => In (rid r) [rid p; rid b])
           (okB := fun r => In (rid r) [rid p; rid b]);
      runners_solve.
    eapply no_new_runner_weaken; [|exact H]. intros x []. }
  match goal with
  | |- context [BackupService.backupTableTry p b t force ?w1] =>
      destruct (BackupService.backupTableTry p b t force w1) as [r w2]
  end.
  simpl in B. pose proof (released_after w0 [] p b w2 B) as R.
  destruct ((release p ;; release b) w2) as [[u | e] w3]; exact R.
Qed.

End Released.

(** C6.  getBackupStatus does not release its runner when a query of
    its loop throws: with one primary table and a driver fault at the
    fourth round trip (the existence check of the loop) the call throws
    and runner 1, which it connected, stays connected. *)
Theorem getBackupStatus_leaks_runner :
  let w := Sample.world
             (Sample.database
                [("accounts", Sample.accounts "updated_at"
                                (Sample.threeAccounts "updated_at"))])
             (Sample.database [])
             [None; None; None; Some "connection terminated unexpectedly"] in
  connected w = []
  /\ fst (BackupService.getBackupStatus w)
     = Throw "connection terminated unexpectedly"
  /\ connected (snd (BackupService.getBackupStatus w)) = [1%nat].
Proof. vm_compute. repeat split. Qed.

(** ** forceSyncTable *)

Lemma assoc_set_names {A} (k : string) (v : A) (l : list (string * A)) :
  has_key k l = true -> map fst (assoc_set k v l) = map fst l.
Proof.
  unfold has_key. induction l as [| [k' v'] r IH]; simpl; [discriminate|].
  destruct (String.eqb k k') eqn:E; simpl.
  - intros _. apply String.eqb_eq in E. now subst k'.
  - intros H. now rewrite IH.
Qed.

Section InsertKeepsCatalog.
Context {eng : Engine}.

Lemma insertInto_tableNames (db db' : Db) (t : string) (c : OnConflict)
      (rs : list Row) :
  insertInto db t c rs = Done db' -> tableNames db' = tableNames db.
Proof.
  unfold insertInto, lookupTable.
  destruct (assoc t (tables db)) as [T |] eqn:E; [|discriminate].
  destruct (insertRows c T rs) as [T' | e]; [|discriminate].
  intros H. injection H as H. subst db'. unfold tableNames, setTable. simpl.
  apply assoc_set_names. unfold has_key. now rewrite E.
Qed.

End InsertKeepsCatalog.

Section Catalog.
Context {rt : Runtime} {eng : Engine}.
Variable w0 : World.

Let P := same_catalog w0.

Lemma catalog_roundtrip : preserves P roundtrip.
Proof.
  intros w H. unfold roundtrip.
  destruct (faults w) as [| [e |] f]; exact H.
Qed.

Lemma catalog_log lvl msg : preserves P (log lvl msg).
Proof. intros w H. exact H. Qed.

Lemma catalog_read A r (q : Db -> Res A) : preserves P (readDb r q).
Proof.
  unfold readDb. apply preserves_bind; [apply catalog_roundtrip|].
  intros _ w H. destruct (q (db_of (side r) w)); exact H.
Qed.

Lemma catalog_connect r : preserves P (connect r).
Proof.
  unfold connect. apply preserves_bind; [apply catalog_roundtrip|].
  intros _ w H. exact H.
Qed.

Lemma catalog_release r : preserves P (release r).
Proof. intros w H. exact H. Qed.

Lemma catalog_insert r t c rs :
  side r = Backup ->
  preserves P (writeDb r (fun db => insertInto db t c rs)).
Proof.
  intros Hr. unfold writeDb. apply preserves_bind; [apply catalog_roundtrip|].
  intros _ w [Hp Hb]. rewrite Hr. simpl.
  destruct (insertInto (backup w) t c rs) as [db' | e] eqn:E; simpl.
  - split; [exact Hp|]. simpl.
    rewrite (insertInto_tableNames _ _ _ _ _ E). exact Hb.
  - split; assumption.
Qed.

Lemma forceSyncTableBody_catalog (t : string) :
  preserves P (CdcService.forceSyncTableBody t).
Proof.
  intros w H. unfold CdcService.forceSyncTableBody, bind at 1 2. simpl.
  set (p := {| rid := nextRunner w; side := Primary |}).
  set (b := {| rid := S (nextRunner w); side := Backup |}).
  apply preserves_try_finally.
  - apply cdc_forceSyncTableTry_preserves
      with (okP := fun _ => True) (okB := fun r => side r = Backup);
      try solve [ apply catalog_roundtrip | apply catalog_log
                | apply catalog_read | intros; apply catalog_connect
                | intros; now apply catalog_insert | exact I | reflexivity ].
  - apply preserves_bind; [apply catalog_release | intros; apply catalog_release].
  - exact H.
Qed.

End Catalog.

Section ForceSync.
Context {rt : Runtime} {eng : Engine}.

(** When the table is missing on either side the inner block writes
    nothing and can only answer with a failure. *)
Lemma forceSyncTableTry_missing (p b : Runner) (t : string) (w : World) :
  side p = Primary -> side b = Backup ->
  has_key t (tables (primary w)) = false
  \/ has_key t (tables (backup w)) = false ->
  primary (snd (CdcService.forceSyncTableTry p b t w)) = primary w
  /\ backup (snd (CdcService.forceSyncTableTry p b t w)) = backup w
  /\ match fst (CdcService.forceSyncTableTry p b t w) with
     | Ok res => CdcService.success res = false
                 /\ CdcService.recordsProcessed res = 0
     | Throw _ => True
     end.
Proof.
  intros Hp Hb Hmiss.
  destruct w as [pr bk fl nr cn lg]. destruct p as [pi ps], b as [bi bs].
  simpl in Hp, Hb, Hmiss. subst ps bs.
  unfold CdcService.forceSyncTableTry, CdcService.checkTableExists,
    connect, readDb, roundtrip, try_catch, bind, log, ret, tableExists.
  destruct fl as [| [e1 |] [| [e2 |] [| [e3 |] [| [e4 |] fl]]]]; simpl;
    try (repeat split; reflexivity);
    destruct Hmiss as [Hm | Hm]; rewrite ?Hm; simpl;
    try (repeat split; reflexivity);
    destruct (has_key t (tables pr)); simpl; repeat split; reflexivity.
Qed.

Lemma release_both_dbs (p b : Runner) (w : World) :
  (release p ;; release b) w
  = (Ok tt, snd ((release p ;; release b) w))
  /\ primary (snd ((release p ;; release b) w)) = primary w
  /\ backup (snd ((release p ;; release b) w)) = backup w.
Proof. repeat split. Qed.

(** C10.  forceSyncTable always returns a result object.  It leaves
    the primary as it is and creates no table in the backup.  When the
    table is missing from the primary or from the backup the result is
    a failure with 0 records processed and the backup is unchanged, and
    an exception of the body becomes a failure result carrying its
    message, with 0 records processed. *)
Theorem forceSyncTable_total (t : string) (w : World) :
  exists res w',
    CdcService.forceSyncTable t w = (Ok res, w')
    /\ primary w' = primary w
    /\ tableNames (backup w') = tableNames (backup w)
    /\ (has_key t (tables (primary w)) = false
        \/ has_key t (tables (backup w)) = false ->
        CdcService.success res = false
        /\ CdcService.recordsProcessed res = 0
        /\ backup w' = backup w)
    /\ (forall e w1,
          CdcService.forceSyncTableBody t w = (Throw e, w1) ->
          res = {| CdcService.success := false;
                   CdcService.message := e;
                   CdcService.recordsProcessed := 0 |}).
Proof.
  pose proof (forceSyncTableBody_catalog w t w (conj eq_refl eq_refl)) as C.
  assert (M : has_key t (tables (primary w)) = false
              \/ has_key t (tables (backup w)) = false ->
              backup (snd (CdcService.forceSyncTableBody t w)) = backup w
              /\ match fst (CdcService.forceSyncTableBody t w) with
                 | Ok res => CdcService.success res = false
                             /\ CdcService.recordsProcessed res = 0
                 | Throw _ => True
                 end).
  { intros Hmiss.
    destruct (CdcService.forceSyncTableBody t w) as [r' w'] eqn:Ebody.
    revert Ebody.
    unfold CdcService.forceSyncTableBody, bind at 1 2. simpl.
    set (p := {| rid := nextRunner w; side := Primary |}).
    set (b := {| rid := S (nextRunner w); side := Backup |}).
    unfold try_finally.
    match goal with
    | |- context [CdcService.forceSyncTableTry p b t ?w1] =>
        pose proof (forceSyncTableTry_missing p b t w1 eq_refl eq_refl Hmiss)
          as [_ [Hb Hr]];
        destruct (CdcService.forceSyncTableTry p b t w1) as [r w2]
    end.
    simpl in Hb, Hr.
    destruct (release_both_dbs p b w2) as [E [_ Eb]]. rewrite E.
    intros Ebody. injection Ebody as <- <-. simpl.
    split; [exact Hb | exact Hr]. }
  unfold CdcService.forceSyncTable, try_catch.
  destruct (CdcService.forceSyncTableBody t w) as [[res | e] w1];
    simpl in C, M; destruct C as [Cp Cb].
  - exists res, w1. repeat split; try assumption.
    + now destruct (M H) as [_ [? _]].
    + now destruct (M H) as [_ [_ ?]].
    + now destruct (M H) as [? _].
    + intros e' w1' H. discriminate.
  - eexists. eexists. split; [reflexivity|]. simpl. repeat split; try assumption.
    + now destruct (M H) as [? _].
    + intros e' w1' H. now injection H as -> _.
Qed.

End ForceSync.

(** ** Runs without driver faults *)

Lemma roundtrip_quiet (w : World) :
  faults w = [] -> roundtrip w = (Ok tt, w).
Proof. intros H. unfold roundtrip. now rewrite H. Qed.

Lemma readDb_quiet {A} (r : Runner) (q : Db -> Res A) (w : World) :
  faults w = [] ->
  readDb r q w = match q (db_of (side r) w) with
                 | Done a => (Ok a, w)
                 | Fail e => (Throw e, w)
                 end.
Proof. intros H. unfold readDb, bind. now rewrite roundtrip_quiet. Qed.

Lemma writeDb_quiet (r : Runner) (q : Db -> Res Db) (w : World) :
  faults w = [] ->
  writeDb r q w = match q (db_of (side r) w) with
                  | Done db => (Ok tt, set_db (side r) w db)
                  | Fail e => (Throw e, w)
                  end.
Proof. intros H. unfold writeDb, bind. now rewrite roundtrip_quiet. Qed.

Lemma assoc_set_get {A} (k : string) (v : A) (l : list (string * A)) :
  assoc k (assoc_set k v l) = Some v.
Proof.
  induction l as [| [k' v'] r IH]; simpl.
  - now rewrite String.eqb_refl.
  - destruct (String.eqb k k') eqn:E; simpl.
    + now rewrite String.eqb_refl.
    + now rewrite E.
Qed.



Lemma lookup_setTable (db : Db) (t : string) (T : Table) :
  lookupTable (setTable db t T) t = Some T.
Proof. unfold lookupTable, setTable. simpl. apply assoc_set_get. Qed.






Section QuietUpsert.
Context {rt : Runtime} {eng : Engine}.





(** The slices of [chunks] put end to end give the list back, and
    none of them is empty. *)
Lemma chunks_aux_concat {A} (n : nat) (fuel : nat) :
  forall l : list A,
    (0 < n)%nat -> (length l <= fuel)%nat ->
    concat (chunks_aux fuel n l) = l.
Proof.
  induction fuel as [| f IH]; intros l Hn Hl.
  - destruct l; [reflexivity | simpl in Hl; lia].
  - destruct l as [| x r]; [reflexivity|].
    cbn [chunks_aux concat]. rewrite IH.
    + apply firstn_skipn.
    + exact Hn.
    + rewrite length_skipn. cbn [length] in *. lia.
Qed.

Lemma chunks_concat {A} (n : nat) (l : list A) :
  (0 < n)%nat -> concat (chunks n l) = l.
Proof. intros Hn. apply chunks_aux_concat; [exact Hn | lia]. Qed.




Lemma bind_ok {A B} (m : M A) (k : A -> M B) (w w' : World) (a : A) :
  m w = (Ok a, w') -> bind m k w = k a w'.
Proof. intros H. unfold bind. now rewrite H. Qed.

Lemma try_catch_ok {A} (body : M A) (h : string -> M A) (w w' : World) (a : A) :
  body w = (Ok a, w') -> try_catch body h w = (Ok a, w').
Proof. intros H. unfold try_catch. now rewrite H. Qed.





End QuietUpsert.

(** ** One record at a time in the upsert engine *)

Section RowIsolation.
Context {rt : Runtime} {eng : Engine}.






End RowIsolation.

(** ** Full reconciliation without forced recreation *)

Section QuietInsert.
Context {rt : Runtime} {eng : Engine}.













End QuietInsert.

(** *** INSERT ... ON CONFLICT DO NOTHING, applied twice *)



Lemma mem_In (c : string) (l : list string) : mem c l = true <-> In c l.
Proof.
  unfold mem. rewrite existsb_exists. split.
  - intros [x [Hx E]]. apply String.eqb_eq in E. now subst x.
  - intros H. exists c. split; [exact H | apply String.eqb_refl].
Qed.




Section DoNothingTwice.
Context {rt : Runtime} {eng : Engine}.




Lemma insertOne_rows types cols T row :
  exists added, rows (insertOne types cols T row) = rows T ++ added.
Proof.
  unfold insertOne, insertRow. destruct (row_error T _).
  - exists []. now rewrite app_nil_r.
  - destruct (conflicts T _); simpl.
    + exists []. now rewrite app_nil_r.
    + eexists. reflexivity.
Qed.

Lemma insert_fold_rows types cols rs :
  forall T,
    exists added, rows (fold_left (insertOne types cols) rs T) = rows T ++ added.
Proof.
  induction rs as [| x r IH]; intros T; simpl.
  - exists []. now rewrite app_nil_r.
  - destruct (IH (insertOne types cols T x)) as [a Ha].
    destruct (insertOne_rows types cols T x) as [b Hb].
    rewrite Ha, Hb. exists (b ++ a). now rewrite app_assoc.
Qed.








End DoNothingTwice.

Section FullBackup.
Context {rt : Runtime} {eng : Engine}.

Lemma connect_quiet (r : Runner) (w : World) :
  faults w = [] ->
  connect r w = (Ok tt, set_connected w (rid r :: connected w)).
Proof. intros H. unfold connect, bind. now rewrite roundtrip_quiet. Qed.



End FullBackup.

(** ** The watermark and the pull of changed rows *)

Section SortByKey.
Variable key : Row -> Z.










End SortByKey.

Section Watermark.
Context {rt : Runtime} {eng : Engine}.
















End Watermark.

Section SyncStep.
Context {rt : Runtime} {eng : Engine}.

Lemma cdc_checkTableExists_quiet (r : Runner) (t : string) (w : World) :
  faults w = [] ->
  CdcService.checkTableExists r t w
  = (Ok (has_key t (tables (db_of (side r) w))), w).
Proof.
  intros Hq. unfold CdcService.checkTableExists. apply try_catch_ok.
  now rewrite readDb_quiet by exact Hq.
Qed.





End SyncStep.

Section SyncStepWhole.
Context {rt : Runtime} {eng : Engine}.


End SyncStepWhole.





Lemma assoc_set_other {A} (k k' : string) (v : A) (l : list (string * A)) :
  String.eqb k k' = false -> assoc k (assoc_set k' v l) = assoc k l.
Proof.
  intros H. induction l as [| [k0 v0] r IH]; simpl.
  - now rewrite H.
  - destruct (String.eqb k' k0) eqn:E; simpl.
    + apply String.eqb_eq in E. subst k0. now rewrite H.
    + now rewrite IH.
Qed.


(** ** The generic builders of CREATE TABLE *)

Lemma lower_ascii_idem (c : ascii) : lower_ascii (lower_ascii c) = lower_ascii c.
Proof. destruct c as [[] [] [] [] [] [] [] []]; reflexivity. Qed.

Lemma toLowerCase_idem (s : string) :
  toLowerCase (toLowerCase s) = toLowerCase s.
Proof.
  induction s as [| c s IH]; [reflexivity|].
  cbn [toLowerCase]. now rewrite lower_ascii_idem, IH.
Qed.

Lemma mem_cons_false (x y : string) (l : list string) :
  mem x (y :: l) = false -> String.eqb x y = false /\ mem x l = false.
Proof. unfold mem. cbn [existsb]. apply orb_false_iff. Qed.

Lemma mem_app_false (x : string) (l1 l2 : list string) :
  mem x (l1 ++ l2) = false -> mem x l1 = false /\ mem x l2 = false.
Proof. unfold mem. rewrite existsb_app. apply orb_false_iff. Qed.

Lemma mapSimpleType_unrecognized (d : string) :
  mem (toLowerCase d)
      ["bigint"; "integer"; "smallint"; "boolean"; "text"; "uuid"; "bytea";
       "real"; "double precision"; "money"; "inet"; "cidr"; "macaddr"] = false ->
  BackupService.mapSimpleType d = "text".
Proof. intros H. unfold BackupService.mapSimpleType. cbv zeta. now rewrite H. Qed.

Lemma mapPostgreSQLDataType_user_defined (col : Column) :
  toLowerCase (data_type col) = "user-defined" ->
  BackupService.mapPostgreSQLDataType col = "text".
Proof.
  intros H. unfold BackupService.mapPostgreSQLDataType. rewrite H. cbv zeta.
  cbn [String.eqb Ascii.eqb Bool.eqb andb].
  destruct (option_map toLowerCase (udt_name col)) as [[| c u] |]; reflexivity.
Qed.

Lemma mapPostgreSQLDataType_unrecognized (col : Column) :
  unrecognizedByBackup col = true ->
  BackupService.mapPostgreSQLDataType col = "text".
Proof.
  unfold unrecognizedByBackup, isJsonUdt. intros H.
  apply andb_true_iff in H. destruct H as [Hk Hj].
  apply negb_true_iff in Hk. apply negb_true_iff in Hj.
  change backupKnownTypes with
    (["user-defined"; "array"; "character varying"; "character"; "numeric";
      "decimal"; "timestamp without time zone"; "timestamp with time zone";
      "time without time zone"; "time with time zone"]
     ++ ["bigint"; "integer"; "smallint"; "boolean"; "text"; "uuid"; "bytea";
         "real"; "double precision"; "money"; "inet"; "cidr"; "macaddr"])%list
    in Hk.
  apply mem_app_false in Hk. destruct Hk as [Hs Hm].
  repeat (apply mem_cons_false in Hs; let E := fresh "E" in destruct Hs as [E Hs]).
  unfold BackupService.mapPostgreSQLDataType. cbv zeta.
  rewrite E, E0, E1, E2, E3, E4, E5, E6, E7, E8. cbn [orb].
  rewrite <- (toLowerCase_idem (data_type col)) in Hm.
  apply mapSimpleType_unrecognized in Hm.
  destruct (option_map toLowerCase (udt_name col)) as [u |]; [|exact Hm].
  apply orb_false_iff in Hj. destruct Hj as [J1 J2]. now rewrite J1, J2.
Qed.

Lemma fallbackColumnDef_unrecognized (col : Column) :
  mem (data_type col) cdcKnownTypes = false ->
  cd_type (CdcService.fallbackColumnDef col) = "text".
Proof.
  unfold cdcKnownTypes. intros H.
  repeat (apply mem_cons_false in H; let E := fresh "E" in destruct H as [E H]).
  unfold CdcService.fallbackColumnDef. cbn [cd_type]. cbv zeta.
  now rewrite E, E0, E1, E2, E3, E4, E5, E6.
Qed.

Lemma fallbackColumnDef_user_defined (col : Column) :
  data_type col = "USER-DEFINED" ->
  cd_type (CdcService.fallbackColumnDef col)
  = match udt_name col with Some u => u | None => "null" end.
Proof.
  intros H. unfold CdcService.fallbackColumnDef. cbn [cd_type]. cbv zeta.
  rewrite H. reflexivity.
Qed.

Section Builders.
Context {rt : Runtime} {eng : Engine}.

Lemma selectColumns_columnsIn (t : string) (db : Db) :
  selectColumns t db = Done (columnsIn db t).
Proof. reflexivity. Qed.

Lemma createTableWithFallback_quiet (p b : Runner) (t : string) (w : World) :
  side p = Primary -> side b = Backup -> faults w = [] ->
  match createTable t (map CdcService.fallbackColumnDef
                           (columnsIn (primary w) t)) (backup w) with
  | Done db =>
      CdcService.createTableWithFallback p b t w = (Ok tt, set_db Backup w db)
  | Fail e => fst (CdcService.createTableWithFallback p b t w) = Throw e
  end.
Proof.
  intros Hp Hb Hq. unfold CdcService.createTableWithFallback, try_catch, bind.
  rewrite (readDb_quiet _ _ _ Hq), Hp, selectColumns_columnsIn. cbn [db_of].
  rewrite (writeDb_quiet _ _ _ Hq), Hb. cbn [db_of].
  destruct (createTable t _ (backup w)) as [db | e]; reflexivity.
Qed.

Lemma createTableFallback_quiet (p b : Runner) (t : string) (w : World) :
  side p = Primary -> side b = Backup -> faults w = [] ->
  fst (BackupService.createTableFallback p b t w)
  = match columnsIn (primary w) t with
    | [] => Throw ("No columns found for table " ++ t)
    | cols =>
        match createTable t (map BackupService.fallbackColumn cols)
                (backup w) with
        | Done db => Ok tt
        | Fail e => Throw e
        end
    end.
Proof.
  intros Hp Hb Hq. unfold BackupService.createTableFallback.
  unfold try_catch at 1. unfold bind at 1.
  rewrite (readDb_quiet _ _ _ Hq), Hp, selectColumns_columnsIn. cbn [db_of].
  destruct (columnsIn (primary w) t) as [| c cols]; [reflexivity|].
  cbn [BackupService.nonempty negb].
  unfold bind at 1. unfold log at 1. cbv beta iota.
  unfold bind at 1.
  rewrite writeDb_quiet by exact Hq. rewrite Hb. cbn [db_of backup].
  destruct (createTable t _ (backup w)) as [db | e]; [|reflexivity].
  unfold try_catch at 1.
  match goal with
  | |- context [BackupService.copyPrimaryKeyConstraint p b t ?w1] =>
      destruct (BackupService.copyPrimaryKeyConstraint p b t w1)
        as [[[] | e] w2]
  end; reflexivity.
Qed.

End Builders.

(** C4 (amended).  The generic builder of BackupService
    (mapPostgreSQLDataType) gives the type text to a user-defined
    (enum) column and to every column whose native type it has no case
    for; the generic builder of CdcService (createTableWithFallback)
    gives text to every native type it has no case for, but keeps the
    name of the enum type for a USER-DEFINED column.  Without driver
    faults, createTableWithFallback sends its CREATE TABLE for every
    column list and fails only when the server refuses the statement;
    createTableFallback does the same for every column list but the
    empty one, for which it throws. *)
Theorem generic_builders_fall_back_to_text
    {eng : Engine} (col : Column) (p b : Runner) (t : string) (w : World) :
  side p = Primary -> side b = Backup -> faults w = [] ->
  (toLowerCase (data_type col) = "user-defined" ->
   BackupService.mapPostgreSQLDataType col = "text")
  /\ (unrecognizedByBackup col = true ->
      BackupService.mapPostgreSQLDataType col = "text")
  /\ (mem (data_type col) cdcKnownTypes = false ->
      cd_type (CdcService.fallbackColumnDef col) = "text")
  /\ (data_type col = "USER-DEFINED" ->
      cd_type (CdcService.fallbackColumnDef col)
      = match udt_name col with Some u => u | None => "null" end)
  /\ fst (CdcService.createTableWithFallback p b t w)
     = match createTable t (map CdcService.fallbackColumnDef
                              (columnsIn (primary w) t)) (backup w) with
       | Done _ => Ok tt
       | Fail e => Throw e
       end
  /\ fst (BackupService.createTableFallback p b t w)
     = match columnsIn (primary w) t with
       | [] => Throw ("No columns found for table " ++ t)
       | cols =>
           match createTable t (map BackupService.fallbackColumn cols)
                   (backup w) with
           | Done _ => Ok tt
           | Fail e => Throw e
           end
       end.
Proof.
  intros Hp Hb Hq.
  split; [apply mapPostgreSQLDataType_user_defined|].
  split; [apply mapPostgreSQLDataType_unrecognized|].
  split; [apply fallbackColumnDef_unrecognized|].
  split; [apply fallbackColumnDef_user_defined|].
  split; [|now apply createTableFallback_quiet].
  pose proof (createTableWithFallback_quiet p b t w Hp Hb Hq) as H.
  destruct (createTable t _ (backup w)) as [db | e]; [|exact H].
  now rewrite H.
Qed.

Lemma generic_builders_fall_back_to_text_witness :
  BackupService.mapPostgreSQLDataType Sample.moodColumn = "text"
  /\ BackupService.mapPostgreSQLDataType Sample.spotColumn = "text"
  /\ cd_type (CdcService.fallbackColumnDef Sample.spotColumn) = "text"
  /\ fst (BackupService.createTableFallback (eng := Sample.engine)
            Sample.primaryRunner Sample.backupRunner
            "people"
            (Sample.world (Sample.database [("people", Sample.people)])
               (Sample.database []) []))
     = Ok tt.
Proof.
  destruct (generic_builders_fall_back_to_text (eng := Sample.engine)
              Sample.moodColumn
              Sample.primaryRunner Sample.backupRunner "people"
              (Sample.world (Sample.database [("people", Sample.people)])
                 (Sample.database []) [])
              eq_refl eq_refl eq_refl) as (A & _ & _ & _ & _ & F).
  destruct (generic_builders_fall_back_to_text (eng := Sample.engine)
              Sample.spotColumn
              Sample.primaryRunner Sample.backupRunner "people"
              (Sample.world (Sample.database [("people", Sample.people)])
                 (Sample.database []) [])
              eq_refl eq_refl eq_refl) as (_ & U & V & _ & _ & _).
  split; [apply A; reflexivity|].
  split; [apply U; reflexivity|].
  split; [apply V; reflexivity|].
  exact F.
Defined.

Lemma generic_builders_counterexample :
  cd_type (CdcService.fallbackColumnDef Sample.moodColumn) = "mood"
  /\ fst (BackupService.createTableFallback (eng := Sample.engine)
            Sample.primaryRunner Sample.backupRunner
            "ghost"
            (Sample.world (Sample.database [("people", Sample.people)])
               (Sample.database []) []))
     = Throw "No columns found for table ghost".
Proof. split; reflexivity. Qed.

(* ================================================================== *)
(** * Part III.  Further properties of the services                    *)
(* ================================================================== *)

(** ** Exceptions that never leave a method *)

Lemma never_throws_ret {A} (a : A) : never_throws (ret a).
Proof. intros w. now exists a. Qed.

Lemma never_throws_log (lvl : Level) (msg : string) :
  never_throws (log lvl msg).
Proof. intros w. now exists tt. Qed.

Lemma never_throws_release (r : Runner) : never_throws (release r).
Proof. intros w. now exists tt. Qed.

Lemma never_throws_createQueryRunner (s : Side) :
  never_throws (createQueryRunner s).
Proof. intros w. eexists. reflexivity. Qed.

Lemma never_throws_bind {A B} (m : M A) (k : A -> M B) :
  never_throws m -> (forall a, never_throws (k a)) -> never_throws (bind m k).
Proof.
  intros Hm Hk w. unfold bind. destruct (Hm w) as [a Ha].
  destruct (m w) as [[a' | e] w']; simpl in Ha; [|discriminate].
  apply Hk.
Qed.

Lemma never_throws_try_catch {A} (body : M A) (handler : string -> M A) :
  (forall e, never_throws (handler e)) -> never_throws (try_catch body handler).
Proof.
  intros Hh w. unfold try_catch.
  destruct (body w) as [[a | e] w']; [now exists a | apply Hh].
Qed.

Lemma never_throws_try_finally {A} (body : M A) (fin : M unit) :
  never_throws body -> never_throws fin -> never_throws (try_finally body fin).
Proof.
  intros Hb Hf w. unfold try_finally. destruct (Hb w) as [a Ha].
  destruct (body w) as [r w1]. simpl in Ha. subst r.
  destruct (Hf w1) as [u Hu].
  destruct (fin w1) as [[u' | e] w2]; simpl in Hu; [|discriminate].
  now exists a.
Qed.

Lemma never_throws_forM {A} (l : list A) (body : A -> M unit) :
  (forall x, In x l -> never_throws (body x)) -> never_throws (forM_ l body).
Proof.
  induction l as [| x r IH]; intros Hb; cbn [forM_].
  - apply never_throws_ret.
  - apply never_throws_bind; [apply Hb; now left|].
    intros _. apply IH. intros y Hy. apply Hb. now right.
Qed.

Ltac never_throws_step :=
  match goal with
  | |- never_throws (bind _ _) => apply never_throws_bind; [| intros]
  | |- never_throws (try_catch _ _) => apply never_throws_try_catch; intros
  | |- never_throws (try_finally _ _) => apply never_throws_try_finally
  | |- never_throws (ret _) => apply never_throws_ret
  | |- never_throws (log _ _) => apply never_throws_log
  | |- never_throws (release _) => apply never_throws_release
  | |- never_throws (createQueryRunner _) =>
      apply never_throws_createQueryRunner
  | |- never_throws (if ?b then _ else _) => destruct b
  | |- never_throws _ => solve [eauto]
  end.

Ltac never_throws_auto := repeat never_throws_step.

(** The slices of the batching loops are not empty and hold at most
    [n] elements. *)
Lemma chunks_aux_bounds {A} (n : nat) :
  (0 < n)%nat ->
  forall (fuel : nat) (l : list A),
    Forall (fun c => c <> [] /\ (length c <= n)%nat) (chunks_aux fuel n l).
Proof.
  intros Hn. induction fuel as [| f IH]; intros l; cbn [chunks_aux].
  - constructor.
  - destruct l as [| x r]; [constructor|].
    constructor; [|apply IH]. split.
    + destruct n as [| n']; [lia | discriminate].
    + apply firstn_le_length.
Qed.

Section ServicesNeverThrow.
Context {rt : Runtime} {eng : Engine}.



Lemma processBatch_never_throws r t records schema pk :
  records <> [] ->
  never_throws (CdcService.processBatch r t records schema pk).
Proof.
  intros Hne. unfold CdcService.processBatch.
  destruct records as [| first rest]; [contradiction|].
  cbv zeta. destruct (negb _); [apply never_throws_log|].
  apply never_throws_forM. intros record _. never_throws_auto.
Qed.

Lemma getTableSchema_never_throws r t :
  never_throws (CdcService.getTableSchema r t).
Proof. unfold CdcService.getTableSchema. never_throws_auto. Qed.

Lemma getPrimaryKeyColumns_never_throws r t :
  never_throws (CdcService.getPrimaryKeyColumns r t).
Proof. unfold CdcService.getPrimaryKeyColumns. never_throws_auto. Qed.

Lemma upsertRecords_body_never_throws r t records :
  never_throws
    (tableSchema <- CdcService.getTableSchema r t ;;
     if negb (CdcService.nonempty tableSchema) then
       log LError ("Unable to get schema for table " ++ t)
     else
       pkColumns <- CdcService.getPrimaryKeyColumns r t ;;
       forM_ (chunks 50 records) (fun batch =>
         CdcService.processBatch r t batch tableSchema pkColumns)).
Proof.
  apply never_throws_bind; [apply getTableSchema_never_throws|].
  intros schema. destruct (negb _); [apply never_throws_log|].
  apply never_throws_bind; [apply getPrimaryKeyColumns_never_throws|].
  intros pk. apply never_throws_forM. intros batch Hin.
  apply processBatch_never_throws.
  pose proof (chunks_aux_bounds 50 ltac:(lia) (length records) records) as B.
  apply (proj1 (Forall_forall _ _) B batch Hin).
Qed.

Lemma getTablesWithTimestamp_never_throws :
  never_throws CdcService.getTablesWithTimestamp.
Proof. unfold CdcService.getTablesWithTimestamp. never_throws_auto. Qed.

Lemma syncTableChanges_never_throws t :
  never_throws (CdcService.syncTableChanges t).
Proof.
  unfold CdcService.syncTableChanges, CdcService.syncTableChangesTry.
  never_throws_auto.
Qed.

End ServicesNeverThrow.

(** ** Invariants of the two databases

    A property of the two databases is kept by everything that does not
    write, and by a statement of a runner of the backup as soon as the
    statement keeps it. *)

Section DataInvariant.
Variable I : Db -> Db -> Prop.

Let P (w : World) : Prop := I (primary w) (backup w).

Lemma data_roundtrip : preserves P roundtrip.
Proof.
  intros w H. unfold roundtrip.
  destruct (faults w) as [| [e |] f]; exact H.
Qed.

Lemma data_log lvl msg : preserves P (log lvl msg).
Proof. intros w H. exact H. Qed.

Lemma data_read A r (q : Db -> Res A) : preserves P (readDb r q).
Proof.
  unfold readDb. apply preserves_bind; [apply data_roundtrip|].
  intros _ w H. destruct (q (db_of (side r) w)); exact H.
Qed.

Lemma data_connect r : preserves P (connect r).
Proof.
  unfold connect. apply preserves_bind; [apply data_roundtrip|].
  intros _ w H. exact H.
Qed.

Lemma data_release r : preserves P (release r).
Proof. intros w H. exact H. Qed.

Lemma data_createQueryRunner s : preserves P (createQueryRunner s).
Proof. intros w H. exact H. Qed.

Lemma data_write r (q : Db -> Res Db) :
  side r = Backup ->
  (forall p b b', q b = Done b' -> I p b -> I p b') ->
  preserves P (writeDb r q).
Proof.
  intros Hr Hq. unfold writeDb. apply preserves_bind; [apply data_roundtrip|].
  intros _ w H. rewrite Hr. cbn [db_of].
  destruct (q (backup w)) as [db |] eqn:E; [|exact H].
  unfold P. cbn [set_db primary backup snd]. now apply (Hq _ _ _ E).
Qed.

End DataInvariant.

(** A runner made by createQueryRunner is on the side asked for. *)
Lemma preserves_new_runner (P : World -> Prop) {A} (s : Side)
      (k : Runner -> M A) :
  preserves P (createQueryRunner s) ->
  (forall r, side r = s -> preserves P (k r)) ->
  preserves P (bind (createQueryRunner s) k).
Proof.
  intros Hc Hk w H. unfold bind.
  pose proof (Hc w H) as H1. unfold createQueryRunner in *. cbn [snd] in H1.
  now apply Hk.
Qed.

(** *** The primary is only read *)

Section PrimaryKept.
Context {rt : Runtime} {eng : Engine}.
Variable p0 : Db.

Let I (p b : Db) : Prop := p = p0.
Let P (w : World) : Prop := primary w = p0.

Ltac primary_solve :=
  try solve [ apply (data_roundtrip I)
            | apply (data_log I)
            | apply (data_read I)
            | apply (data_release I)
            | intros; apply (data_connect I)
            | intros; apply (data_write I);
              [assumption | intros; assumption]
            | simpl; auto ].

Lemma primary_releases p b : preserves P (release p ;; release b).
Proof. apply preserves_bind; intros; apply (data_release I). Qed.

Lemma primary_backupTable t force :
  preserves P (BackupService.backupTable t force).
Proof.
  unfold BackupService.backupTable.
  apply preserves_new_runner; [apply (data_createQueryRunner I)|].
  intros p _.
  apply preserves_new_runner; [apply (data_createQueryRunner I)|].
  intros b Hb.
  apply preserves_try_finally; [|apply primary_releases].
  apply backup_backupTableTry_preserves
    with (okP := fun _ => True) (okB := fun r => side r = Backup);
    primary_solve.
Qed.

Lemma primary_syncTableChanges t :
  preserves P (CdcService.syncTableChanges t).
Proof.
  unfold CdcService.syncTableChanges.
  apply preserves_new_runner; [apply (data_createQueryRunner I)|].
  intros p _.
  apply preserves_new_runner; [apply (data_createQueryRunner I)|].
  intros b Hb.
  apply preserves_try_finally; [|apply primary_releases].
  apply cdc_syncTableChangesTry_preserves
    with (okP := fun _ => True) (okB := fun r => side r = Backup);
    primary_solve.
Qed.

Lemma primary_getAllTables : preserves P BackupService.getAllTables.
Proof.
  unfold BackupService.getAllTables.
  apply preserves_new_runner; [apply (data_createQueryRunner I)|].
  intros r _.
  pose proof (data_connect I). pose proof (data_read I).
  pose proof (data_release I).
  preserves_auto.
Qed.

Lemma primary_getTablesWithTimestamp :
  preserves P CdcService.getTablesWithTimestamp.
Proof.
  unfold CdcService.getTablesWithTimestamp.
  apply preserves_new_runner; [apply (data_createQueryRunner I)|].
  intros r _.
  pose proof (data_connect I). pose proof (data_read I).
  pose proof (data_release I). pose proof (data_log I).
  preserves_auto.
Qed.

Lemma primary_performFullBackup force :
  preserves P (BackupService.performFullBackup force).
Proof.
  unfold BackupService.performFullBackup.
  pose proof primary_getAllTables. pose proof primary_backupTable.
  pose proof (data_log I).
  preserves_auto.
Qed.

Lemma primary_detectAndSyncChanges :
  preserves P CdcService.detectAndSyncChanges.
Proof.
  unfold CdcService.detectAndSyncChanges.
  pose proof primary_getTablesWithTimestamp.
  pose proof primary_syncTableChanges.
  pose proof (data_log I).
  preserves_auto.
Qed.

End PrimaryKept.

(** *** Runners of the listing queries and of the loops *)

Lemma released_one (w0 : World) (extra : list nat) (r : Runner) (w : World) :
  no_new_runner w0 (rid r :: extra) w ->
  no_new_runner w0 extra (snd (release r w)).
Proof.
  intros H i Hi. simpl in Hi. apply filter_In in Hi. destruct Hi as [Hi Hr].
  destruct (H i Hi) as [Hold | [E | Hex]].
  - now left.
  - subst i. rewrite Nat.eqb_refl in Hr. discriminate.
  - now right.
Qed.

(** A runner that is made, used and then released in a [finally]
    block is not connected afterwards. *)
Lemma runner_scope {A} (w0 : World) (extra : list nat) (s : Side)
      (body : Runner -> M A) :
  (forall r, preserves (no_new_runner w0 (rid r :: extra)) (body r)) ->
  preserves (no_new_runner w0 extra)
    (r <- createQueryRunner s ;; try_finally (body r) (release r)).
Proof.
  intros Hb w H. unfold bind, createQueryRunner. cbn [fst snd].
  set (r := {| rid := nextRunner w; side := s |}).
  unfold try_finally.
  match goal with
  | |- context [body r ?w1] =>
      assert (B : no_new_runner w0 (rid r :: extra) (snd (body r w1)))
  end.
  { apply Hb. intros i Hi. cbn [connected] in Hi.
    destruct (H i Hi) as [Ho | He]; [now left | right; now right]. }
  match goal with
  | |- context [body r ?w1] => destruct (body r w1) as [res w2]
  end.
  cbn [snd] in B. pose proof (released_one w0 extra r w2 B) as R.
  destruct (release r w2) as [[u | e] w3]; exact R.
Qed.

Section LoopsRelease.
Context {rt : Runtime} {eng : Engine}.
Variable w0 : World.

Lemma getAllTables_releases :
  preserves (no_new_runner w0 []) BackupService.getAllTables.
Proof.
  unfold BackupService.getAllTables. apply runner_scope. intros r.
  apply preserves_bind; [apply runners_connect; now left|].
  intros _. apply runners_read.
Qed.

Lemma getTablesWithTimestamp_releases :
  preserves (no_new_runner w0 []) CdcService.getTablesWithTimestamp.
Proof.
  unfold CdcService.getTablesWithTimestamp. apply runner_scope. intros r.
  apply preserves_try_catch.
  - apply preserves_bind; [apply runners_connect; now left|].
    intros _. apply runners_read.
  - intros e. apply preserves_bind; [apply runners_log|].
    intros _. apply preserves_ret.
Qed.

Lemma performFullBackup_releases force :
  preserves (no_new_runner w0 []) (BackupService.performFullBackup force).
Proof.
  unfold BackupService.performFullBackup.
  pose proof getAllTables_releases.
  pose proof (backupTable_releases w0).
  pose proof (runners_log w0 []).
  preserves_auto.
Qed.

Lemma detectAndSyncChanges_releases :
  preserves (no_new_runner w0 []) CdcService.detectAndSyncChanges.
Proof.
  unfold CdcService.detectAndSyncChanges.
  pose proof getTablesWithTimestamp_releases.
  pose proof (syncTableChanges_releases w0).
  pose proof (runners_log w0 []).
  preserves_auto.
Qed.

End LoopsRelease.

Lemma no_new_runner_refl (w : World) : no_new_runner w [] w.
Proof. intros i Hi. now left. Qed.

Lemma never_throws_unit (m : M unit) (w : World) :
  never_throws m -> fst (m w) = Ok tt.
Proof. intros H. destruct (H w) as [[] E]. exact E. Qed.

(** ** The loops over the tables *)




Section TypeLookup.
Context {rt : Runtime}.



End TypeLookup.


Lemma upsertRecords_returns
      {rt : Runtime} {eng : Engine}
      (r : Runner) (tableName : string) (records : list Row) :
  never_throws (CdcService.upsertRecords r tableName records).
Proof.
  unfold CdcService.upsertRecords.
  destruct (negb (CdcService.nonempty records)); [apply never_throws_ret|].
  intros w. unfold try_catch.
  destruct (upsertRecords_body_never_throws r tableName records w) as [[] E].
  match goal with
  | |- context [bind ?m ?k w] =>
      change (fst (bind m k w) = Ok tt) in E;
      destruct (bind m k w) as [[u | e] w']
  end; cbn [fst] in E; [now exists u | discriminate].
Qed.

(** X2.  upsertRecords returns normally from every world: the schema
    and the primary-key queries answer with an empty list when they
    fail, no batch handed to processBatch is empty, and a record whose
    statement fails is logged and skipped.  The catch block of
    upsertRecords, which rethrows, is never entered. *)
Theorem upsertRecords_never_throws
    {rt : Runtime} {eng : Engine}
    (r : Runner) (tableName : string) (records : list Row) :
  never_throws (CdcService.upsertRecords r tableName records).
Proof. apply upsertRecords_returns. Qed.

Section LoopOutcomes.
Context {rt : Runtime} {eng : Engine}.

Lemma detectAndSyncChanges_never_throws :
  never_throws CdcService.detectAndSyncChanges.
Proof.
  intros w1.
  unfold CdcService.detectAndSyncChanges, try_catch.
  assert (B : never_throws
                (tables <- CdcService.getTablesWithTimestamp ;;
                 if negb (CdcService.nonempty tables) then ret tt
                 else
                   forM_ (chunks 3 tables) (fun batch =>
                     forM_ batch (fun table =>
                       try_catch
                         (CdcService.syncTableChanges table)
                         (fun e =>
                            log LError ("Failed to sync table " ++ table
                                        ++ ": " ++ e)))))).
  { apply never_throws_bind; [apply getTablesWithTimestamp_never_throws|].
    intros tables. destruct (negb _); [apply never_throws_ret|].
    apply never_throws_forM. intros batch _.
    apply never_throws_forM. intros table _.
    apply never_throws_try_catch. intros e. apply never_throws_log. }
  destruct (B w1) as [[] E].
  match goal with
  | |- context [bind ?m ?k w1] =>
      change (fst (bind m k w1) = Ok tt) in E;
      destruct (bind m k w1) as [[u | e] w']
  end; cbn [fst] in E; [now exists u | discriminate].
Qed.

(** performFullBackup ends as its listing does when the listing
    throws, and normally otherwise. *)
Lemma performFullBackup_outcome (force : bool) (w : World) :
  match BackupService.getAllTables w with
  | (Ok _, _) => fst (BackupService.performFullBackup force w) = Ok tt
  | (Throw e, w1) => BackupService.performFullBackup force w = (Throw e, w1)
  end.
Proof.
  unfold BackupService.performFullBackup, bind at 1 3.
  destruct (BackupService.getAllTables w) as [[tables | e] w1];
    [|reflexivity].
  apply never_throws_unit. apply never_throws_forM. intros table _.
  apply never_throws_try_catch. intros e. apply never_throws_log.
Qed.

End LoopOutcomes.

(** X3.  One change-detection cycle returns normally from every world:
    a failure of the table listing gives an empty list and a failure
    inside the synchronization of one table is logged, the remaining
    tables being synchronized.  The cycle leaves the primary as it was
    and leaves connected no runner that was not connected before.
    monitorChanges runs exactly one such cycle when monitoring is on
    (its catch block is never entered) and does nothing when it is
    off. *)
Theorem change_detection_cycle_safe
    {rt : Runtime} {eng : Engine} (w : World) :
  fst (CdcService.detectAndSyncChanges w) = Ok tt
  /\ primary (snd (CdcService.detectAndSyncChanges w)) = primary w
  /\ no_new_runner w [] (snd (CdcService.detectAndSyncChanges w))
  /\ CdcService.monitorChanges true w = CdcService.detectAndSyncChanges w
  /\ CdcService.monitorChanges false w = (Ok tt, w).
Proof.
  pose proof (never_throws_unit _ w detectAndSyncChanges_never_throws) as E.
  split; [exact E|]. split; [|split; [|split]].
  - now apply (primary_detectAndSyncChanges (primary w)).
  - apply detectAndSyncChanges_releases. apply no_new_runner_refl.
  - unfold CdcService.monitorChanges. cbn [negb]. unfold try_catch.
    destruct (CdcService.detectAndSyncChanges w) as [[[] | e] w'];
      [reflexivity | discriminate].
  - reflexivity.
Qed.

(** X4.  performFullBackup throws only when the listing of the tables
    does, and then with the listing's exception: a table whose backup
    fails is logged and the loop goes on.  On every path the primary is
    left as it was and no runner that was not connected before is left
    connected. *)
Theorem performFullBackup_isolates_tables
    {rt : Runtime} {eng : Engine} (forceRecreate : bool) (w : World) :
  match BackupService.getAllTables w with
  | (Ok _, _) => fst (BackupService.performFullBackup forceRecreate w) = Ok tt
  | (Throw e, w1) =>
      BackupService.performFullBackup forceRecreate w = (Throw e, w1)
  end
  /\ primary (snd (BackupService.performFullBackup forceRecreate w))
     = primary w
  /\ no_new_runner w []
       (snd (BackupService.performFullBackup forceRecreate w)).
Proof.
  split; [apply performFullBackup_outcome|]. split.
  - now apply (primary_performFullBackup (primary w)).
  - apply performFullBackup_releases. apply no_new_runner_refl.
Qed.

(** X5.  The two scheduled jobs return normally from every world.  The
    hourly job ends its log with the success message as soon as the
    tables could be listed, whatever happened to the backup of each
    table, and with the error of the listing otherwise; the daily job
    does the same after a forced full backup and the clean-up message.
    Both leave the primary as it was and no new runner connected. *)
Theorem scheduled_backups_report
    {rt : Runtime} {eng : Engine} (w : World) :
  let hourly := BackupService.performScheduledBackup w in
  let daily := BackupService.performDailyFullBackup w in
  fst hourly = Ok tt
  /\ fst daily = Ok tt
  /\ logs (snd hourly)
     = logs (snd (BackupService.performFullBackup false w))
       ++ match fst (BackupService.getAllTables w) with
          | Ok _ => [(LLog, "Hourly backup completed successfully")]
          | Throw e => [(LError, "Scheduled backup failed: " ++ e)%string]
          end
  /\ logs (snd daily)
     = logs (snd (BackupService.performFullBackup true w))
       ++ match fst (BackupService.getAllTables w) with
          | Ok _ => [(LLog, "Cleanup old backups completed");
                     (LLog, "Daily full backup completed successfully")]
          | Throw e => [(LError, "Daily full backup failed: " ++ e)%string]
          end
  /\ primary (snd hourly) = primary w
  /\ primary (snd daily) = primary w
  /\ no_new_runner w [] (snd hourly)
  /\ no_new_runner w [] (snd daily).
Proof.
  intros hourly daily.
  pose proof (performFullBackup_outcome false w) as Oh.
  pose proof (performFullBackup_outcome true w) as Od.
  pose proof (primary_performFullBackup (primary w) false w eq_refl) as Ph.
  pose proof (primary_performFullBackup (primary w) true w eq_refl) as Pd.
  pose proof (performFullBackup_releases w false w (no_new_runner_refl w))
    as Rh.
  pose proof (performFullBackup_releases w true w (no_new_runner_refl w))
    as Rd.
  unfold hourly, daily, BackupService.performScheduledBackup,
    BackupService.performDailyFullBackup, BackupService.cleanupOldBackups,
    try_catch, bind, log.
  destruct (BackupService.getAllTables w) as [[tables | e] w1].
  - destruct (BackupService.performFullBackup false w) as [[[] | eh] wh];
      cbn [fst] in Oh; [|discriminate].
    destruct (BackupService.performFullBackup true w) as [[[] | ed] wd];
      cbn [fst] in Od; [|discriminate].
    cbn [fst snd logs primary connected] in *.
    rewrite <- app_assoc. repeat split; assumption.
  - rewrite Oh, Od in *. cbn [fst snd logs primary connected] in *.
    repeat split; assumption.
Qed.

(** X6.  The manual backup endpoint always answers.  With a table name
    it answers success when backupTable returns and failure with the
    message of its exception otherwise.  Without one, or with an empty
    one, it runs a full backup and answers failure only when the tables
    could not be listed: the failed backup of a table does not show in
    the answer.  The backup is forced only by the exact text [true].
    The primary is left as it was and no new runner is left
    connected. *)
Theorem triggerManualBackup_answer
    {rt : Runtime} {eng : Engine}
    (table force : option string) (w : World) :
  let forced := match force with
                | Some f => String.eqb f "true"
                | None => false
                end in
  let r := BackupController.triggerManualBackup table force w in
  exists answer,
    fst r = Ok answer
    /\ match table with
       | Some (String c s) =>
           match fst (BackupService.backupTable (String c s) forced w) with
           | Ok _ =>
               answer
               = {| BackupController.success := true;
                    BackupController.message :=
                      Some ("Backup completed for table: " ++ String c s)%string;
                    BackupController.data := None |}
           | Throw e =>
               answer
               = {| BackupController.success := false;
                    BackupController.message := Some e;
                    BackupController.data := None |}
           end
       | _ =>
           match fst (BackupService.getAllTables w) with
           | Ok _ =>
               answer
               = {| BackupController.success := true;
                    BackupController.message :=
                      Some "Full backup completed successfully";
                    BackupController.data := None |}
           | Throw e =>
               answer
               = {| BackupController.success := false;
                    BackupController.message := Some e;
                    BackupController.data := None |}
           end
       end
    /\ primary (snd r) = primary w
    /\ no_new_runner w [] (snd r).
Proof.
  intros forced r.
  assert (Full : exists answer,
             fst (try_catch
                    (BackupService.performFullBackup forced ;;
                     ret {| BackupController.success := true;
                            BackupController.message :=
                              Some "Full backup completed successfully";
                            BackupController.data := @None unit |})
                    (fun e =>
                       log LError ("Manual backup failed: " ++ e) ;;
                       ret {| BackupController.success := false;
                              BackupController.message := Some e;
                              BackupController.data := None |}) w)
             = Ok answer
             /\ match fst (BackupService.getAllTables w) with
                | Ok _ =>
                    answer
                    = {| BackupController.success := true;
                         BackupController.message :=
                           Some "Full backup completed successfully";
                         BackupController.data := None |}
                | Throw e =>
                    answer
                    = {| BackupController.success := false;
                         BackupController.message := Some e;
                         BackupController.data := None |}
                end
             /\ primary (snd (try_catch
                    (BackupService.performFullBackup forced ;;
                     ret {| BackupController.success := true;
                            BackupController.message :=
                              Some "Full backup completed successfully";
                            BackupController.data := @None unit |})
                    (fun e =>
                       log LError ("Manual backup failed: " ++ e) ;;
                       ret {| BackupController.success := false;
                              BackupController.message := Some e;
                              BackupController.data := None |}) w))
                = primary w
             /\ no_new_runner w []
                  (snd (try_catch
                    (BackupService.performFullBackup forced ;;
                     ret {| BackupController.success := true;
                            BackupController.message :=
                              Some "Full backup completed successfully";
                            BackupController.data := @None unit |})
                    (fun e =>
                       log LError ("Manual backup failed: " ++ e) ;;
                       ret {| BackupController.success := false;
                              BackupController.message := Some e;
                              BackupController.data := None |}) w))).
  { pose proof (performFullBackup_outcome forced w) as O.
    pose proof (primary_performFullBackup (primary w) forced w eq_refl) as Pp.
    pose proof (performFullBackup_releases w forced w (no_new_runner_refl w))
      as R.
    unfold try_catch, bind, log, ret.
    destruct (BackupService.getAllTables w) as [[tables | e] w1].
    - destruct (BackupService.performFullBackup forced w) as [[[] | e] w2];
        cbn [fst] in O; [|discriminate].
      eexists. cbn [fst snd] in *. repeat split; assumption.
    - rewrite O in *. eexists. cbn [fst snd primary connected] in *.
      repeat split; assumption. }
  unfold r, BackupController.triggerManualBackup. fold forced.
  destruct table as [[| c s] |]; [exact Full | | exact Full].
  pose proof (primary_backupTable (primary w) (String c s) forced w eq_refl)
    as Pp.
  pose proof (backupTable_releases w (String c s) forced w
                (no_new_runner_refl w)) as R.
  unfold try_catch, bind, log, ret.
  destruct (BackupService.backupTable (String c s) forced w)
    as [[[] | e] w2]; eexists; cbn [fst snd primary connected] in *;
    repeat split; assumption.
Qed.

(** ** The health report of CdcService *)

(** A connection probe: connect, release, and the entry for either
    outcome. *)
Lemma probe_outcome {A} (r : Runner) (up : A) (down : string -> A) (w : World) :
  exists res w',
    try_catch (connect r ;; release r ;; ret up) (fun e => ret (down e)) w
    = (Ok res, w')
    /\ (res = up \/ exists e, res = down e)
    /\ primary w' = primary w /\ backup w' = backup w
    /\ (forall i, In i (connected w') -> In i (connected w)).
Proof.
  assert (F : forall i, In i (filter (fun i => negb (Nat.eqb i (rid r)))
                                (rid r :: connected w)) ->
                        In i (connected w)).
  { intros i Hi. apply filter_In in Hi. destruct Hi as [[E | Hi] Hr].
    - subst i. rewrite Nat.eqb_refl in Hr. discriminate.
    - exact Hi. }
  unfold try_catch, connect, release, roundtrip, ret, bind.
  destruct w as [pr bk fl nr cn lg]. cbn [faults connected] in *.
  destruct fl as [| [e |] f];
    cbn [fst snd set_connected set_faults connected primary backup faults
         nextRunner logs];
    eexists; eexists; (split; [reflexivity|]).
  - split; [now left|]. repeat split. exact F.
  - split; [right; now exists e|]. repeat split. cbn [connected]. auto.
  - split; [now left|]. repeat split. exact F.
Qed.

Section HealthReport.
Context {rt : Runtime} {eng : Engine}.

Lemma getTablesWithTimestamp_data (w : World) :
  primary (snd (CdcService.getTablesWithTimestamp w)) = primary w
  /\ backup (snd (CdcService.getTablesWithTimestamp w)) = backup w.
Proof.
  assert (H : preserves (fun x => primary x = primary w /\ backup x = backup w)
                CdcService.getTablesWithTimestamp).
  { unfold CdcService.getTablesWithTimestamp.
    pose (I := fun p b : Db => p = primary w /\ b = backup w).
    apply preserves_new_runner; [apply (data_createQueryRunner I)|].
    intros r _.
    pose proof (data_connect I). pose proof (data_read I).
    pose proof (data_release I). pose proof (data_log I).
    preserves_auto. }
  apply H. now split.
Qed.

End HealthReport.

(** X7.  The health report of CdcService is always returned.  Its
    list of errors is empty exactly when both connections could be
    made; the monitored tables are listed only when the primary could
    be connected; the check writes to neither database and leaves
    connected no runner that was not connected before. *)
Theorem getHealthStatus_report (monitoring : bool) (w : World) :
  exists st w',
    CdcService.getHealthStatus monitoring w = (Ok st, w')
    /\ CdcService.isMonitoring st = monitoring
    /\ (CdcService.errors st = [] <->
        CdcService.isConnected st "primary" = true
        /\ CdcService.isConnected st "backup" = true)
    /\ (CdcService.isConnected st "primary" = false ->
        CdcService.monitored st = [])
    /\ primary w' = primary w /\ backup w' = backup w
    /\ no_new_runner w [] w'.
Proof.
  unfold CdcService.getHealthStatus. cbv zeta.
  set (st0 := {| CdcService.isMonitoring := monitoring;
                 CdcService.databases := [];
                 CdcService.monitored := [];
                 CdcService.errors := [] |}).
  set (pr := {| rid := nextRunner w; side := Primary |}).
  set (wp := snd (createQueryRunner Primary w)).
  destruct (probe_outcome pr
              (CdcService.setDatabase st0 "primary"
                 {| CdcService.db_connected := true;
                    CdcService.db_error := None |})
              (fun e =>
                 CdcService.pushError
                   (CdcService.setDatabase st0 "primary"
                      {| CdcService.db_connected := false;
                         CdcService.db_error := Some e |})
                   ("Primary database connection failed: " ++ e)) wp)
    as (st1 & w1 & E1 & C1 & P1 & B1 & R1).
  set (br := {| rid := nextRunner w1; side := Backup |}).
  set (wb := snd (createQueryRunner Backup w1)).
  destruct (probe_outcome br
              (CdcService.setDatabase st1 "backup"
                 {| CdcService.db_connected := true;
                    CdcService.db_error := None |})
              (fun e =>
                 CdcService.pushError
                   (CdcService.setDatabase st1 "backup"
                      {| CdcService.db_connected := false;
                         CdcService.db_error := Some e |})
                   ("Backup database connection failed: " ++ e)) wb)
    as (st2 & w2 & E2 & C2 & P2 & B2 & R2).
  pose proof (getTablesWithTimestamp_never_throws w2) as [tables Et].
  pose proof (getTablesWithTimestamp_data w2) as [Pt Bt].
  pose proof (getTablesWithTimestamp_releases w2 w2 (no_new_runner_refl w2))
    as Rt.
  destruct (CdcService.getTablesWithTimestamp w2) as [res w3] eqn:Eg.
  cbn [fst snd] in Et, Pt, Bt, Rt. subst res.
  (* the report and the world at the end *)
  exists (if CdcService.isConnected st2 "primary"
          then {| CdcService.isMonitoring := CdcService.isMonitoring st2;
                  CdcService.databases := CdcService.databases st2;
                  CdcService.monitored := tables;
                  CdcService.errors := CdcService.errors st2 |}
          else st2),
         (if CdcService.isConnected st2 "primary" then w3 else w2).
  split.
  { apply try_catch_ok.
    unfold bind at 1.
    change (createQueryRunner Primary w) with (Ok pr, wp).
    cbv beta iota.
    rewrite (bind_ok _ _ _ _ _ E1).
    apply try_catch_ok.
    unfold bind at 1.
    change (createQueryRunner Backup w1) with (Ok br, wb).
    cbv beta iota.
    rewrite (bind_ok _ _ _ _ _ E2).
    apply try_catch_ok.
    destruct (CdcService.isConnected st2 "primary"); [|reflexivity].
    unfold bind. rewrite Eg. reflexivity. }
  assert (Hw : primary w2 = primary w /\ backup w2 = backup w
               /\ no_new_runner w [] w2).
  { split; [exact (eq_trans P2 P1)|]. split; [exact (eq_trans B2 B1)|].
    intros i Hi. left. exact (R1 i (R2 i Hi)). }
  destruct Hw as [Hp [Hb Hr]].
  assert (Hst : CdcService.isMonitoring st2 = monitoring
                /\ (CdcService.errors st2 = [] <->
                    CdcService.isConnected st2 "primary" = true
                    /\ CdcService.isConnected st2 "backup" = true)
                /\ CdcService.monitored st2 = []).
  { destruct C1 as [-> | [e1 ->]]; destruct C2 as [-> | [e2 ->]];
      (split; [reflexivity|]); (split; [|reflexivity]);
      unfold CdcService.isConnected; cbn;
      (split; [intros H; try discriminate H; now split
              | intros [H1 H2]; try discriminate H1; try discriminate H2;
                reflexivity]). }
  destruct Hst as [Hm [He Ht]].
  destruct (CdcService.isConnected st2 "primary") eqn:Ec.
  - cbn [CdcService.isMonitoring CdcService.errors CdcService.monitored].
    split; [exact Hm|]. split.
    + unfold CdcService.isConnected in *.
      cbn [CdcService.databases]. rewrite Ec. exact He.
    + split.
      * unfold CdcService.isConnected in *. cbn [CdcService.databases].
        rewrite Ec. discriminate.
      * split; [now rewrite Pt|]. split; [now rewrite Bt|].
        intros i Hi. destruct (Rt i Hi) as [H | []]. now apply Hr.
  - split; [exact Hm|]. split; [rewrite Ec; exact He|].
    split; [intros _; exact Ht|].
    split; [exact Hp|]. split; [exact Hb | exact Hr].
Qed.

(** ** Value coercion beyond the boolean columns *)

Section CoercionFacts.
Context {rt : Runtime}.

Lemma one_of_json (t : string) :
  one_of t ["json"; "jsonb"] = true -> t = "json" \/ t = "jsonb".
Proof.
  unfold one_of. cbn [existsb]. intros H.
  apply orb_true_iff in H. destruct H as [H | H].
  - left. now apply String.eqb_eq.
  - apply orb_true_iff in H. destruct H as [H | H]; [|discriminate].
    right. now apply String.eqb_eq.
Qed.

Lemma processColumnValue_not_null (value : JsValue) (dataType : string) :
  is_nullish value = false -> processColumnValue value dataType <> JNull.
Proof.
  intros Hn. unfold processColumnValue, coerceBoolean.
  destruct value; try discriminate Hn;
    repeat match goal with
           | |- context [if ?b then _ else _] => destruct b
           | |- context [match Date_parse ?s with _ => _ end] =>
               destruct (Date_parse s)
           end; discriminate.
Qed.

Lemma processValueForInsertion_not_null (value : JsValue)
      (dataType : option string) :
  is_nullish value = false ->
  processValueForInsertion value dataType <> JNull.
Proof.
  intros Hn. unfold processValueForInsertion, coerceBoolean.
  destruct value; try discriminate Hn;
    repeat match goal with
           | |- context [if ?b then _ else _] => destruct b
           | |- context [match Date_parse ?s with _ => _ end] =>
               destruct (Date_parse s)
           end; discriminate.
Qed.

End CoercionFacts.

(** X8.  In both services the coercion of a value gives NULL exactly
    when the value is null or undefined, whatever the type of the
    column: no other value is turned into NULL. *)
Theorem coercion_null_iff_nullish
    {rt : Runtime} (value : JsValue) (dataType : string)
    (columnType : option string) :
  (processColumnValue value dataType = JNull <-> is_nullish value = true)
  /\ (processValueForInsertion value columnType = JNull
      <-> is_nullish value = true).
Proof.
  split; split.
  - intros H. destruct (is_nullish value) eqn:E; [reflexivity|].
    now destruct (processColumnValue_not_null value dataType E).
  - destruct value; try discriminate; reflexivity.
  - intros H. destruct (is_nullish value) eqn:E; [reflexivity|].
    now destruct (processValueForInsertion_not_null value columnType E).
  - destruct value; try discriminate; reflexivity.
Qed.

(** X9.  Coercing a value that is already coerced changes nothing.
    This holds for processColumnValue on every value and type, and for
    processValueForInsertion on every column that is not a JSON column,
    or on all columns when JSON.parse accepts every text JSON.stringify
    produces. *)
Theorem coercion_idempotent
    {rt : Runtime} (value : JsValue) (dataType : string)
    (columnType : option string) :
  processColumnValue (processColumnValue value dataType) dataType
  = processColumnValue value dataType
  /\ (match columnType with
      | Some ty => one_of (toLowerCase ty) ["json"; "jsonb"] = false
      | None => True
      end
      \/ (forall v, JSON_parses (JSON_stringify v) = true) ->
      processValueForInsertion (processValueForInsertion value columnType)
        columnType
      = processValueForInsertion value columnType).
Proof.
  split.
  - unfold processColumnValue, coerceBoolean.
    set (b1 := one_of (toLowerCase dataType) ["bigint"; "integer"; "smallint"]).
    set (b2 := one_of (toLowerCase dataType)
                 ["numeric"; "decimal"; "real"; "double precision"]).
    set (b3 := one_of (toLowerCase dataType) ["boolean"]).
    set (b4 := one_of (toLowerCase dataType)
                 ["timestamp without time zone"; "timestamp with time zone";
                  "date"]).
    set (b5 := one_of (toLowerCase dataType) ["json"; "jsonb"]).
    destruct value; try reflexivity;
      destruct b1, b2, b3, b4, b5; cbn; try reflexivity;
      try (destruct (Date_parse s) eqn:E; cbn; rewrite ?E; reflexivity);
      try (destruct isArray; reflexivity);
      try (destruct b; reflexivity).
    all: destruct (String.eqb (toLowerCase s) "true" || String.eqb s "1"
                   || String.eqb s "t"); reflexivity.
  - intros H. unfold processValueForInsertion, coerceBoolean.
    destruct columnType as [ty |].
    + set (b0 := one_of (toLowerCase ty) ["json"; "jsonb"]) in *.
      set (b1 := one_of (toLowerCase ty) ["integer"; "bigint"; "smallint"]).
      set (b2 := one_of (toLowerCase ty)
                   ["numeric"; "decimal"; "real"; "double precision"]).
      set (b3 := one_of (toLowerCase ty) ["boolean"]).
      set (b4 := one_of (toLowerCase ty)
                   ["timestamp without time zone"; "timestamp with time zone";
                    "date"]).
      cbn [andb].
      destruct b0.
      * destruct H as [H | H]; [discriminate|].
        destruct value; try reflexivity; cbn;
          rewrite ?H; try reflexivity.
        destruct (JSON_parses s) eqn:E; cbn; rewrite ?E, ?H; reflexivity.
      * clear H.
        destruct value; try reflexivity;
          destruct b1, b2, b3, b4; cbn; try reflexivity;
          try (destruct (Date_parse s) eqn:E; cbn; rewrite ?E; reflexivity);
          try (destruct isArray; reflexivity);
          try (destruct b; reflexivity).
        all: destruct (String.eqb (toLowerCase s) "true" || String.eqb s "1"
                       || String.eqb s "t"); reflexivity.
    + clear H. cbn [andb].
      destruct value; try reflexivity.
      destruct isArray; reflexivity.
Qed.

Lemma coercion_idempotent_witness :
  processValueForInsertion (rt := Sample.runtime)
    (processValueForInsertion (rt := Sample.runtime) (JStr "42")
       (Some "integer"))
    (Some "integer")
  = processValueForInsertion (rt := Sample.runtime) (JStr "42")
      (Some "integer").
Proof.
  apply (proj2 (coercion_idempotent (rt := Sample.runtime) (JStr "42") ""
                  (Some "integer"))).
  left. reflexivity.
Defined.

(** X10.  On a text the two services coerce alike: for every type and
    every string the value BackupService binds is the one CdcService
    binds, except on a JSON column for a text that JSON.parse rejects
    (which BackupService stringifies and CdcService passes as it
    is). *)
Theorem coercions_agree_on_strings
    {rt : Runtime} (s dataType : string) :
  one_of (toLowerCase dataType) ["json"; "jsonb"] = false
  \/ JSON_parses s = true ->
  processValueForInsertion (JStr s) (Some dataType)
  = processColumnValue (JStr s) dataType.
Proof.
  intros H. unfold processValueForInsertion, processColumnValue.
  cbn [andb].
  destruct (one_of (toLowerCase dataType) ["json"; "jsonb"]) eqn:J.
  - destruct H as [H | H]; [discriminate|]. rewrite H.
    destruct (one_of_json _ J) as [-> | ->]; reflexivity.
  - clear H.
    destruct (one_of (toLowerCase dataType) ["integer"; "bigint"; "smallint"])
      eqn:I1.
    + replace (one_of (toLowerCase dataType) ["bigint"; "integer"; "smallint"])
        with true; [reflexivity|].
      revert I1. unfold one_of. cbn [existsb].
      destruct (String.eqb (toLowerCase dataType) "integer"),
               (String.eqb (toLowerCase dataType) "bigint"),
               (String.eqb (toLowerCase dataType) "smallint");
        cbn; congruence.
    + replace (one_of (toLowerCase dataType) ["bigint"; "integer"; "smallint"])
        with false; [|].
      * destruct (one_of (toLowerCase dataType)
                    ["numeric"; "decimal"; "real"; "double precision"]);
          [reflexivity|].
        destruct (one_of (toLowerCase dataType) ["boolean"]); [reflexivity|].
        destruct (one_of (toLowerCase dataType)
                    ["timestamp without time zone";
                     "timestamp with time zone"; "date"]); reflexivity.
      * revert I1. unfold one_of. cbn [existsb].
        destruct (String.eqb (toLowerCase dataType) "integer"),
                 (String.eqb (toLowerCase dataType) "bigint"),
                 (String.eqb (toLowerCase dataType) "smallint");
          cbn; congruence.
Qed.

Lemma coercions_agree_on_strings_witness :
  processValueForInsertion (rt := Sample.runtime) (JStr "42") (Some "BigInt")
  = processColumnValue (rt := Sample.runtime) (JStr "42") "BigInt".
Proof.
  apply (coercions_agree_on_strings (rt := Sample.runtime)).
  left. reflexivity.
Defined.

(** ** Integers that arrive as text *)

Lemma digits_acc (d : Decimal.uint) :
  forall acc : positive,
    digits (Some (Z.pos acc)) (NilEmpty.string_of_uint d)
    = Some (Z.pos (Pos.of_uint_acc d acc)).
Proof.
  induction d as [| d IH | d IH | d IH | d IH | d IH | d IH | d IH | d IH
                  | d IH | d IH]; intros acc;
    cbn [NilEmpty.string_of_uint Pos.of_uint_acc];
    [reflexivity | ..];
    rewrite <- IH; unfold digits at 1; fold digits;
    match goal with
    | |- context [digit_of ?c] =>
        let v := eval vm_compute in (digit_of c) in
        change (digit_of c) with v
    end;
    cbv iota beta; do 2 f_equal; lia.
Qed.

Lemma digits_zero (d : Decimal.uint) :
  digits (Some 0) (NilEmpty.string_of_uint d) = Some (Z.of_N (Pos.of_uint d)).
Proof.
  induction d as [| d IH | d IH | d IH | d IH | d IH | d IH | d IH | d IH
                  | d IH | d IH];
    cbn [NilEmpty.string_of_uint Pos.of_uint];
    [reflexivity | exact IH | ..];
    unfold digits at 1; fold digits;
    match goal with
    | |- context [digit_of ?c] =>
        let v := eval vm_compute in (digit_of c) in
        change (digit_of c) with v
    end;
    cbv iota beta; cbn [Z.of_N]; apply digits_acc.
Qed.

(** The decimal text of a positive number is read back by parseInt's
    digit loop; it starts with a digit. *)
Lemma parseInt_to_uint (p : positive) (neg : bool) :
  let s := NilZero.string_of_uint (Pos.to_uint p) in
  skip_ws s = s
  /\ digits None s = Some (Z.pos p)
  /\ match s with
     | String c _ => Ascii.eqb c "-" = false /\ Ascii.eqb c "+" = false
     | EmptyString => False
     end.
Proof.
  pose proof (DecimalZ.of_to (Z.pos p)) as V.
  cbn [Z.to_int Z.of_int] in V. unfold Z.of_uint in V.
  pose proof (DecimalPos.Unsigned.to_uint_nonnil p) as N.
  cbv zeta.
  destruct (Pos.to_uint p) as [| d | d | d | d | d | d | d | d | d | d];
    [contradiction | ..];
    (split; [reflexivity|]); (split; [|split; reflexivity]);
    rewrite <- V;
    match goal with
    | |- digits None (NilZero.string_of_uint ?u) = _ =>
        change (digits None (NilZero.string_of_uint u))
          with (digits (Some 0) (NilEmpty.string_of_uint u))
    end;
    apply digits_zero.
Qed.

Lemma parseInt_string_of_Z (z : Z) : parseInt (string_of_Z z) = of_Z z.
Proof.
  unfold string_of_Z. destruct z as [| p | p]; [reflexivity | |].
  - cbn [Z.to_int NilZero.string_of_int].
    destruct (parseInt_to_uint p false) as [Hw [Hd Hc]].
    unfold parseInt. rewrite Hw.
    destruct (NilZero.string_of_uint (Pos.to_uint p)) as [| c r];
      [contradiction|].
    destruct Hc as [Hm Hp].
    destruct c as [[] [] [] [] [] [] [] []];
      try discriminate Hm; try discriminate Hp;
      rewrite Hd; reflexivity.
  - cbn [Z.to_int NilZero.string_of_int].
    destruct (parseInt_to_uint p true) as [Hw [Hd Hc]].
    unfold parseInt.
    change (skip_ws (String "-" (NilZero.string_of_uint (Pos.to_uint p))))
      with (String "-" (NilZero.string_of_uint (Pos.to_uint p))).
    cbv iota beta. rewrite Hd. reflexivity.
Qed.

(** X11.  An integer that arrives as its decimal text (the way the
    driver delivers a bigint) is bound as a number by both services:
    for a column of an integer type the text of [z] is coerced to the
    JavaScript number of [z], the double nearest to it. *)
Theorem integer_text_round_trip
    {rt : Runtime} (z : Z) (dataType : string) :
  one_of (toLowerCase dataType) ["bigint"; "integer"; "smallint"] = true ->
  processColumnValue (JStr (string_of_Z z)) dataType = num z
  /\ processValueForInsertion (JStr (string_of_Z z)) (Some dataType) = num z.
Proof.
  intros H. unfold processColumnValue, processValueForInsertion.
  rewrite H. cbn [andb]. rewrite parseInt_string_of_Z.
  split; [reflexivity|].
  assert (T : toLowerCase dataType = "bigint"
              \/ toLowerCase dataType = "integer"
              \/ toLowerCase dataType = "smallint").
  { revert H. unfold one_of. cbn [existsb]. intros H.
    apply orb_true_iff in H. destruct H as [H | H];
      [left; now apply String.eqb_eq|].
    apply orb_true_iff in H. destruct H as [H | H];
      [right; left; now apply String.eqb_eq|].
    apply orb_true_iff in H. destruct H as [H | H]; [|discriminate].
    right; right; now apply String.eqb_eq. }
  destruct T as [-> | [-> | ->]]; reflexivity.
Qed.

Lemma integer_text_round_trip_witness :
  processColumnValue (rt := Sample.runtime)
    (JStr (string_of_Z 9007199254740993)) "bigint"
  = num 9007199254740993
  /\ processValueForInsertion (rt := Sample.runtime)
       (JStr (string_of_Z 9007199254740993)) (Some "bigint")
     = num 9007199254740993.
Proof.
  apply (integer_text_round_trip (rt := Sample.runtime)). reflexivity.
Defined.

(** ** The rows written to the log *)

Lemma length16_append (a b : string) :
  length16 (a ++ b) = (length16 a + length16 b)%nat.
Proof.
  induction a as [| c a IH]; cbn [append length16]; [reflexivity|].
  rewrite IH. lia.
Qed.

Lemma units_continuation (x : N) :
  (x < 64)%N -> units (ascii_of_N (128 + x)) = 0%nat.
Proof.
  intros H. unfold units. rewrite N_ascii_embedding by lia.
  destruct (N.ltb_spec (128 + x) 128); [lia|].
  destruct (N.ltb_spec (128 + x) 192); [reflexivity | lia].
Qed.

Lemma length16_high_surrogate (c : ascii) (r : string) :
  (length16 (high_surrogate c r) <= 1)%nat.
Proof.
  unfold high_surrogate.
  destruct r as [| c1 [| c2 [| c3 r]]]; cbn [length16]; try lia.
  rewrite !units_continuation by (apply N.mod_lt; lia).
  change (units (ascii_of_N 237)) with 1%nat. lia.
Qed.

Lemma length16_substring16_le (s : string) :
  forall n, (length16 (substring16 n s) <= n)%nat.
Proof.
  induction s as [| c s IH]; intros n; cbn [substring16 length16]; [lia|].
  destruct (Nat.leb_spec (units c) n) as [Hle | Hgt].
  - cbn [length16]. specialize (IH (n - units c)%nat). lia.
  - destruct (Nat.eqb_spec n 1) as [-> | Hn].
    + apply length16_high_surrogate.
    + cbn [length16]. lia.
Qed.

Lemma shortened_length (limit : nat) (v : JsValue) (s : string) :
  shortened limit v = JStr s -> (length16 s <= limit + 3)%nat.
Proof.
  unfold shortened. destruct v; try discriminate.
  destruct (limit <? length16 s0)%nat eqn:E; intros H; injection H as <-.
  - rewrite length16_append. pose proof (length16_substring16_le s0 limit).
    change (length16 "...") with 3%nat. lia.
  - apply Nat.ltb_ge in E. lia.
Qed.

Section KeyByKey.

Lemma field_at (floor : Row) (k : string) (v : JsValue) (r : Row) :
  ~ In k (map fst floor) -> field (floor ++ (k, v) :: r) k = v.
Proof.
  unfold field. induction floor as [| [k0 v0] f IH]; simpl; intros H.
  - now rewrite String.eqb_refl.
  - destruct (String.eqb k k0) eqn:E.
    + apply String.eqb_eq in E. subst k0. exfalso. apply H. now left.
    + apply IH. intros Hin. apply H. now right.
Qed.

Lemma assoc_set_at (floor : Row) (k : string) (v x : JsValue) (r : Row) :
  ~ In k (map fst floor) ->
  assoc_set k x (floor ++ (k, v) :: r) = floor ++ (k, x) :: r.
Proof.
  induction floor as [| [k0 v0] f IH]; simpl; intros H.
  - now rewrite String.eqb_refl.
  - destruct (String.eqb k k0) eqn:E.
    + apply String.eqb_eq in E. subst k0. exfalso. apply H. now left.
    + f_equal. apply IH. intros Hin. apply H. now right.
Qed.

(** A loop over the keys of an object that rewrites the entry of each
    key from the value found there rewrites every entry once. *)
Lemma fold_keys (step : Row -> string -> Row) (g : string -> JsValue -> JsValue) :
  (forall floor k v r,
     ~ In k (map fst floor) ->
     step (floor ++ (k, v) :: r) k = floor ++ (k, g k v) :: r) ->
  forall row floor,
    NoDup (map fst (floor ++ row)) ->
    fold_left step (map fst row) (floor ++ row)
    = floor ++ map (fun kv => (fst kv, g (fst kv) (snd kv))) row.
Proof.
  intros Hstep. induction row as [| [k v] r IH]; intros floor Hnd.
  - reflexivity.
  - cbn [map fold_left fst snd].
    assert (Hk : ~ In k (map fst floor)).
    { rewrite map_app in Hnd. cbn [map fst] in Hnd.
      apply NoDup_remove_2 in Hnd. intros Hin. apply Hnd.
      apply in_or_app. now left. }
    rewrite Hstep by exact Hk.
    change (floor ++ (k, g k v) :: r) with (floor ++ [(k, g k v)] ++ r).
    rewrite app_assoc. rewrite IH.
    + rewrite <- app_assoc. reflexivity.
    + rewrite <- app_assoc. cbn [app].
      rewrite map_app in *. cbn [map fst] in *. exact Hnd.
Qed.

Lemma field_map (g : string -> JsValue -> JsValue) (row : Row) (k : string) :
  field (map (fun kv => (fst kv, g (fst kv) (snd kv))) row) k
  = match assoc k row with
    | Some v => g k v
    | None => JUndefined
    end.
Proof.
  unfold field. induction row as [| [k0 v0] r IH]; cbn [map assoc fst snd].
  - reflexivity.
  - destruct (String.eqb k k0) eqn:E; [|exact IH].
    apply String.eqb_eq in E. now subst k0.
Qed.

End KeyByKey.

Lemma sanitizeKey_at (floor : Row) (k : string) (v : JsValue) (r : Row) :
  ~ In k (map fst floor) ->
  BackupService.sanitizeKey (floor ++ (k, v) :: r) k
  = floor ++ (k, if sensitiveKey k then JStr "[REDACTED]"
                 else shortened 200 v) :: r.
Proof.
  intros Hk. unfold BackupService.sanitizeKey. cbv zeta.
  rewrite (field_at floor k v r Hk). fold (sensitiveKey k).
  unfold shortened.
  destruct v; try (destruct (sensitiveKey k);
                   [now apply assoc_set_at | reflexivity]).
  destruct (200 <? length16 s)%nat.
  - rewrite (assoc_set_at floor k _ _ r Hk).
    destruct (sensitiveKey k); [now apply assoc_set_at | reflexivity].
  - destruct (sensitiveKey k); [now apply assoc_set_at | reflexivity].
Qed.

(** X12.  sanitizeRowForLogging keeps the keys of the row in their
    order and rewrites every entry once: the value of a key whose name
    contains [password] or [secret], in any letter case, becomes
    [[REDACTED]], and any other string of more than 200 UTF-16 code
    units is cut to its first 200 code units and three dots.  So no
    value of a sensitive key is left, no string of the result is longer
    than 203 code units, and a string of at most 200 code units under
    another key is left as it is, however many bytes it takes. *)
Theorem sanitizeRowForLogging_spec (row : Row) :
  NoDup (map fst row) ->
  let sanitized := BackupService.sanitizeRowForLogging row in
  sanitized
  = map (fun kv => (fst kv, if sensitiveKey (fst kv) then JStr "[REDACTED]"
                            else shortened 200 (snd kv))) row
  /\ map fst sanitized = map fst row
  /\ (forall key, In key (map fst row) -> sensitiveKey key = true ->
        field sanitized key = JStr "[REDACTED]")
  /\ (forall key s, field sanitized key = JStr s ->
        (length16 s <= 203)%nat)
  /\ (forall key s,
        sensitiveKey key = false -> assoc key row = Some (JStr s) ->
        (length16 s <= 200)%nat -> field sanitized key = JStr s).
Proof.
  intros Hnd sanitized.
  assert (E : sanitized
              = map (fun kv => (fst kv,
                                if sensitiveKey (fst kv) then JStr "[REDACTED]"
                                else shortened 200 (snd kv))) row).
  { unfold sanitized, BackupService.sanitizeRowForLogging.
    apply (fold_keys BackupService.sanitizeKey
             (fun k v => if sensitiveKey k then JStr "[REDACTED]"
                         else shortened 200 v)
             sanitizeKey_at row [] Hnd). }
  split; [exact E|]. rewrite E. split; [|split; [|split]].
  - rewrite map_map. cbn [fst]. reflexivity.
  - intros key Hin Hs.
    rewrite (field_map (fun k v => if sensitiveKey k then JStr "[REDACTED]"
                                   else shortened 200 v)).
    destruct (assoc key row) as [v |] eqn:Ea.
    + now rewrite Hs.
    + exfalso. clear - Hin Ea.
      induction row as [| [k0 v0] r IH]; cbn in *; [contradiction|].
      destruct (String.eqb key k0) eqn:Ek; [discriminate|].
      destruct Hin as [-> | Hin]; [now rewrite String.eqb_refl in Ek|].
      now apply IH.
  - intros key s.
    rewrite (field_map (fun k v => if sensitiveKey k then JStr "[REDACTED]"
                                   else shortened 200 v)).
    destruct (assoc key row) as [v |]; [|discriminate].
    destruct (sensitiveKey key).
    + intros H. injection H as <-. cbn. lia.
    + intros H. apply shortened_length in H. exact H.
  - intros key s Hs Ha Hl.
    rewrite (field_map (fun k v => if sensitiveKey k then JStr "[REDACTED]"
                                   else shortened 200 v)).
    rewrite Ha, Hs. unfold shortened.
    destruct (Nat.ltb_spec 200 (length16 s)); [lia | reflexivity].
Qed.

Lemma sanitizeRowForLogging_spec_witness :
  BackupService.sanitizeRowForLogging
    [("id", num 7); ("User_Password", JStr "hunter2");
     ("email", JStr "ann@example.org");
     ("name", JStr (Sample.accented 150));
     ("bio", JStr (Sample.accented 201))]
  = [("id", num 7); ("User_Password", JStr "[REDACTED]");
     ("email", JStr "ann@example.org");
     ("name", JStr (Sample.accented 150));
     ("bio", JStr (Sample.accented 200 ++ "..."))].
Proof.
  refine (eq_trans
            (proj1 (sanitizeRowForLogging_spec
                      [("id", num 7); ("User_Password", JStr "hunter2");
                       ("email", JStr "ann@example.org");
                       ("name", JStr (Sample.accented 150));
                       ("bio", JStr (Sample.accented 201))] _)) _).
  - repeat constructor; simpl; intuition discriminate.
  - vm_compute. reflexivity.
Defined.

Lemma map_id_absent (f : string) (g : JsValue -> JsValue) (s : Row) :
  ~ In f (map fst s) ->
  map (fun kv => (fst kv, if String.eqb (fst kv) f && Boolean (snd kv)
                          then g (snd kv) else snd kv)) s = s.
Proof.
  induction s as [| [k v] r IH]; cbn [map fst snd]; intros H; [reflexivity|].
  destruct (String.eqb k f) eqn:E.
  - apply String.eqb_eq in E. subst k. exfalso. apply H. now left.
  - cbn [andb]. f_equal. apply IH. intros Hin. apply H. now right.
Qed.

Lemma redactField_map (f : string) (s : Row) :
  NoDup (map fst s) ->
  CdcService.redactField s f
  = map (fun kv => (fst kv, if String.eqb (fst kv) f && Boolean (snd kv)
                            then JStr "[REDACTED]" else snd kv)) s.
Proof.
  unfold CdcService.redactField, field.
  induction s as [| [k v] r IH]; cbn [map fst snd assoc]; intros Hnd;
    [reflexivity|].
  rewrite (String.eqb_sym k f). inversion Hnd as [| ? ? Hk Hr]; subst.
  destruct (String.eqb f k) eqn:E.
  - apply String.eqb_eq in E. subst k. cbn [andb assoc_set].
    rewrite String.eqb_refl.
    rewrite (map_id_absent f (fun _ => JStr "[REDACTED]") r Hk).
    destruct (Boolean v); reflexivity.
  - cbn [andb assoc_set]. rewrite E. specialize (IH Hr).
    destruct (Boolean match assoc f r with
                      | Some v0 => v0
                      | None => JUndefined
                      end); rewrite <- IH; reflexivity.
Qed.

Lemma limitField_at (limit : nat) (floor : Row) (k : string) (v : JsValue)
      (r : Row) :
  ~ In k (map fst floor) ->
  CdcService.limitField limit (floor ++ (k, v) :: r) k
  = floor ++ (k, shortened limit v) :: r.
Proof.
  intros Hk. unfold CdcService.limitField.
  rewrite (field_at floor k v r Hk). unfold shortened.
  destruct v; try reflexivity.
  destruct (limit <? length16 s)%nat; [|reflexivity].
  now apply assoc_set_at.
Qed.

(** X13.  sanitizeRecordForLogging keeps the keys of the record in
    their order and rewrites every entry once: a truthy value of one of
    the fields [password], [token], [secret] and [key] becomes
    [[REDACTED]], and any other string of more than 100 UTF-16 code
    units is cut to its first 100 code units and three dots, so that no
    string of the result is longer than 103 code units.  Only these
    four exact names are hidden, and a string of at most 100 code units
    under another name is left as it is, however many bytes it
    takes. *)
Theorem sanitizeRecordForLogging_spec (record : Row) :
  NoDup (map fst record) ->
  let sanitized := CdcService.sanitizeRecordForLogging record in
  sanitized
  = map (fun kv =>
           (fst kv,
            shortened 100
              (if mem (fst kv) ["password"; "token"; "secret"; "key"]
                  && Boolean (snd kv)
               then JStr "[REDACTED]" else snd kv))) record
  /\ map fst sanitized = map fst record
  /\ (forall key s, field sanitized key = JStr s ->
        (length16 s <= 103)%nat)
  /\ (forall key,
        mem key ["password"; "token"; "secret"; "key"] = false ->
        field sanitized key = shortened 100 (field record key))
  /\ (forall key s,
        mem key ["password"; "token"; "secret"; "key"] = false ->
        assoc key record = Some (JStr s) -> (length16 s <= 100)%nat ->
        field sanitized key = JStr s).
Proof.
  intros Hnd sanitized.
  set (hide := fun kv : string * JsValue =>
                 (fst kv,
                  if mem (fst kv) ["password"; "token"; "secret"; "key"]
                     && Boolean (snd kv)
                  then JStr "[REDACTED]" else snd kv)).
  assert (Keys : forall (h : string * JsValue -> string * JsValue) (l : Row),
             (forall kv, fst (h kv) = fst kv) -> map fst (map h l) = map fst l).
  { intros h l Hh. rewrite map_map. apply map_ext. exact Hh. }
  assert (E1 : fold_left CdcService.redactField
                 ["password"; "token"; "secret"; "key"] record
               = map hide record).
  { cbn [fold_left].
    rewrite (redactField_map "password" record Hnd).
    match goal with
    | |- context [CdcService.redactField (map ?h record) "token"] =>
        rewrite (redactField_map "token" (map h record))
          by (rewrite Keys; [exact Hnd | reflexivity])
    end.
    rewrite map_map.
    match goal with
    | |- context [CdcService.redactField (map ?h record) "secret"] =>
        rewrite (redactField_map "secret" (map h record))
          by (rewrite Keys; [exact Hnd | reflexivity])
    end.
    rewrite map_map.
    match goal with
    | |- context [CdcService.redactField (map ?h record) "key"] =>
        rewrite (redactField_map "key" (map h record))
          by (rewrite Keys; [exact Hnd | reflexivity])
    end.
    rewrite map_map. apply map_ext. intros [k v]. unfold hide, mem.
    cbn [fst snd existsb].
    destruct (String.eqb k "password") eqn:K1.
    { apply String.eqb_eq in K1. subst k. cbn.
      destruct (Boolean v) eqn:B; cbn; rewrite ?B; reflexivity. }
    destruct (String.eqb k "token") eqn:K2.
    { apply String.eqb_eq in K2. subst k. cbn.
      destruct (Boolean v) eqn:B; cbn; rewrite ?B; reflexivity. }
    destruct (String.eqb k "secret") eqn:K3.
    { apply String.eqb_eq in K3. subst k. cbn.
      destruct (Boolean v) eqn:B; cbn; rewrite ?B; reflexivity. }
    destruct (String.eqb k "key") eqn:K4.
    { apply String.eqb_eq in K4. subst k. cbn.
      destruct (Boolean v) eqn:B; cbn; rewrite ?B; reflexivity. }
    reflexivity. }
  assert (E : sanitized
              = map (fun kv => (fst kv, shortened 100 (snd (hide kv)))) record).
  { unfold sanitized, CdcService.sanitizeRecordForLogging. cbv zeta.
    rewrite E1.
    assert (Hh : NoDup (map fst ([] ++ map hide record)))
      by (cbn [app]; rewrite Keys; [exact Hnd | reflexivity]).
    pose proof (fold_keys (CdcService.limitField 100)
                  (fun _ v => shortened 100 v)
                  (limitField_at 100) (map hide record) [] Hh) as F.
    cbn [app] in F. rewrite F. rewrite map_map. reflexivity. }
  split; [exact E|]. rewrite E. split; [|split; [|split]].
  - apply Keys. reflexivity.
  - intros key s.
    rewrite (field_map (fun k v =>
               shortened 100
                 (if mem k ["password"; "token"; "secret"; "key"] && Boolean v
                  then JStr "[REDACTED]" else v))).
    destruct (assoc key record) as [v |]; [|discriminate].
    intros H. apply shortened_length in H. exact H.
  - intros key Hm.
    rewrite (field_map (fun k v =>
               shortened 100
                 (if mem k ["password"; "token"; "secret"; "key"] && Boolean v
                  then JStr "[REDACTED]" else v))).
    unfold field. rewrite Hm. cbn [andb].
    destruct (assoc key record); reflexivity.
  - intros key s Hm Ha Hl.
    rewrite (field_map (fun k v =>
               shortened 100
                 (if mem k ["password"; "token"; "secret"; "key"] && Boolean v
                  then JStr "[REDACTED]" else v))).
    rewrite Ha, Hm. cbn [andb]. unfold shortened.
    destruct (Nat.ltb_spec 100 (length16 s)); [lia | reflexivity].
Qed.

Lemma sanitizeRecordForLogging_spec_witness :
  CdcService.sanitizeRecordForLogging
    [("id", num 7); ("password", JStr "hunter2"); ("user_password", JStr "x");
     ("name", JStr (Sample.accented 60));
     ("bio", JStr (Sample.accented 101))]
  = [("id", num 7); ("password", JStr "[REDACTED]");
     ("user_password", JStr "x");
     ("name", JStr (Sample.accented 60));
     ("bio", JStr (Sample.accented 100 ++ "..."))].
Proof.
  refine (eq_trans
            (proj1 (sanitizeRecordForLogging_spec
                      [("id", num 7); ("password", JStr "hunter2");
                       ("user_password", JStr "x");
                       ("name", JStr (Sample.accented 60));
                       ("bio", JStr (Sample.accented 101))] _)) _).
  - repeat constructor; simpl; intuition discriminate.
  - vm_compute. reflexivity.
Defined.

(** ** The verdict of collectMetrics and its messages *)

(** X14.  collectMetrics reports the status healthy exactly when it
    reports no error message: every check that lowers the status adds
    its message, and nothing else adds one.  There are never more than
    two messages, and a failed collection reports neither tables nor a
    last backup. *)
Theorem metrics_healthy_iff_no_errors (x : Readings) :
  let m := collectMetrics x in
  (healthStatus m = healthy <-> errors m = [])
  /\ (length (errors m) <= 2)%nat
  /\ ((connections x <> None
       \/ exists e, primaryTables x = Fail e) ->
      healthStatus m = error /\ totalTables m = 0 /\ backedUpTables m = 0
      /\ lastBackupTime m = None /\ tableStatus m = []).
Proof.
  intros m. unfold m, collectMetrics.
  destruct (connections x) as [e |] eqn:Ec.
  { cbn. split; [split; discriminate|]. split; [lia|].
    intros _. repeat split. }
  destruct (primaryTables x) as [tables | e] eqn:Ep.
  2:{ cbn. split; [split; discriminate|]. split; [lia|].
      intros _. repeat split. }
  unfold coverageCheck, stalenessCheck.
  destruct (fltb _ nine_tenths);
    destruct (lastBackup_ x) as [last |];
    try destruct (fgtb (hoursSince (now x) last) (of_Z 24));
    try destruct (fgtb (hoursSince (now x) last) (of_Z 6));
    cbn; (split; [split; intros H; try discriminate H; reflexivity|]);
    (split; [lia|]);
    intros [H | [e H]]; congruence.
Qed.

(** ** The batches of the loops *)

Lemma chunks_aux_nil {A} (fuel n : nat) : @chunks_aux A fuel n [] = [].
Proof. destruct fuel; reflexivity. Qed.

Lemma chunks_aux_full {A} (n : nat) :
  forall (fuel : nat) (l : list A) (before : list (list A)) (c : list A)
         (rest : list (list A)),
    chunks_aux fuel n l = before ++ c :: rest -> rest <> [] -> length c = n.
Proof.
  induction fuel as [| f IH]; intros l before c rest E Hrest.
  - destruct before; discriminate E.
  - destruct l as [| x r]; [destruct before; discriminate E|].
    cbn [chunks_aux] in E. destruct before as [| b before'].
    + cbn [app] in E. injection E as Ec Er. subst c.
      apply firstn_length_le.
      destruct (Nat.le_gt_cases n (length (x :: r))) as [H | H]; [exact H|].
      exfalso. apply Hrest. rewrite <- Er.
      rewrite skipn_all2 by lia. apply chunks_aux_nil.
    + cbn [app] in E. injection E as _ E. exact (IH _ _ _ _ E Hrest).
Qed.

(** X15.  The batching loops of insertDataInBatches (1000 rows),
    upsertRecords (50 records) and detectAndSyncChanges (3 tables) hand
    every element to exactly one batch and keep the order: the batches
    put end to end give the list back, no batch is empty, none holds
    more than the batch size, and every batch but the last holds
    exactly the batch size. *)
Theorem batches_partition {A} (n : nat) (l : list A) :
  (0 < n)%nat ->
  concat (chunks n l) = l
  /\ Forall (fun c => c <> [] /\ (length c <= n)%nat) (chunks n l)
  /\ (forall before c rest,
        chunks n l = before ++ c :: rest -> rest <> [] -> length c = n).
Proof.
  intros Hn. split; [now apply chunks_concat|]. split.
  - now apply chunks_aux_bounds.
  - intros before c rest. apply chunks_aux_full.
Qed.

Lemma batches_partition_witness :
  concat (chunks 3 [1; 2; 3; 4; 5; 6; 7]%nat) = [1; 2; 3; 4; 5; 6; 7]%nat.
Proof. apply (batches_partition 3 [1; 2; 3; 4; 5; 6; 7]%nat). lia. Defined.

(** ** The status report of BackupService *)

Section BackupStatus.
Context {rt : Runtime} {eng : Engine}.

Lemma statusLoop_quiet (r : Runner) (names : list string) :
  forall (st : BackupService.Status) (w : World),
    faults w = [] -> side r = Backup ->
    BackupService.statusLoop r names st w
    = (Ok {| BackupService.total_tables := BackupService.total_tables st;
             BackupService.backed_up_tables :=
               BackupService.backed_up_tables st
               + Z.of_nat (length (filter (fun t => has_key t (tables (backup w)))
                                          names));
             BackupService.missing_tables :=
               BackupService.missing_tables st
               ++ filter (fun t => negb (has_key t (tables (backup w)))) names;
             BackupService.table_stats :=
               BackupService.table_stats st
               ++ map (fun t => (t, rowsIn (backup w) t))
                      (filter (fun t => has_key t (tables (backup w))) names) |},
       w).
Proof.
  induction names as [| t rest IH]; intros st w Hq Hb.
  - cbn [BackupService.statusLoop filter map length Z.of_nat].
    unfold ret. rewrite Z.add_0_r, !app_nil_r. now destruct st.
  - cbn [BackupService.statusLoop].
    assert (E : BackupService.checkTableExists r t w
                = (Ok (has_key t (tables (backup w))), w)).
    { unfold BackupService.checkTableExists. rewrite readDb_quiet by exact Hq.
      now rewrite Hb. }
    rewrite (bind_ok _ _ _ _ _ E). cbn [filter].
    destruct (has_key t (tables (backup w))) eqn:Hk; cbn [negb].
    + assert (C : readDb r (selectCount t) w
                  = (Ok (rowsIn (backup w) t), w)).
      { rewrite readDb_quiet by exact Hq. rewrite Hb. cbn [db_of].
        unfold selectCount, rowsIn, has_key, lookupTable in *.
        destruct (assoc t (tables (backup w))); [reflexivity | discriminate]. }
      rewrite (bind_ok _ _ _ _ _ C). rewrite IH by assumption.
      cbn [BackupService.total_tables BackupService.backed_up_tables
           BackupService.missing_tables BackupService.table_stats
           map length].
      rewrite <- app_assoc. cbn [app].
      do 3 f_equal. lia.
    + rewrite IH by assumption.
      cbn [BackupService.total_tables BackupService.backed_up_tables
           BackupService.missing_tables BackupService.table_stats].
      rewrite <- app_assoc. reflexivity.
Qed.

Lemma getAllTables_quiet (w : World) :
  faults w = [] ->
  exists w',
    BackupService.getAllTables w = (Ok (listedTables (primary w)), w')
    /\ faults w' = [] /\ primary w' = primary w /\ backup w' = backup w
    /\ logs w' = logs w
    /\ no_new_runner w [] w'.
Proof.
  intros Hq. unfold BackupService.getAllTables, bind at 1, createQueryRunner.
  cbv beta iota.
  set (r := {| rid := nextRunner w; side := Primary |}).
  set (w0 := {| primary := primary w; backup := backup w; faults := faults w;
                nextRunner := S (nextRunner w); connected := connected w;
                logs := logs w |}).
  unfold try_finally.
  rewrite (bind_ok _ _ _ _ _ (connect_quiet r w0 Hq)).
  rewrite readDb_quiet by exact Hq. cbn [side r db_of selectAllTables].
  cbn [release set_connected connected primary backup faults nextRunner logs].
  eexists. split; [reflexivity|].
  cbn [faults primary backup logs]. repeat split; try assumption.
  intros i Hi. cbn [connected] in Hi. apply filter_In in Hi.
  destruct Hi as [[E | Hi] Hr].
  - subst i. cbn [rid r] in Hr. rewrite Nat.eqb_refl in Hr. discriminate.
  - now left.
Qed.

End BackupStatus.

Lemma filter_split_length {A} (f : A -> bool) (l : list A) :
  length l
  = (length (filter f l) + length (filter (fun x => negb (f x)) l))%nat.
Proof.
  induction l as [| x r IH]; [reflexivity|].
  cbn [filter]. destruct (f x); cbn [negb length]; lia.
Qed.

(** X16.  Without driver faults getBackupStatus returns a status that
    accounts for every table the primary lists: the total is their
    number, the tables the backup lacks are reported as missing in the
    order of the list, every other one is counted and reported with the
    number of rows it has in the backup, so that the total is the
    number of backed up tables plus the number of missing ones.  The
    call writes to neither database, releases its runners, and the
    controller wraps the status in a success answer. *)
Theorem getBackupStatus_accounting (w : World) :
  faults w = [] ->
  let names := listedTables (primary w) in
  let present := filter (fun t => has_key t (tables (backup w))) names in
  exists status w',
    BackupService.getBackupStatus w = (Ok status, w')
    /\ BackupService.total_tables status = Z.of_nat (length names)
    /\ BackupService.backed_up_tables status = Z.of_nat (length present)
    /\ BackupService.missing_tables status
       = filter (fun t => negb (has_key t (tables (backup w)))) names
    /\ BackupService.table_stats status
       = map (fun t => (t, rowsIn (backup w) t)) present
    /\ BackupService.total_tables status
       = BackupService.backed_up_tables status
         + Z.of_nat (length (BackupService.missing_tables status))
    /\ primary w' = primary w /\ backup w' = backup w
    /\ no_new_runner w [] w'
    /\ BackupController.getBackupStatus w
       = (Ok {| BackupController.success := true;
                BackupController.message := None;
                BackupController.data := Some status |}, w').
Proof.
  intros Hq names present.
  destruct (getAllTables_quiet w Hq) as (w1 & E1 & Hq1 & P1 & B1 & L1 & R1).
  set (r := {| rid := nextRunner w1; side := Backup |}).
  set (w2 := snd (createQueryRunner Backup w1)).
  assert (Hq2 : faults w2 = []) by exact Hq1.
  pose proof (connect_quiet r w2 Hq2) as E3.
  set (w3 := set_connected w2 (rid r :: connected w2)) in E3.
  assert (Hq3 : faults w3 = []) by exact Hq1.
  pose proof (statusLoop_quiet r names
                {| BackupService.total_tables := Z.of_nat (length names);
                   BackupService.backed_up_tables := 0;
                   BackupService.missing_tables := [];
                   BackupService.table_stats := [] |} w3 Hq3 eq_refl) as E4.
  cbn [BackupService.total_tables BackupService.backed_up_tables
       BackupService.missing_tables BackupService.table_stats app] in E4.
  change (backup w3) with (backup w1) in E4. rewrite B1 in E4.
  fold present in E4. rewrite Z.add_0_l in E4.
  match type of E4 with
  | _ = (Ok ?st, _) => set (status := st) in E4
  end.
  assert (Body : BackupService.getBackupStatus w
                 = (Ok status, snd (release r w3))).
  { unfold BackupService.getBackupStatus. apply try_catch_ok.
    rewrite (bind_ok _ _ _ _ _ E1). fold names.
    unfold bind at 1.
    change (createQueryRunner Backup w1) with (Ok r, w2). cbv beta iota.
    rewrite (bind_ok _ _ _ _ _ E3).
    rewrite (bind_ok _ _ _ _ _ E4). reflexivity. }
  exists status, (snd (release r w3)).
  split; [exact Body|]. split; [reflexivity|]. split; [reflexivity|].
  split; [reflexivity|]. split; [reflexivity|]. split.
  { cbn [status BackupService.total_tables BackupService.backed_up_tables
         BackupService.missing_tables].
    rewrite <- Nat2Z.inj_add. f_equal.
    apply (filter_split_length (fun t => has_key t (tables (backup w)))). }
  split; [exact P1|]. split; [exact B1|]. split.
  { intros i Hi. cbn [release snd set_connected connected w3] in Hi.
    apply filter_In in Hi. destruct Hi as [[E | Hi] Hr].
    - subst i. rewrite Nat.eqb_refl in Hr. discriminate.
    - exact (R1 i Hi). }
  unfold BackupController.getBackupStatus. apply try_catch_ok.
  rewrite (bind_ok _ _ _ _ _ Body). reflexivity.
Qed.

Lemma getBackupStatus_accounting_witness :
  exists status w',
    BackupService.getBackupStatus
      (Sample.world
         (Sample.database
            [("accounts", Sample.accounts "updateat"
                            (Sample.threeAccounts "updateat"));
             ("people", Sample.people)])
         (Sample.database
            [("accounts", Sample.accounts "updateat"
                            (Sample.firstFour "updateat"))]) [])
    = (Ok status, w')
    /\ BackupService.total_tables status = 2
    /\ BackupService.backed_up_tables status = 1
    /\ BackupService.missing_tables status = ["people"]
    /\ BackupService.table_stats status = [("accounts", 4)].
Proof.
  destruct (getBackupStatus_accounting
              (Sample.world
                 (Sample.database
                    [("accounts", Sample.accounts "updateat"
                                    (Sample.threeAccounts "updateat"));
                     ("people", Sample.people)])
                 (Sample.database
                    [("accounts", Sample.accounts "updateat"
                                    (Sample.firstFour "updateat"))]) [])
              eq_refl)
    as (status & w' & E & T & B & M & S & _).
  exists status, w'. repeat split; assumption.
Defined.

(** ** A missing target table is never created *)

Lemma assoc_None_names {A} (k : string) (l : list (string * A)) :
  assoc k l = None <-> ~ In k (map fst l).
Proof.
  induction l as [| [k' v] r IH]; cbn [assoc map fst In]; [tauto|].
  destruct (String.eqb k k') eqn:E.
  - apply String.eqb_eq in E. subst k'. split; [discriminate|].
    intros H. exfalso. apply H. now left.
  - apply String.eqb_neq in E. rewrite IH. split.
    + intros H [Hk | Hk]; [congruence | now apply H].
    + intros H Hk. apply H. now right.
Qed.

Section NeverCreated.
Context {rt : Runtime} {eng : Engine}.
Variable w0 : World.

Let P := same_catalog w0.

(** The statement-building query is refused, so the body of
    handleMissingBackupTable ends at its first statement and the outer
    catch logs the error: nothing is written. *)
Lemma handleMissingBackupTable_catalog (p b : Runner) (t : string) :
  preserves P (CdcService.handleMissingBackupTable p b t).
Proof.
  intros w H. unfold CdcService.handleMissingBackupTable, try_catch.
  unfold bind at 1. unfold readDb, CdcService.selectCreateStatement.
  unfold bind at 1. unfold roundtrip.
  destruct (faults w) as [| [e |] f]; exact H.
Qed.

Lemma syncTableChanges_catalog (t : string) :
  preserves P (CdcService.syncTableChanges t).
Proof.
  unfold CdcService.syncTableChanges.
  apply preserves_new_runner; [intros w H; exact H|]. intros p _.
  apply preserves_new_runner; [intros w H; exact H|]. intros b Hb.
  apply preserves_try_finally.
  - unfold CdcService.syncTableChangesTry.
    pose proof (cdc_checkTableExists_preserves P (catalog_log w0)
                  (catalog_read w0)).
    pose proof (cdc_checkColumnExists_preserves P (catalog_log w0)
                  (catalog_read w0)).
    pose proof (cdc_getColumnDataType_preserves P (catalog_log w0)
                  (catalog_read w0)).
    pose proof handleMissingBackupTable_catalog.
    pose proof (cdc_syncData_preserves P (fun r => side r = Backup)
                  (catalog_log w0) (catalog_read w0) (catalog_insert w0)
                  p b t).
    pose proof (catalog_connect w0). pose proof (catalog_log w0).
    preserves_auto.
  - apply preserves_bind; [apply catalog_release|].
    intros _. apply catalog_release.
Qed.

Lemma getTablesWithTimestamp_catalog :
  preserves P CdcService.getTablesWithTimestamp.
Proof.
  intros w [Hp Hb]. destruct (getTablesWithTimestamp_data w) as [Ep Eb].
  split; [now rewrite Ep | now rewrite Eb].
Qed.

Lemma detectAndSyncChanges_catalog :
  preserves P CdcService.detectAndSyncChanges.
Proof.
  unfold CdcService.detectAndSyncChanges.
  pose proof getTablesWithTimestamp_catalog.
  pose proof syncTableChanges_catalog.
  pose proof (catalog_log w0).
  preserves_auto.
Qed.

Lemma cycles_catalog (n : nat) : P w0 -> P (cycles n w0).
Proof.
  intros H. induction n as [| n IH]; [exact H|].
  unfold cycles in *. cbn [Nat.iter]. now apply detectAndSyncChanges_catalog.
Qed.

End NeverCreated.

Lemma same_catalog_refl (w : World) : same_catalog w w.
Proof. split; reflexivity. Qed.

Lemma same_catalog_missing (w w' : World) (t : string) :
  same_catalog w w' -> lookupTable (backup w) t = None ->
  lookupTable (backup w') t = None.
Proof.
  intros [_ H] Hm. unfold lookupTable in *. apply assoc_None_names.
  apply assoc_None_names in Hm. unfold tableNames in H. now rewrite H.
Qed.

(** C2.  The change detection never creates a table of the target.
    handleMissingBackupTable means to: it asks the primary for a CREATE
    TABLE statement, runs it, copies the key, and has a retry with the
    enum types and a fallback builder.  But the query that builds the
    statement is refused by the server on every call, and the outer
    catch only logs the error.  So, whatever the driver and the server
    answer, a synchronization and any number of cycles leave the
    primary as it was and the target with the tables it had: a table
    the target lacks stays missing, and none of its rows is copied.
    For the table accounts(id, email, updated_at) with 3 rows, absent
    from the target, a cycle returns normally, leaves the target
    without tables and logs the refusal; so does the next one. *)
Theorem missing_target_table_never_created
    {rt : Runtime} {eng : Engine} (w : World) :
  (forall t, same_catalog w (snd (CdcService.syncTableChanges t w)))
  /\ (forall n, same_catalog w (cycles n w))
  /\ (forall n t, lookupTable (backup w) t = None ->
                  lookupTable (backup (cycles n w)) t = None)
  /\ (let cycle :=
        CdcService.detectAndSyncChanges (rt := Sample.runtime)
          (eng := Sample.engine) in
      let w0 := Sample.world
                  (Sample.database
                     [("accounts", Sample.accounts "updated_at"
                                     (Sample.threeAccounts "updated_at"))])
                  (Sample.database []) [] in
      let refusal :=
        (LError,
         ("Failed to create backup table accounts: column "
         ++ quoted "columns.table_name"
         ++ " must appear in the GROUP BY clause or be used in an aggregate function")%string) in
      fst (cycle w0) = Ok tt
      /\ backup (snd (cycle w0)) = Sample.database []
      /\ logs (snd (cycle w0)) = [refusal]
      /\ fst (cycle (snd (cycle w0))) = Ok tt
      /\ backup (snd (cycle (snd (cycle w0)))) = Sample.database []
      /\ logs (snd (cycle (snd (cycle w0)))) = [refusal; refusal]).
Proof.
  split; [|split; [|split]].
  - intros t. apply syncTableChanges_catalog. apply same_catalog_refl.
  - intros n. apply cycles_catalog. apply same_catalog_refl.
  - intros n t Hm. apply (same_catalog_missing w); [|exact Hm].
    apply cycles_catalog. apply same_catalog_refl.
  - vm_compute. repeat split.
Qed.


(** ** What the work on one table keeps

    The methods that work on table [t] write to no other table: they
    keep [P] as soon as the statements on [t] do. *)

Section TableServices.
Context {rt : Runtime} {eng : Engine}.
Variable t : string.
Variable P : World -> Prop.
Variable okB : Runner -> Prop.

Hypothesis P_roundtrip : preserves P roundtrip.
Hypothesis P_log : forall lvl msg, preserves P (log lvl msg).
Hypothesis P_read : forall A r (q : Db -> Res A), preserves P (readDb r q).
Hypothesis P_connect : forall r, preserves P (connect r).
Hypothesis P_insert :
  forall r rs, okB r ->
    preserves P (writeDb r (fun db => insertInto db t DoNothing rs)).
Hypothesis P_upsert :
  forall r clause rs, okB r ->
    preserves P (writeDb r (fun db => insertInto db t clause rs)).
Hypothesis P_createTable :
  forall r defs, okB r -> preserves P (writeDb r (createTable t defs)).
Hypothesis P_addPrimaryKey :
  forall r cols, okB r -> preserves P (writeDb r (addPrimaryKey t cols)).
Hypothesis P_drop :
  forall r, okB r -> preserves P (writeDb r (dropTableIfExists t)).
Hypothesis P_replay :
  forall r T, okB r -> preserves P (writeDb r (BackupService.replayDump t T)).

Lemma table_processBatch r records schema pk :
  okB r -> preserves P (CdcService.processBatch r t records schema pk).
Proof. intros Hr. unfold CdcService.processBatch. preserves_auto. Qed.

Lemma table_upsertRecords r records :
  okB r -> preserves P (CdcService.upsertRecords r t records).
Proof.
  intros Hr.
  unfold CdcService.upsertRecords, CdcService.getTableSchema,
    CdcService.getPrimaryKeyColumns.
  pose proof table_processBatch.
  preserves_auto.
Qed.

Lemma table_createTableWithFallback p b :
  okB b -> preserves P (CdcService.createTableWithFallback p b t).
Proof. intros Hb. unfold CdcService.createTableWithFallback. preserves_auto. Qed.

Lemma table_handleMissingBackupTable p b :
  okB b -> preserves P (CdcService.handleMissingBackupTable p b t).
Proof.
  intros _ w H. unfold CdcService.handleMissingBackupTable, try_catch.
  unfold bind at 1.
  pose proof (P_read _ p (CdcService.selectCreateStatement t) w H) as R.
  pose proof (selectCreateStatement_refused p t w) as [e E].
  destruct (readDb p (CdcService.selectCreateStatement t) w) as [r w1].
  cbn [fst snd] in *. subst r. now apply P_log.
Qed.

Lemma table_syncData p b ty :
  okB b -> preserves P (CdcService.syncData p b t ty).
Proof.
  intros Hb.
  unfold CdcService.syncData, CdcService.readLastSync, CdcService.pullChanges.
  pose proof table_upsertRecords.
  preserves_auto.
Qed.

Lemma table_syncTableChangesTry p b :
  okB b -> preserves P (CdcService.syncTableChangesTry p b t).
Proof.
  intros Hb.
  unfold CdcService.syncTableChangesTry, CdcService.checkTableExists,
    CdcService.checkColumnExists, CdcService.getColumnDataType.
  pose proof table_handleMissingBackupTable.
  pose proof table_syncData.
  preserves_auto.
Qed.

Lemma table_forceSyncTableTry p b :
  okB b -> preserves P (CdcService.forceSyncTableTry p b t).
Proof.
  intros Hb.
  unfold CdcService.forceSyncTableTry, CdcService.checkTableExists.
  pose proof table_upsertRecords.
  preserves_auto.
Qed.

Lemma table_copyPrimaryKeyConstraint p b :
  okB b -> preserves P (BackupService.copyPrimaryKeyConstraint p b t).
Proof.
  intros Hb. unfold BackupService.copyPrimaryKeyConstraint. preserves_auto.
Qed.

Lemma table_createTableFallback p b :
  okB b -> preserves P (BackupService.createTableFallback p b t).
Proof.
  intros Hb. unfold BackupService.createTableFallback.
  pose proof table_copyPrimaryKeyConstraint.
  preserves_auto.
Qed.

Lemma table_pgDump : preserves P (BackupService.pgDump t).
Proof.
  unfold BackupService.pgDump. apply preserves_bind; [exact P_roundtrip|].
  intros _ w H. destruct (lookupTable (primary w) t); exact H.
Qed.

Lemma table_createTableInBackup p b :
  okB b -> preserves P (BackupService.createTableInBackup p b t).
Proof.
  intros Hb. unfold BackupService.createTableInBackup.
  pose proof table_createTableFallback.
  pose proof table_pgDump.
  preserves_auto.
Qed.

Lemma table_insertRowsIndividually r rows cols types :
  okB r ->
  preserves P (BackupService.insertRowsIndividually r t rows cols types).
Proof.
  intros Hr. unfold BackupService.insertRowsIndividually. preserves_auto.
Qed.

Lemma table_insertDataInBatches r data :
  okB r -> preserves P (BackupService.insertDataInBatches r t data).
Proof.
  intros Hr.
  unfold BackupService.insertDataInBatches, BackupService.getColumnTypes.
  pose proof table_insertRowsIndividually.
  preserves_auto.
Qed.

(** The data step of the non-forced backupTable (75-85). *)
Lemma table_copyData p b :
  okB b ->
  preserves P
    (data <- readDb p (selectAll t None) ;;
     if BackupService.nonempty data then
       ret tt ;; BackupService.insertDataInBatches b t data
     else ret tt).
Proof.
  intros Hb. pose proof table_insertDataInBatches. preserves_auto.
Qed.

Lemma table_backupTableTry p b :
  okB b -> preserves P (BackupService.backupTableTry p b t false).
Proof.
  intros Hb.
  unfold BackupService.backupTableTry, BackupService.checkTableExists.
  pose proof table_createTableInBackup.
  pose proof table_insertDataInBatches.
  cbv iota.
  preserves_auto.
Qed.

End TableServices.

(** *** Other tables are left alone *)

Lemma lookup_setTable_other (db : Db) (t t0 : string) (T : Table) :
  t0 <> t -> lookupTable (setTable db t T) t0 = lookupTable db t0.
Proof.
  intros H. unfold lookupTable, setTable. cbn [tables].
  apply assoc_set_other. now apply String.eqb_neq.
Qed.

Lemma lookup_dropTable_other (db : Db) (t t0 : string) :
  t0 <> t -> lookupTable (dropTable db t) t0 = lookupTable db t0.
Proof.
  intros H. unfold lookupTable, dropTable, assoc_remove. cbn [tables].
  induction (tables db) as [| [k v] r IH]; [reflexivity|].
  cbn [filter fst assoc]. destruct (String.eqb t k) eqn:E; cbn [negb assoc].
  - apply String.eqb_eq in E. subst k.
    apply String.eqb_neq in H. now rewrite H.
  - now rewrite IH.
Qed.

Section StatementsOnOneTable.
Context {eng : Engine}.

(** The statements the services send about table [t] change it in
    place or create it. *)
Lemma insertInto_sets (db db' : Db) (t : string) (c : OnConflict)
      (rs : list Row) :
  insertInto db t c rs = Done db' ->
  exists T T', lookupTable db t = Some T /\ insertRows c T rs = Done T'
               /\ db' = setTable db t T'.
Proof.
  unfold insertInto. destruct (lookupTable db t) as [T |]; [|discriminate].
  destruct (insertRows c T rs) as [T' |] eqn:E; [|discriminate].
  intros H. injection H as <-. now exists T, T'.
Qed.

Lemma createTable_sets (db db' : Db) (t : string) (defs : list ColDef) :
  createTable t defs db = Done db' ->
  has_key t (tables db) = false /\ exists T, db' = setTable db t T.
Proof.
  unfold createTable. destruct (has_key t (tables db)); [discriminate|].
  destruct (has_key t (enums db)); [discriminate|].
  destruct (buildColumns db defs) as [cols |]; [|discriminate].
  intros H. injection H as <-. split; [reflexivity | eexists; reflexivity].
Qed.

Lemma addPrimaryKey_sets (db db' : Db) (t : string) (cols : list string) :
  addPrimaryKey t cols db = Done db' ->
  exists T T', lookupTable db t = Some T /\ rows T' = rows T
               /\ db' = setTable db t T'.
Proof.
  unfold addPrimaryKey. destruct (lookupTable db t) as [T |]; [|discriminate].
  destruct (pkey T); [|discriminate].
  destruct cols as [| c cs]; [discriminate|].
  destruct (negb (forallb _ (c :: cs))); [discriminate|].
  destruct (negb _); [discriminate|].
  intros H. injection H as <-. eexists. eexists.
  split; [reflexivity|]. split; [|reflexivity]. reflexivity.
Qed.

Lemma replayDump_sets (db db' : Db) (t : string) (D : Table) :
  BackupService.replayDump t D db = Done db' ->
  has_key t (tables db) = false /\ exists T, db' = setTable db t T.
Proof.
  unfold BackupService.replayDump.
  destruct (has_key t (tables db)); [discriminate|].
  destruct (has_key t (enums db)); [discriminate|].
  destruct (find _ (columns D)); [discriminate|].
  intros H. injection H as <-. split; [reflexivity | eexists; reflexivity].
Qed.

End StatementsOnOneTable.

Section Frame.
Context {rt : Runtime} {eng : Engine}.
Variable t : string.
Variable w0 : World.

Let I (p b : Db) : Prop :=
  forall t0, t0 <> t -> lookupTable b t0 = lookupTable (backup w0) t0.
Let okB (r : Runner) : Prop := side r = Backup.

Lemma frame_setTable (p b : Db) (T : Table) : I p b -> I p (setTable b t T).
Proof.
  intros H t0 Ht. rewrite lookup_setTable_other by exact Ht. now apply H.
Qed.

Lemma frame_insert r c rs :
  okB r ->
  preserves (othersKept t w0) (writeDb r (fun db => insertInto db t c rs)).
Proof.
  intros Hr. apply (data_write I); [exact Hr|].
  intros p b b' E H. destruct (insertInto_sets _ _ _ _ _ E) as (T & T' & _ & _ & ->).
  now apply frame_setTable.
Qed.

Lemma frame_createTable r defs :
  okB r -> preserves (othersKept t w0) (writeDb r (createTable t defs)).
Proof.
  intros Hr. apply (data_write I); [exact Hr|].
  intros p b b' E H. destruct (createTable_sets _ _ _ _ E) as (_ & T & ->).
  now apply frame_setTable.
Qed.

Lemma frame_addPrimaryKey r cols :
  okB r -> preserves (othersKept t w0) (writeDb r (addPrimaryKey t cols)).
Proof.
  intros Hr. apply (data_write I); [exact Hr|].
  intros p b b' E H.
  destruct (addPrimaryKey_sets _ _ _ _ E) as (T & T' & _ & _ & ->).
  now apply frame_setTable.
Qed.

Lemma frame_drop r :
  okB r -> preserves (othersKept t w0) (writeDb r (dropTableIfExists t)).
Proof.
  intros Hr. apply (data_write I); [exact Hr|].
  intros p b b' E H t0 Ht. injection E as <-.
  rewrite lookup_dropTable_other by exact Ht. now apply H.
Qed.

Lemma frame_replay r D :
  okB r ->
  preserves (othersKept t w0) (writeDb r (BackupService.replayDump t D)).
Proof.
  intros Hr. apply (data_write I); [exact Hr|].
  intros p b b' E H. destruct (replayDump_sets _ _ _ _ E) as (_ & T & ->).
  now apply frame_setTable.
Qed.

Lemma frame_releases p b :
  preserves (othersKept t w0) (release p ;; release b).
Proof. apply preserves_bind; intros; apply (data_release I). Qed.

Lemma frame_backupTable :
  preserves (othersKept t w0) (BackupService.backupTable t false).
Proof.
  unfold BackupService.backupTable.
  apply preserves_new_runner; [apply (data_createQueryRunner I)|].
  intros p _.
  apply preserves_new_runner; [apply (data_createQueryRunner I)|].
  intros b Hb.
  apply preserves_try_finally; [|apply frame_releases].
  apply table_backupTableTry with (okB := okB);
    try solve [ apply (data_roundtrip I) | apply (data_log I)
              | apply (data_read I) | apply (data_connect I)
              | intros; apply frame_insert; assumption
              | apply frame_createTable | apply frame_addPrimaryKey
              | apply frame_drop | apply frame_replay | exact Hb ].
Qed.

Lemma frame_syncTableChanges :
  preserves (othersKept t w0) (CdcService.syncTableChanges t).
Proof.
  unfold CdcService.syncTableChanges.
  apply preserves_new_runner; [apply (data_createQueryRunner I)|].
  intros p _.
  apply preserves_new_runner; [apply (data_createQueryRunner I)|].
  intros b Hb.
  apply preserves_try_finally; [|apply frame_releases].
  apply table_syncTableChangesTry with (okB := okB);
    try solve [ apply (data_roundtrip I) | apply (data_log I)
              | apply (data_read I) | apply (data_connect I)
              | apply frame_insert
              | apply frame_createTable | apply frame_addPrimaryKey
              | exact Hb ].
Qed.

Lemma frame_forceSyncTable :
  preserves (othersKept t w0) (CdcService.forceSyncTable t).
Proof.
  unfold CdcService.forceSyncTable, CdcService.forceSyncTableBody.
  apply preserves_try_catch.
  - apply preserves_new_runner; [apply (data_createQueryRunner I)|].
    intros p _.
    apply preserves_new_runner; [apply (data_createQueryRunner I)|].
    intros b Hb.
    apply preserves_try_finally; [|apply frame_releases].
    apply table_forceSyncTableTry with (okB := okB);
      try solve [ apply (data_roundtrip I) | apply (data_log I)
                | apply (data_read I) | apply (data_connect I)
                | apply frame_insert | exact Hb ].
  - intros e. apply preserves_bind; [apply (data_log I)|].
    intros _. apply preserves_ret.
Qed.

End Frame.

(** X17.  The work on one table writes to no other: whatever the
    driver and the server answer, the non-forced backupTable, the
    synchronization of the changes of a table and the forced
    synchronization of a table leave every other table of the backup
    exactly as it was. *)
Theorem single_table_frame
    {rt : Runtime} {eng : Engine} (t : string) (w : World) :
  othersKept t w (snd (BackupService.backupTable t false w))
  /\ othersKept t w (snd (CdcService.syncTableChanges t w))
  /\ othersKept t w (snd (CdcService.forceSyncTable t w)).
Proof.
  assert (R : othersKept t w w) by (intros t0 _; reflexivity).
  split; [|split].
  - now apply frame_backupTable.
  - now apply frame_syncTableChanges.
  - now apply frame_forceSyncTable.
Qed.

(** *** The non-forced backup only adds rows *)

Lemma rowsKept_refl (w : World) : rowsKept w w.
Proof.
  intros t0 T0 H. exists T0, []. split; [exact H | now rewrite app_nil_r].
Qed.

Lemma rowsKept_trans (w0 w1 w2 : World) :
  rowsKept w0 w1 -> rowsKept w1 w2 -> rowsKept w0 w2.
Proof.
  intros H1 H2 t0 T0 H0.
  destruct (H1 t0 T0 H0) as (T1 & a1 & L1 & R1).
  destruct (H2 t0 T1 L1) as (T2 & a2 & L2 & R2).
  exists T2, (a1 ++ a2). split; [exact L2|].
  now rewrite R2, R1, app_assoc.
Qed.

Section DoNothingAppends.
Context {eng : Engine}.

Lemma insertRows_DoNothing_appends (rs : list Row) :
  forall T T',
    insertRows DoNothing T rs = Done T' ->
    exists added, rows T' = rows T ++ added.
Proof.
  induction rs as [| r rest IH]; intros T T' H; cbn [insertRows] in H.
  - injection H as <-. exists []. now rewrite app_nil_r.
  - destruct (insertRow DoNothing T r) as [T1 |] eqn:E; [|discriminate].
    destruct (IH _ _ H) as [a Ha].
    unfold insertRow in E. destruct (row_error T r); [discriminate|].
    destruct (conflicts T r); injection E as <-.
    + now exists a.
    + cbn [rows] in Ha. exists ([stored T r] ++ a).
      now rewrite Ha, app_assoc.
Qed.

End DoNothingAppends.

(** A read whose answer decides what is done next. *)
Lemma preserves_readDb_bind (P : World -> Prop) {A B} (r : Runner)
      (q : Db -> Res A) (k : A -> M B) :
  preserves P roundtrip ->
  (forall w a, P w -> q (db_of (side r) w) = Done a -> P (snd (k a w))) ->
  preserves P (bind (readDb r q) k).
Proof.
  intros Hr Hk w H. unfold readDb, bind.
  specialize (Hr w H). destruct (roundtrip w) as [[[] | e] w1]; cbn [snd] in *.
  - destruct (q (db_of (side r) w1)) as [a | e] eqn:E; cbn [snd].
    + now apply Hk.
    + exact Hr.
  - exact Hr.
Qed.

Section AppendOnly.
Context {rt : Runtime} {eng : Engine}.
Variable t : string.
Variable T0 : Table.

(** Table [t] of the backup holds the rows of [T0] and maybe more. *)
Let I (p b : Db) : Prop :=
  exists T added, lookupTable b t = Some T /\ rows T = rows T0 ++ added.
Let P (w : World) : Prop := I (primary w) (backup w).
Let okB (r : Runner) : Prop := side r = Backup.

Lemma append_insert r rs :
  okB r -> preserves P (writeDb r (fun db => insertInto db t DoNothing rs)).
Proof.
  intros Hr. apply (data_write I); [exact Hr|].
  intros p b b' E (T & a & L & R).
  destruct (insertInto_sets _ _ _ _ _ E) as (T1 & T' & L1 & E1 & ->).
  rewrite L in L1. injection L1 as <-.
  destruct (insertRows_DoNothing_appends _ _ _ E1) as [a' Ha].
  exists T', (a ++ a'). split; [apply lookup_setTable|].
  now rewrite Ha, R, app_assoc.
Qed.

Lemma append_copyData p b :
  okB b ->
  preserves P
    (data <- readDb p (selectAll t None) ;;
     if BackupService.nonempty data then
       ret tt ;; BackupService.insertDataInBatches b t data
     else ret tt).
Proof.
  intros Hb. apply table_copyData with (okB := okB);
    try solve [ apply (data_log I) | apply (data_read I)
              | intros; apply append_insert; assumption | exact Hb ].
Qed.

Lemma append_backupTableTry p b :
  okB b -> preserves P (BackupService.backupTableTry p b t false).
Proof.
  intros Hb. unfold BackupService.backupTableTry.
  apply preserves_bind; [apply (data_connect I)|]. intros _.
  apply preserves_bind; [apply (data_connect I)|]. intros _.
  unfold BackupService.checkTableExists.
  apply preserves_readDb_bind; [apply (data_roundtrip I)|].
  intros w e Hw He. rewrite Hb in He. cbn [db_of] in He.
  unfold tableExists in He. injection He as <-.
  destruct Hw as (T & a & L & R).
  assert (Hk : has_key t (tables (backup w)) = true).
  { unfold has_key. unfold lookupTable in L. now rewrite L. }
  rewrite Hk. cbn [negb orb]. cbv iota.
  apply (preserves_bind P); [apply preserves_ret | |].
  - intros _. now apply append_copyData.
  - now exists T, a.
Qed.

Lemma append_backupTable :
  preserves P (BackupService.backupTable t false).
Proof.
  unfold BackupService.backupTable.
  apply preserves_new_runner; [apply (data_createQueryRunner I)|].
  intros p _.
  apply preserves_new_runner; [apply (data_createQueryRunner I)|].
  intros b Hb.
  apply preserves_try_finally.
  - now apply append_backupTableTry.
  - apply preserves_bind; intros; apply (data_release I).
Qed.

End AppendOnly.

Section BackupOnlyAdds.
Context {rt : Runtime} {eng : Engine}.

Lemma backupTable_rowsKept (t : string) (w : World) :
  rowsKept w (snd (BackupService.backupTable t false w)).
Proof.
  intros t0 T0 H0. destruct (String.eqb t0 t) eqn:E.
  - apply String.eqb_eq in E. subst t0.
    apply (append_backupTable t T0 w).
    exists T0, []. split; [exact H0 | now rewrite app_nil_r].
  - apply String.eqb_neq in E.
    pose proof (frame_backupTable t w w (fun _ _ => eq_refl) t0 E) as F.
    exists T0, []. split; [now rewrite F | now rewrite app_nil_r].
Qed.

Variable w0 : World.

Let I (p b : Db) : Prop :=
  forall t0 T0,
    lookupTable (backup w0) t0 = Some T0 ->
    exists T added, lookupTable b t0 = Some T /\ rows T = rows T0 ++ added.

Lemma rowsKept_backupTable (t : string) :
  preserves (rowsKept w0) (BackupService.backupTable t false).
Proof.
  intros w H. eapply rowsKept_trans; [exact H | apply backupTable_rowsKept].
Qed.

Lemma rowsKept_getAllTables :
  preserves (rowsKept w0) BackupService.getAllTables.
Proof.
  unfold BackupService.getAllTables.
  apply preserves_new_runner; [apply (data_createQueryRunner I)|].
  intros r _.
  pose proof (data_connect I). pose proof (data_read I).
  pose proof (data_release I).
  preserves_auto.
Qed.

Lemma rowsKept_performFullBackup :
  preserves (rowsKept w0) (BackupService.performFullBackup false).
Proof.
  unfold BackupService.performFullBackup.
  pose proof rowsKept_getAllTables. pose proof rowsKept_backupTable.
  pose proof (data_log I).
  preserves_auto.
Qed.

Lemma rowsKept_performScheduledBackup :
  preserves (rowsKept w0) BackupService.performScheduledBackup.
Proof.
  unfold BackupService.performScheduledBackup.
  pose proof rowsKept_performFullBackup. pose proof (data_log I).
  preserves_auto.
Qed.

End BackupOnlyAdds.

(** X18.  The non-forced backup only adds rows: whatever the driver
    and the server answer, after backupTable without forced recreation,
    after a non-forced full backup and after the hourly job, every
    table the backup had is still there and holds the rows it had, in
    their order, followed by the rows added.  No stored row is removed
    or changed on this path. *)
Theorem backup_only_adds_rows
    {rt : Runtime} {eng : Engine} (t : string) (w : World) :
  rowsKept w (snd (BackupService.backupTable t false w))
  /\ rowsKept w (snd (BackupService.performFullBackup false w))
  /\ rowsKept w (snd (BackupService.performScheduledBackup w)).
Proof.
  split; [apply backupTable_rowsKept|]. split.
  - apply rowsKept_performFullBackup. apply rowsKept_refl.
  - apply rowsKept_performScheduledBackup. apply rowsKept_refl.
Qed.

(** ** The answer of forceSyncTable *)

Section ForceSyncAnswer.
Context {rt : Runtime} {eng : Engine}.

Lemma forceSyncTableTry_quiet (p b : Runner) (t : string) (w : World)
      (P T : Table) :
  side p = Primary -> side b = Backup -> faults w = [] ->
  lookupTable (primary w) t = Some P -> lookupTable (backup w) t = Some T ->
  let n := length (firstn 1000 (rows P)) in
  fst (CdcService.forceSyncTableTry p b t w)
  = Ok {| CdcService.success := true;
          CdcService.message :=
            match n with
            | O => "No records to sync"
            | _ => "Successfully force synced " ++ string_of_Z (Z.of_nat n)
                   ++ " records"
            end;
          CdcService.recordsProcessed := Z.of_nat n |}.
Proof.
  intros Hp Hb Hq HP HT n. unfold CdcService.forceSyncTableTry.
  rewrite (bind_ok _ _ _ _ _ (connect_quiet p w Hq)).
  set (w1 := set_connected w (rid p :: connected w)).
  rewrite (bind_ok _ _ _ _ _ (connect_quiet b w1 Hq)).
  set (w2 := set_connected w1 (rid b :: connected w1)).
  rewrite (bind_ok _ _ _ _ _ (cdc_checkTableExists_quiet p t w2 Hq)).
  rewrite (bind_ok _ _ _ _ _ (cdc_checkTableExists_quiet b t w2 Hq)).
  rewrite Hp, Hb. cbn [db_of w2 w1 set_connected primary backup].
  assert (Kp : has_key t (tables (primary w)) = true)
    by (unfold has_key; unfold lookupTable in HP; now rewrite HP).
  assert (Kb : has_key t (tables (backup w)) = true)
    by (unfold has_key; unfold lookupTable in HT; now rewrite HT).
  rewrite Kp, Kb. cbn [negb].
  assert (D : readDb p (selectAll t (Some 1000%nat)) w2
              = (Ok (firstn 1000 (rows P)), w2)).
  { rewrite readDb_quiet by exact Hq. rewrite Hp. cbn [db_of].
    unfold selectAll. change (primary w2) with (primary w). now rewrite HP. }
  rewrite (bind_ok _ _ _ _ _ D). unfold n.
  destruct (firstn 1000 (rows P)) as [| first rest] eqn:Ef; [reflexivity|].
  cbn [CdcService.nonempty]. unfold bind, ret.
  destruct (upsertRecords_returns b t (first :: rest) w2) as [[] E].
  destruct (CdcService.upsertRecords b t (first :: rest) w2) as [[[] | e] w3];
    cbn [fst] in E; [reflexivity | discriminate].
Qed.

End ForceSyncAnswer.

(** X19.  Without driver faults, on a table that both databases have,
    forceSyncTable answers success and reports as processed the number
    of records it read from the primary, 1000 at most, whether or not
    the server accepted them: a record the backup refuses is logged and
    still counted. *)
Theorem forceSyncTable_counts_records_read
    {rt : Runtime} {eng : Engine} (t : string) (w : World) (P T : Table) :
  faults w = [] ->
  lookupTable (primary w) t = Some P -> lookupTable (backup w) t = Some T ->
  let n := length (firstn 1000 (rows P)) in
  fst (CdcService.forceSyncTable t w)
  = Ok {| CdcService.success := true;
          CdcService.message :=
            match n with
            | O => "No records to sync"
            | _ => "Successfully force synced " ++ string_of_Z (Z.of_nat n)
                   ++ " records"
            end;
          CdcService.recordsProcessed := Z.of_nat n |}
  /\ (n <= 1000)%nat /\ (n <= length (rows P))%nat.
Proof.
  intros Hq HP HT n. split.
  - unfold CdcService.forceSyncTable, CdcService.forceSyncTableBody,
      try_catch, bind at 1 2, createQueryRunner.
    cbv beta iota. cbn [nextRunner primary backup faults connected logs].
    set (p := {| rid := nextRunner w; side := Primary |}).
    set (b := {| rid := S (nextRunner w); side := Backup |}).
    unfold try_finally.
    match goal with
    | |- context [CdcService.forceSyncTableTry p b t ?w1] =>
        pose proof (forceSyncTableTry_quiet p b t w1 P T eq_refl eq_refl
                      Hq HP HT) as E;
        destruct (CdcService.forceSyncTableTry p b t w1) as [res w2]
    end.
    cbn [fst] in E. subst res. reflexivity.
  - unfold n. rewrite length_firstn. split; lia.
Qed.

Lemma forceSyncTable_counts_records_read_witness :
  fst (CdcService.forceSyncTable (rt := Sample.runtime) (eng := Sample.engine)
         "accounts"
         (Sample.world
            (Sample.database
               [("accounts", Sample.accounts "updateat"
                               [Sample.badAccount "updateat"])])
            (Sample.database [("accounts", Sample.accounts "updateat" [])])
            []))
  = Ok {| CdcService.success := true;
          CdcService.message := "Successfully force synced 1 records";
          CdcService.recordsProcessed := 1 |}.
Proof.
  refine (proj1 (forceSyncTable_counts_records_read
                   (rt := Sample.runtime) (eng := Sample.engine) "accounts"
                   (Sample.world
                      (Sample.database
                         [("accounts", Sample.accounts "updateat"
                                         [Sample.badAccount "updateat"])])
                      (Sample.database
                         [("accounts", Sample.accounts "updateat" [])])
                      [])
                   (Sample.accounts "updateat" [Sample.badAccount "updateat"])
                   (Sample.accounts "updateat" []) _ _ _)); reflexivity.
Defined.

(** ** The upsert of a record whose key is stored *)






Section UpsertOverwrites.
Context {rt : Runtime} {eng : Engine}.




End UpsertOverwrites.



(** ** Row isolation in the upsert engine *)












Section UpsertStores.
Context {rt : Runtime} {eng : Engine}.
Variables (t : string) (T : Table) (cols : list string).

Let valid := validColumns T cols.
Let types := CdcService.columnTypeMap (columns T).
Let values := CdcService.recordValues types valid.
Let step := upsertOne t (columns T) (pkey T) valid.
Let set := filter (fun c => negb (mem c (pkey T))) valid.

Hypothesis Hpk : pkey T <> [].
Hypothesis Hall : forallb (fun c => mem c valid) (pkey T) = true.












End UpsertStores.

Section RefusedRecord.
Context {rt : Runtime} {eng : Engine}.


End RefusedRecord.



(** ** Copying the enum types of a table *)

Lemma selectEnumTypes_lists (cols : list Column) (col : Column) (u : string) :
  In col cols -> data_type col = "USER-DEFINED" -> udt_name col = Some u ->
  forall acc,
    In u (fold_left
            (fun acc col =>
               if String.eqb (data_type col) "USER-DEFINED" then
                 match udt_name col with
                 | Some u => if mem u acc then acc else acc ++ [u]
                 | None => acc
                 end
               else acc) cols acc).
Proof.
  intros Hin Hd Hu.
  assert (Keep : forall cols acc,
             In u acc ->
             In u (fold_left
                     (fun acc col =>
                        if String.eqb (data_type col) "USER-DEFINED" then
                          match udt_name col with
                          | Some u => if mem u acc then acc else acc ++ [u]
                          | None => acc
                          end
                        else acc) cols acc)).
  { clear. induction cols as [| c r IH]; intros acc H; cbn [fold_left];
      [exact H|].
    apply IH. destruct (String.eqb (data_type c) "USER-DEFINED"); [|exact H].
    destruct (udt_name c) as [u' |]; [|exact H].
    destruct (mem u' acc); [exact H|]. apply in_or_app. now left. }
  induction cols as [| c r IH]; intros acc; [contradiction|].
  cbn [fold_left]. destruct Hin as [-> | Hin]; [|now apply IH].
  apply Keep. rewrite Hd, String.eqb_refl, Hu.
  destruct (mem u acc) eqn:E; [now apply mem_In|].
  apply in_or_app. right. now left.
Qed.

Lemma has_key_app {A} (k : string) (l1 l2 : list (string * A)) :
  has_key k (l1 ++ l2) = has_key k l1 || has_key k l2.
Proof.
  unfold has_key. induction l1 as [| [k' v] r IH]; cbn [app assoc].
  - now destruct (assoc k l2).
  - destruct (String.eqb k k'); [reflexivity | exact IH].
Qed.

Lemma assoc_app_l {A} (k : string) (l1 l2 : list (string * A)) (v : A) :
  assoc k l1 = Some v -> assoc k (l1 ++ l2) = Some v.
Proof.
  induction l1 as [| [k' x] r IH]; cbn [app assoc]; [discriminate|].
  destruct (String.eqb k k'); [trivial | exact IH].
Qed.

Lemma assoc_app_r {A} (k : string) (l1 l2 : list (string * A)) :
  has_key k l1 = false -> assoc k (l1 ++ l2) = assoc k l2.
Proof.
  unfold has_key. induction l1 as [| [k' x] r IH]; cbn [app assoc];
    [reflexivity|].
  destruct (String.eqb k k'); [discriminate | exact IH].
Qed.

Lemma selectEnumTypes_from (cols : list Column) (u : string) :
  forall acc,
    In u (fold_left
            (fun acc col =>
               if String.eqb (data_type col) "USER-DEFINED" then
                 match udt_name col with
                 | Some u => if mem u acc then acc else acc ++ [u]
                 | None => acc
                 end
               else acc) cols acc) ->
    In u acc
    \/ exists col, In col cols /\ data_type col = "USER-DEFINED"
                   /\ udt_name col = Some u.
Proof.
  induction cols as [| c r IH]; intros acc H; cbn [fold_left] in H;
    [now left|].
  destruct (IH _ H) as [Hacc | (col & Hin & Hd & Hu)].
  - destruct (String.eqb (data_type c) "USER-DEFINED") eqn:Ed;
      [|now left].
    destruct (udt_name c) as [u' |] eqn:Eu; [|now left].
    destruct (mem u' acc); [now left|].
    apply in_app_or in Hacc. destruct Hacc as [Hacc | [<- | []]];
      [now left|].
    right. exists c. apply String.eqb_eq in Ed.
    split; [now left|]. split; assumption.
  - right. exists col. split; [now right|]. split; assumption.
Qed.

Section CopyEnums.
Context {eng : Engine}.

Lemma createEnumText_readsBack (u : string) (l : list string) (db : Db) :
  readsBack u l = true -> createEnumText u l db = createEnum u l db.
Proof.
  unfold readsBack, createEnumText. intros H.
  apply andb_true_iff in H. destruct H as [H Hl].
  apply andb_true_iff in H. destruct H as [Hu Hr].
  destruct (unquoted u) as [n |]; [|discriminate].
  apply String.eqb_eq in Hu. subst n. rewrite Hl.
  apply negb_true_iff in Hr. now rewrite Hr.
Qed.

(** The loop of copyEnumTypes in a world without driver faults, over
    types whose names and labels read back as they are: the tables are
    left alone, the enum types the backup has are kept, and every
    listed type that the primary defines with labels is in the backup
    afterwards. *)
Lemma copyEnum_loop_quiet (p b : Runner) (types : list string) :
  side p = Primary -> side b = Backup ->
  forall w,
    faults w = [] ->
    (forall u l, In u types -> assoc u (enums (primary w)) = Some l ->
                 l <> [] ->
                 readsBack u l = true
                 /\ has_key u (tables (backup w)) = false) ->
    exists w',
      forM_ types (fun typeName =>
        typeExists <- readDb b (CdcService.enumExists typeName) ;;
        if negb typeExists then
          enumValues <- readDb p (CdcService.selectEnumLabels typeName) ;;
          if CdcService.nonempty enumValues
          then writeDb b (createEnumText typeName enumValues)
          else ret tt
        else ret tt) w = (Ok tt, w')
      /\ faults w' = [] /\ primary w' = primary w /\ logs w' = logs w
      /\ tables (backup w') = tables (backup w)
      /\ (forall u l, assoc u (enums (backup w)) = Some l ->
                      assoc u (enums (backup w')) = Some l)
      /\ (forall u l, In u types -> assoc u (enums (primary w)) = Some l ->
                      l <> [] ->
                      has_key u (enums (backup w')) = true
                      /\ (has_key u (enums (backup w)) = false ->
                          assoc u (enums (backup w')) = Some l)).
Proof.
  intros Hp Hb. induction types as [| u0 rest IH]; intros w Hq Hread.
  - exists w. cbn [forM_]. split; [reflexivity|].
    split; [exact Hq|]. split; [reflexivity|]. split; [reflexivity|].
    split; [reflexivity|]. split; [intros u l H; exact H|].
    intros u l [].
  - cbn [forM_].
    assert (Hrest : forall u l, In u rest ->
                      assoc u (enums (primary w)) = Some l -> l <> [] ->
                      readsBack u l = true
                      /\ has_key u (tables (backup w)) = false).
    { intros u l Hin. apply Hread. now right. }
    assert (E : readDb b (CdcService.enumExists u0) w
                = (Ok (has_key u0 (enums (backup w))), w)).
    { rewrite readDb_quiet by exact Hq. now rewrite Hb. }
    unfold bind at 1. unfold bind at 1. rewrite E. cbv beta iota.
    destruct (has_key u0 (enums (backup w))) eqn:Hk; cbn [negb].
    + (* the type is there already *)
      unfold ret at 1. cbv beta iota.
      destruct (IH w Hq Hrest) as (w' & El & Hq' & Pp & Lg & Tb & Keep & New).
      exists w'. split; [exact El|].
      split; [exact Hq'|]. split; [exact Pp|]. split; [exact Lg|].
      split; [exact Tb|]. split; [exact Keep|].
      intros u l [-> | Hin] Hl Hne; [|now apply New].
      unfold has_key in Hk.
      destruct (assoc u (enums (backup w))) as [l0 |] eqn:Ea; [|discriminate].
      split.
      * unfold has_key. now rewrite (Keep u l0 Ea).
      * unfold has_key. rewrite Ea. discriminate.
    + assert (L : readDb p (CdcService.selectEnumLabels u0) w
                  = (Ok match assoc u0 (enums (primary w)) with
                        | Some labels => labels
                        | None => []
                        end, w)).
      { rewrite readDb_quiet by exact Hq. now rewrite Hp. }
      unfold bind at 1. rewrite L. cbv beta iota.
      destruct (assoc u0 (enums (primary w))) as [[| x labels] |] eqn:Ep;
        cbn [CdcService.nonempty].
      * (* no label: nothing is created *)
        unfold ret at 1. cbv beta iota.
        destruct (IH w Hq Hrest)
          as (w' & El & Hq' & Pp & Lg & Tb & Keep & New).
        exists w'. split; [exact El|].
        split; [exact Hq'|]. split; [exact Pp|]. split; [exact Lg|].
        split; [exact Tb|]. split; [exact Keep|].
        intros u l [-> | Hin] Hl Hne; [|now apply New].
        rewrite Ep in Hl. injection Hl as <-. contradiction.
      * (* the type is created *)
        destruct (Hread u0 (x :: labels) (or_introl eq_refl) Ep
                    ltac:(discriminate)) as [Hrb Hnt].
        rewrite writeDb_quiet by exact Hq. rewrite Hb. cbn [db_of].
        rewrite (createEnumText_readsBack _ _ _ Hrb).
        unfold createEnum. rewrite Hk, Hnt. cbn [orb].
        set (w1 := set_db Backup w
                     {| tables := tables (backup w);
                        enums := enums (backup w) ++ [(u0, x :: labels)] |}).
        destruct (IH w1 Hq Hrest)
          as (w' & El & Hq' & Pp & Lg & Tb & Keep & New).
        exists w'. split; [exact El|].
        split; [exact Hq'|]. split; [exact Pp|]. split; [exact Lg|].
        split; [exact Tb|]. split.
        { intros u l Hu. apply Keep. cbn [w1 set_db backup enums].
          now apply assoc_app_l. }
        assert (A1 : assoc u0 (enums (backup w1)) = Some (x :: labels)).
        { cbn [w1 set_db backup enums]. rewrite assoc_app_r by exact Hk.
          cbn [assoc]. now rewrite String.eqb_refl. }
        intros u l Hin Hl Hne.
        destruct (String.eqb u u0) eqn:Eu.
        { apply String.eqb_eq in Eu. subst u.
          rewrite Ep in Hl. injection Hl as <-.
          split; [|intros _; now apply Keep].
          unfold has_key. now rewrite (Keep _ _ A1). }
        destruct Hin as [-> | Hin]; [now rewrite String.eqb_refl in Eu|].
        destruct (New u l Hin Hl Hne) as [H1 H2]. split; [exact H1|].
        intros Hku. apply H2. cbn [w1 set_db backup enums].
        rewrite has_key_app, Hku. cbn [orb].
        unfold has_key. cbn [assoc]. now rewrite Eu.
      * (* the primary does not define the type *)
        unfold ret at 1. cbv beta iota.
        destruct (IH w Hq Hrest)
          as (w' & El & Hq' & Pp & Lg & Tb & Keep & New).
        exists w'. split; [exact El|].
        split; [exact Hq'|]. split; [exact Pp|]. split; [exact Lg|].
        split; [exact Tb|]. split; [exact Keep|].
        intros u l [-> | Hin] Hl Hne; [|now apply New].
        rewrite Ep in Hl. discriminate.
Qed.

End CopyEnums.

(** X21.  copyEnumTypes writes the name of a type and its labels into
    its CREATE TYPE statement without quoting or escaping them.
    Without driver faults, when every enum type of a column of the
    table that the primary defines with labels has a name and labels
    that read back as they are (the name a word in lower case that the
    grammar does not keep, no apostrophe or backslash in a label) and a
    name no table of the backup has, copyEnumTypes returns normally,
    leaves the primary and the tables of the backup as they are and
    keeps every enum type the backup has.  Afterwards each of these
    types exists in the backup, and one that was missing has the labels
    of the primary in their order. *)
Theorem copyEnumTypes_copies
    {eng : Engine} (p b : Runner) (t : string) (w : World) :
  side p = Primary -> side b = Backup -> faults w = [] ->
  (forall col u l,
     In col (columnsIn (primary w) t) ->
     data_type col = "USER-DEFINED" -> udt_name col = Some u ->
     assoc u (enums (primary w)) = Some l -> l <> [] ->
     readsBack u l = true /\ has_key u (tables (backup w)) = false) ->
  exists w',
    CdcService.copyEnumTypes p b t w = (Ok tt, w')
    /\ primary w' = primary w
    /\ tables (backup w') = tables (backup w)
    /\ (forall u l, assoc u (enums (backup w)) = Some l ->
                    assoc u (enums (backup w')) = Some l)
    /\ (forall col u l,
          In col (columnsIn (primary w) t) ->
          data_type col = "USER-DEFINED" -> udt_name col = Some u ->
          assoc u (enums (primary w)) = Some l -> l <> [] ->
          has_key u (enums (backup w')) = true
          /\ (has_key u (enums (backup w)) = false ->
              assoc u (enums (backup w')) = Some l)).
Proof.
  intros Hp Hb Hq Hread. unfold CdcService.copyEnumTypes.
  assert (E : readDb p (CdcService.selectEnumTypes t) w
              = (Ok match lookupTable (primary w) t with
                    | None => []
                    | Some T =>
                        fold_left
                          (fun acc col =>
                             if String.eqb (data_type col) "USER-DEFINED" then
                               match udt_name col with
                               | Some u => if mem u acc then acc else acc ++ [u]
                               | None => acc
                               end
                             else acc) (columns T) []
                    end, w)).
  { rewrite readDb_quiet by exact Hq. now rewrite Hp. }
  match type of E with
  | _ = (Ok ?l, _) => set (types := l) in E
  end.
  assert (Hloop : forall u l, In u types ->
                    assoc u (enums (primary w)) = Some l -> l <> [] ->
                    readsBack u l = true
                    /\ has_key u (tables (backup w)) = false).
  { intros u l Hin Hl Hne. unfold types, columnsIn in *.
    destruct (lookupTable (primary w) t) as [T |]; [|contradiction].
    destruct (selectEnumTypes_from (columns T) u [] Hin)
      as [[] | (col & Hc & Hd & Hu)].
    now apply (Hread col u l). }
  destruct (copyEnum_loop_quiet p b types Hp Hb w Hq Hloop)
    as (w' & El & _ & Pp & _ & Tb & Keep & New).
  exists w'. split.
  { apply try_catch_ok. rewrite (bind_ok _ _ _ _ _ E). exact El. }
  split; [exact Pp|]. split; [exact Tb|]. split; [exact Keep|].
  intros col u l Hin Hd Hu Hl Hne. apply New; try assumption.
  unfold types, columnsIn in *.
  destruct (lookupTable (primary w) t) as [T |]; [|contradiction].
  now apply (selectEnumTypes_lists (columns T) col u).
Qed.

Lemma copyEnumTypes_copies_witness :
  exists w',
    CdcService.copyEnumTypes (eng := Sample.engine) Sample.primaryRunner
      Sample.backupRunner "people"
      (Sample.world
         {| tables := [("people", Sample.people)];
            enums := [("mood", ["sad"; "ok"; "happy"])] |}
         (Sample.database []) [])
    = (Ok tt, w')
    /\ assoc "mood" (enums (backup w')) = Some ["sad"; "ok"; "happy"].
Proof.
  assert (R : forall col u l,
             In col (columnsIn
                       {| tables := [("people", Sample.people)];
                          enums := [("mood", ["sad"; "ok"; "happy"])] |}
                       "people") ->
             data_type col = "USER-DEFINED" -> udt_name col = Some u ->
             assoc u [("mood", ["sad"; "ok"; "happy"])] = Some l ->
             l <> [] ->
             readsBack (eng := Sample.engine) u l = true
             /\ has_key u (tables (Sample.database [])) = false).
  { intros col u l Hin Hd Hu Hl _. cbn in Hin.
    destruct Hin as [<- | [<- | [<- | []]]]; try discriminate Hd.
    injection Hu as <-. injection Hl as <-. split; reflexivity. }
  destruct (copyEnumTypes_copies (eng := Sample.engine) Sample.primaryRunner
              Sample.backupRunner "people"
              (Sample.world
                 {| tables := [("people", Sample.people)];
                    enums := [("mood", ["sad"; "ok"; "happy"])] |}
                 (Sample.database []) [])
              eq_refl eq_refl eq_refl R)
    as (w' & E & _ & _ & _ & New).
  exists w'. split; [exact E|].
  refine (proj2 (New Sample.moodColumn "mood" ["sad"; "ok"; "happy"]
                   _ eq_refl eq_refl eq_refl _) eq_refl).
  - right. now left.
  - discriminate.
Defined.

(** ** One synchronization of a table, end to end *)



(** ** What the full backup without forced recreation adds *)

Section AddedRows.
Context {rt : Runtime} {eng : Engine}.






Lemma field_boundValues types cols row c :
  In c cols ->
  field (boundValues types cols row) c
  = processValueForInsertion (field row c) (typeOf types c).
Proof.
  unfold boundValues, field at 1.
  induction cols as [| k ks IH]; cbn [map assoc In]; [contradiction|].
  destruct (String.eqb c k) eqn:E.
  - intros _. apply String.eqb_eq in E. now subst k.
  - intros [-> | H]; [now rewrite String.eqb_refl in E | now apply IH].
Qed.

End AddedRows.

Section NonForcedBackup.
Context {rt : Runtime} {eng : Engine}.



End NonForcedBackup.



(** ** Row isolation in the full backup *)

Section BatchIsolation.
Context {rt : Runtime} {eng : Engine}.




End BatchIsolation.




Section MissingTable.
Context {rt : Runtime} {eng : Engine}.

Lemma lookup_dropTable_same (db : Db) (t : string) :
  lookupTable (dropTable db t) t = None.
Proof.
  unfold lookupTable, dropTable, assoc_remove. cbn [tables].
  induction (tables db) as [| [k v] l IH]; [reflexivity|].
  cbn [filter fst]. destruct (String.eqb t k) eqn:E; cbn [negb]; [exact IH|].
  cbn [assoc]. now rewrite E.
Qed.

Lemma backupTableTry_missing (p b : Runner) (t : string) (force : bool)
    (w : World) :
  side p = Primary -> side b = Backup -> faults w = [] ->
  lookupTable (primary w) t = None ->
  exists e w',
    BackupService.backupTableTry p b t force w = (Throw e, w')
    /\ primary w' = primary w
    /\ (if negb (has_key t (tables (backup w))) || force
        then e = ("No columns found for table " ++ t)%string
             /\ backup w' = dropTable (backup w) t
        else e = no_relation t /\ backup w' = backup w).
Proof.
  intros Hp Hb Hq HP. unfold BackupService.backupTableTry.
  rewrite (bind_ok _ _ _ _ _ (connect_quiet p w Hq)).
  set (w1 := set_connected w (rid p :: connected w)).
  rewrite (bind_ok _ _ _ _ _ (connect_quiet b w1 Hq)).
  set (w2 := set_connected w1 (rid b :: connected w1)).
  assert (E : BackupService.checkTableExists b t w2
              = (Ok (has_key t (tables (backup w))), w2)).
  { unfold BackupService.checkTableExists. rewrite readDb_quiet by exact Hq.
    rewrite Hb. reflexivity. }
  rewrite (bind_ok _ _ _ _ _ E).
  destruct (negb (has_key t (tables (backup w))) || force).
  - unfold bind at 1.
    unfold BackupService.createTableInBackup.
    unfold try_catch at 1. unfold bind at 1. unfold try_catch at 1.
    rewrite writeDb_quiet by exact Hq. rewrite Hb.
    cbn [dropTableIfExists]. unfold dropTableIfExists.
    unfold try_catch at 1. unfold bind at 1.
    unfold BackupService.pgDump. unfold bind at 1.
    rewrite roundtrip_quiet by exact Hq.
    cbn [set_db primary db_of w2 w1 set_connected].
    rewrite HP.
    unfold bind at 1. unfold log at 1.
    unfold BackupService.createTableFallback.
    unfold try_catch at 1. unfold bind at 1.
    rewrite readDb_quiet by exact Hq. rewrite Hp.
    unfold selectColumns. cbn [db_of primary]. rewrite HP.
    cbn [BackupService.nonempty negb]. unfold throw at 1.
    unfold bind at 1, log at 1. unfold throw at 1.
    unfold bind at 1, log at 1. unfold throw at 1.
    eexists. eexists. split; [reflexivity|].
    split; [reflexivity|]. split; reflexivity.
  - unfold bind at 1, ret at 1. unfold bind at 1.
    rewrite readDb_quiet by exact Hq. rewrite Hp.
    unfold selectAll. cbn [db_of w2 w1 set_connected primary]. rewrite HP.
    eexists. eexists. split; [reflexivity|].
    split; [reflexivity|]. split; reflexivity.
Qed.

End MissingTable.

(** X24.  Backing up a table the primary does not have.  Without
    driver faults backupTable throws, leaves the primary as it was and
    releases both runners.  When the backup has the table and the run is
    not forced, the error is that of SELECT * on the primary and the
    backup is unchanged; otherwise the table is dropped from the backup
    before the structure is looked for, the error is "No columns found
    for table t", and the backup has no table of that name afterwards:
    a forced backup of a table gone from the primary deletes the
    backup's copy. *)
Theorem backupTable_of_missing_table {rt : Runtime} {eng : Engine}
    (t : string) (force : bool) (w : World) :
  faults w = [] -> lookupTable (primary w) t = None ->
  exists e w',
    BackupService.backupTable t force w = (Throw e, w')
    /\ primary w' = primary w
    /\ no_new_runner w [] w'
    /\ (if negb (has_key t (tables (backup w))) || force
        then e = ("No columns found for table " ++ t)%string
             /\ lookupTable (backup w') t = None
        else e = no_relation t /\ backup w' = backup w).
Proof.
  intros Hq HP.
  pose proof (backupTable_releases w t force w (no_new_runner_refl w)) as R.
  assert (E : exists e w',
             BackupService.backupTable t force w = (Throw e, w')
             /\ primary w' = primary w
             /\ (if negb (has_key t (tables (backup w))) || force
                 then e = ("No columns found for table " ++ t)%string
                      /\ backup w' = dropTable (backup w) t
                 else e = no_relation t /\ backup w' = backup w)).
  { unfold BackupService.backupTable, bind at 1 2. simpl.
    set (p := {| rid := nextRunner w; side := Primary |}).
    set (b := {| rid := S (nextRunner w); side := Backup |}).
    unfold try_finally.
    match goal with
    | |- context [BackupService.backupTableTry p b t force ?w1] =>
        destruct (backupTableTry_missing p b t force w1 eq_refl eq_refl Hq HP)
          as [e [w2 [E [Hp2 Hb2]]]]; rewrite E
    end.
    cbn [backup] in Hb2. simpl.
    exists e. eexists. split; [reflexivity|]. simpl.
    split; [exact Hp2 | exact Hb2]. }
  destruct E as [e [w' [E [Hp2 Hb2]]]]. rewrite E in R. cbn [snd] in R.
  exists e, w'. split; [exact E|].
  split; [exact Hp2|]. split; [exact R|].
  destruct (negb (has_key t (tables (backup w))) || force).
  - destruct Hb2 as [He Hb2]. split; [exact He|].
    rewrite Hb2. apply lookup_dropTable_same.
  - exact Hb2.
Qed.

Lemma backupTable_of_missing_table_witness :
  exists e w',
    BackupService.backupTable (rt := Sample.runtime) (eng := Sample.engine)
      "accounts" true
      (Sample.world (Sample.database [])
         (Sample.database [("accounts", Sample.accounts "updateat" [])]) [])
    = (Throw e, w')
    /\ e = "No columns found for table accounts"
    /\ lookupTable (backup w') "accounts" = None.
Proof.
  destruct (backupTable_of_missing_table (rt := Sample.runtime)
              (eng := Sample.engine) "accounts" true
              (Sample.world (Sample.database [])
                 (Sample.database
                    [("accounts", Sample.accounts "updateat" [])]) [])
              eq_refl eq_refl)
    as [e [w' [E [_ [_ H]]]]].
  exists e, w'. split; [exact E|]. exact H.
Defined.
